(** * The listing scraper: extraction, de-duplication and page walking

    A shallow embedding of [GOOD/scrape_v3.py]: the helpers
    [set_page_param], [extract_item_id], [clean_price] and
    [normalize_detail_url], the per-block extraction of [scrape_page] and
    the page loop of [main] with its two "seen" sets and its row counters.

    Python values are modelled as follows.
    - A [str] is a list of code points ([N]).  The parts of the Unicode
      character database that the code consults ([str.strip], the regular
      expression class [\d], [str.isdigit], [int], and the normalization
      form NFKC that [urlsplit] applies to a host) are the fields of the
      class [UnicodeDB]; their Latin-1 rows are written out.
    - [int] is [Z].
    - An [Optional] is an [option]; Python truthiness is written out
      wherever the source relies on it.
    - A call that may raise returns an [outcome]: [int], [clean_price],
      [urljoin], the request of a page, [scrape_page].  For [str] on an
      [int], for the functions of [urllib.parse] and for the two helpers
      built on them that [main] calls outside a [try], the result and the
      exception are given apart: [set_page_param url n] is what the call
      returns when it returns, and [set_page_param_raises url n] tells
      whether it raises; likewise [str_of_int], [urlsplit], [urlparse],
      [urlencode] and [normalize_detail_url].  Where the source catches
      the exception ([extract_item_id], the start page of [main]) the
      model takes the handler's branch.
    - The dictionary returned by [parse_qs] keeps insertion order, which
      [urlencode] observes, so it is an association list.
    - The two [set]s of [main] are [gset]s.

    The functions of [urllib.parse] are transcribed from CPython 3.11
    ([Lib/urllib/parse.py]), with the three ways in which they raise: the
    [ValueError] of [urlsplit] for a bracketed host that is not an IPv6 or
    IPvFuture address (the address parser is transcribed from
    [Lib/ipaddress.py]), its [ValueError] for a host that NFKC turns into
    one with a delimiter, and the [UnicodeEncodeError] of [quote] for a
    lone surrogate.  [int] and [str] have the interpreter's limit of 4300
    digits on a decimal numeral.  [urljoin], the HTTP session and the HTML
    parser are parameters. *)

From Stdlib Require Import ZArith NArith String Ascii List DecimalString Lia.
From Stdlib Require DecimalZ.
From stdpp Require Import gmap list.

(** ** Python values *)

Abbreviation str := (list N).

(** A literal: the code points of an ASCII string. *)
Definition py (s : string) : str :=
  map N_of_ascii (list_ascii_of_string s).

(** [c] is the character written [a]. *)
Definition is_chr (a : ascii) (c : N) : bool := N.eqb c (N_of_ascii a).

Inductive outcome (A : Type) : Type :=
| Returned (a : A)
| Raised.
Arguments Returned {A} a.
Arguments Raised {A}.

#[global] Instance outcome_bind : MBind outcome := fun A B k m =>
  match m with
  | Returned a => k a
  | Raised => Raised
  end.

(** Truthiness of an [Optional[str]] and of an [Optional[int]]. *)
Definition truthy_str (s : option str) : bool :=
  match s with
  | Some (_ :: _) => true
  | _ => false
  end.

Definition truthy_int (z : option Z) : bool :=
  match z with
  | Some z => negb (Z.eqb z 0)
  | None => false
  end.

(** [sys.int_info.default_max_str_digits]: the longest decimal numeral
    that [int] reads and [str] writes. *)
Definition int_max_str_digits : N := 4300.

(** [str(n)] and the [{n}] of an f-string, for an [int]: the numeral
    written, and whether the conversion raises [ValueError] instead, which
    it does when the numeral has more than [int_max_str_digits] digits. *)
Definition str_of_int (n : Z) : str :=
  py (NilZero.string_of_int (Z.to_int n)).

Definition exceeds_max_str_digits (digits : nat) : bool :=
  (int_max_str_digits <? N.of_nat digits)%N.
Arguments exceeds_max_str_digits : simpl never.

Definition str_of_int_raises (n : Z) : bool :=
  exceeds_max_str_digits (length (str_of_int (Z.abs n))).

(** ** The Unicode character database *)

Definition latin1_isspace (c : N) : bool :=
  ((9 <=? c) && (c <=? 13) || (28 <=? c) && (c <=? 32)
   || (c =? 133) || (c =? 160))%N.

Definition ascii_decimal (c : N) : option N :=
  if ((48 <=? c) && (c <=? 57))%N then Some (c - 48)%N else None.

(** [unicodedata.normalize('NFKC', c)] for a character of Latin-1: the
    fourteen characters with a compatibility decomposition, the others
    being unchanged.  No two characters of Latin-1 compose. *)
Definition latin1_nfkc (c : N) : str :=
  (if c =? 160 then [32]
   else if c =? 168 then [32; 776]
   else if c =? 170 then [97]
   else if c =? 175 then [32; 772]
   else if c =? 178 then [50]
   else if c =? 179 then [51]
   else if c =? 180 then [32; 769]
   else if c =? 181 then [956]
   else if c =? 184 then [32; 807]
   else if c =? 185 then [49]
   else if c =? 186 then [111]
   else if c =? 188 then [49; 8260; 52]
   else if c =? 189 then [49; 8260; 50]
   else if c =? 190 then [51; 8260; 52]
   else [c])%N.

Class UnicodeDB := {
  (** [Py_UNICODE_ISSPACE]: what [str.strip] removes. *)
  Py_UNICODE_ISSPACE : N -> bool;
  (** [Py_UNICODE_TODECIMAL]: the value of a character of category Nd,
      which is what [\d] matches and what [int] converts. *)
  Py_UNICODE_TODECIMAL : N -> option N;
  (** [Py_UNICODE_ISDIGIT]: what [str.isdigit] accepts. *)
  Py_UNICODE_ISDIGIT : N -> bool;
  (** [unicodedata.normalize('NFKC', s)] *)
  NFKC : str -> str;
  todecimal_le_9 :
    forall c d, Py_UNICODE_TODECIMAL c = Some d -> (d <= 9)%N;
  todecimal_isdigit :
    forall c d, Py_UNICODE_TODECIMAL c = Some d -> Py_UNICODE_ISDIGIT c = true;
  todecimal_not_space :
    forall c d, Py_UNICODE_TODECIMAL c = Some d -> Py_UNICODE_ISSPACE c = false;
  isspace_latin1 :
    forall c, (c < 256)%N -> Py_UNICODE_ISSPACE c = latin1_isspace c;
  todecimal_latin1 :
    forall c, (c < 256)%N -> Py_UNICODE_TODECIMAL c = ascii_decimal c;
  NFKC_latin1 :
    forall s, Forall (fun c => (c < 256)%N) s -> NFKC s = flat_map latin1_nfkc s
}.

Section PythonStr.
Context {U : UnicodeDB}.

Definition is_decimal (c : N) : bool :=
  match Py_UNICODE_TODECIMAL c with
  | Some _ => true
  | None => false
  end.

Fixpoint lstrip_by (p : N -> bool) (s : str) : str :=
  match s with
  | [] => []
  | c :: r => if p c then lstrip_by p r else s
  end.

Definition strip_by (p : N -> bool) (s : str) : str :=
  rev (lstrip_by p (rev (lstrip_by p s))).

(** [s.strip()] *)
Definition strip (s : str) : str := strip_by Py_UNICODE_ISSPACE s.

(** [s.isdigit()] *)
Definition isdigit (s : str) : bool :=
  match s with
  | [] => false
  | _ => forallb Py_UNICODE_ISDIGIT s
  end.

(** [int(s)].  CPython first rewrites the string to ASCII, keeping the
    code points below 127, turning the other white space into a blank and
    the other decimal characters into their ASCII digit, and then reads
    an optional sign and decimal digits, single underscores allowed
    between digits, within C white space.  A numeral of more than
    [int_max_str_digits] digits, leading zeros counted, is refused. *)
Definition int_space (c : N) : bool :=
  if (c <? 127)%N then ((9 <=? c) && (c <=? 13) || (c =? 32))%N
  else Py_UNICODE_ISSPACE c.

Definition int_digit (c : N) : option N :=
  if (c <? 127)%N then ascii_decimal c
  else if Py_UNICODE_ISSPACE c then None
  else Py_UNICODE_TODECIMAL c.

Fixpoint int_digits (s : str) (after_digit : bool) (acc : Z) : option Z :=
  match s with
  | [] => if after_digit then Some acc else None
  | c :: r =>
      match int_digit c with
      | Some d => int_digits r true (10 * acc + Z.of_N d)
      | None =>
          if is_chr "_" c && after_digit then int_digits r false acc
          else None
      end
  end.

Definition int_digit_count (s : str) : nat :=
  length (List.filter (fun c => match int_digit c with
                                | Some _ => true
                                | None => false
                                end) s).

Definition int (s : str) : outcome Z :=
  let body := strip_by int_space s in
  let '(negative, numeral) :=
    match body with
    | c :: r =>
        if is_chr "-" c then (true, r)
        else if is_chr "+" c then (false, r)
        else (false, body)
    | [] => (false, body)
    end in
  match int_digits numeral false 0 with
  | Some v =>
      if exceeds_max_str_digits (int_digit_count numeral) then Raised
      else Returned (if negative then (- v)%Z else v)
  | None => Raised
  end.

(** The source's [clean_price]:
    <<
    def clean_price(text: str) -> int | None:
        if not text:
            return None
        digits = re.sub(r"[^\d]", "", text)
        return int(digits) if digits.isdigit() else None
    >> *)
Definition clean_price (text : option str) : outcome (option Z) :=
  if negb (truthy_str text) then Returned None
  else
    let digits := List.filter is_decimal (default [] text) in
    if isdigit digits then v ← int digits; Returned (Some v)
    else Returned None.

(** The values of the decimal characters of a text, in order, and the
    number they spell. *)
Definition decimals (t : str) : list N := omap Py_UNICODE_TODECIMAL t.

Definition spelled_from (acc : Z) (ds : list N) : Z :=
  fold_left (fun a d => (10 * a + Z.of_N d)%Z) ds acc.

Definition spelled (ds : list N) : Z := spelled_from 0 ds.

(** The price read off a text: the number spelled by its decimal
    characters, if it has any. *)
Definition price_of (text : option str) : option Z :=
  match decimals (default [] text) with
  | [] => None
  | ds => Some (spelled ds)
  end.

End PythonStr.

(** ** [urllib.parse] *)

(** *** Scanning helpers *)

(** The part of [s] before the first character satisfying [p], and the
    part from that character on. *)
Fixpoint take_until (p : N -> bool) (s : str) : str :=
  match s with
  | [] => []
  | c :: r => if p c then [] else c :: take_until p r
  end.

Fixpoint drop_until (p : N -> bool) (s : str) : str :=
  match s with
  | [] => []
  | c :: r => if p c then s else drop_until p r
  end.

(** [a in s] for a one-character [a]. *)
Definition contains (a : ascii) (s : str) : bool := existsb (is_chr a) s.

(** [s.split(a, 1)] for a one-character [a] that occurs in [s]. *)
Definition split1 (a : ascii) (s : str) : str * str :=
  (take_until (is_chr a) s, tail (drop_until (is_chr a) s)).

(** [s.split(a)] for a one-character [a]. *)
Fixpoint split (a : ascii) (s : str) : list str :=
  match s with
  | [] => [[]]
  | c :: r =>
      if is_chr a c then [] :: split a r
      else match split a r with
           | f :: fs => (c :: f) :: fs
           | [] => [[c]]
           end
  end.

(** [a.join(l)] *)
Fixpoint join (a : ascii) (l : list str) : str :=
  match l with
  | [] => []
  | [x] => x
  | x :: r => x ++ N_of_ascii a :: join a r
  end.

(** [s.replace(a, b)] for one-character [a] and [b]. *)
Definition replace_chr (a b : ascii) (s : str) : str :=
  map (fun c => if is_chr a c then N_of_ascii b else c) s.

Definition starts_with (prefix s : str) : bool :=
  bool_decide (take (length prefix) s = prefix).

Definition in_range (lo hi : ascii) (c : N) : bool :=
  (N_of_ascii lo <=? c)%N && (c <=? N_of_ascii hi)%N.

Definition ascii_alpha (c : N) : bool := in_range "a" "z" c || in_range "A" "Z" c.
Definition ascii_digit (c : N) : bool := in_range "0" "9" c.

(** [scheme_chars] *)
Definition scheme_char (c : N) : bool :=
  ascii_alpha c || ascii_digit c || is_chr "+" c || is_chr "-" c || is_chr "." c.

(** [s.lower()] on a string of [scheme_chars]. *)
Definition lower_chr (c : N) : N := if in_range "A" "Z" c then (c + 32)%N else c.

Definition uses_netloc : list str :=
  [] :: map py ["ftp"; "http"; "gopher"; "nntp"; "telnet"; "imap"; "wais"; "file";
          "mms"; "https"; "shttp"; "snews"; "prospero"; "rtsp"; "rtspu";
                "rsync"; "svn"; "svn+ssh"; "sftp"; "nfs"; "git"; "git+ssh"; "ws";
                "wss"]%string.

Definition uses_params : list str :=
  [] :: map py ["ftp"; "hdl"; "prospero"; "http"; "imap"; "https"; "shttp";
                "rtsp"; "rtspu"; "sip"; "sips"; "mms"; "sftp"; "tel"]%string.

(** *** Splitting and joining a URL *)

Record SplitResult := {
  split_scheme : str;
  split_netloc : str;
  split_path : str;
  split_query : str;
  split_fragment : str
}.

Record ParseResult := {
  scheme : str;
  netloc : str;
  path : str;
  params : str;
  query : str;
  fragment : str
}.

(** [_WHATWG_C0_CONTROL_OR_SPACE] and [_UNSAFE_URL_BYTES_TO_REMOVE] *)
Definition c0_control_or_space (c : N) : bool := (c <=? 32)%N.
Definition unsafe_url_byte (c : N) : bool := ((c =? 9) || (c =? 13) || (c =? 10))%N.

Definition netloc_delim (c : N) : bool := is_chr "/" c || is_chr "?" c || is_chr "#" c.

(** [urlsplit(url)] with the default [scheme=''] and [allow_fragments=True]. *)
Definition urlsplit (url : str) : SplitResult :=
  let url := lstrip_by c0_control_or_space url in
  let url := List.filter (fun c => negb (unsafe_url_byte c)) url in
  let head := take_until (is_chr ":") url in
  let '(scheme, url) :=
    if contains ":" url && negb (bool_decide (head = []))
       && match url with c :: _ => ascii_alpha c | [] => false end
       && forallb scheme_char head
    then (map lower_chr head, tail (drop_until (is_chr ":") url))
    else ([], url) in
  let '(netloc, url) :=
    if starts_with (py "//") url
    then (take_until netloc_delim (drop 2 url), drop_until netloc_delim (drop 2 url))
    else ([], url) in
  let '(url, fragment) :=
    if contains "#" url then split1 "#" url else (url, []) in
  let '(url, query) :=
    if contains "?" url then split1 "?" url else (url, []) in
  {| split_scheme := scheme; split_netloc := netloc; split_path := url;
     split_query := query; split_fragment := fragment |}.

(** [_splitparams(url)]: the first [';'] after the last ['/'] separates
    the parameters. *)
Definition splitparams (url : str) : str * str :=
  let last_segment := rev (take_until (is_chr "/") (rev url)) in
  let before := rev (drop_until (is_chr "/") (rev url)) in
  if contains ";" last_segment
  then (before ++ take_until (is_chr ";") last_segment,
        tail (drop_until (is_chr ";") last_segment))
  else (url, []).

Definition urlparse (url : str) : ParseResult :=
  let s := urlsplit url in
  let '(url, params) :=
    if bool_decide (split_scheme s ∈ uses_params) && contains ";" (split_path s)
    then splitparams (split_path s)
    else (split_path s, []) in
  {| scheme := split_scheme s; netloc := split_netloc s; path := url;
     params := params; query := split_query s; fragment := split_fragment s |}.

Definition nonempty (s : str) : bool :=
  match s with
  | [] => false
  | _ => true
  end.

Definition urlunsplit (scheme netloc url query fragment : str) : str :=
  let url :=
    if nonempty netloc
       || (nonempty scheme && bool_decide (scheme ∈ uses_netloc)
           && negb (starts_with (py "//") url))
    then
      let url :=
        if nonempty url && negb (starts_with (py "/") url)
        then py "/" ++ url else url in
      py "//" ++ netloc ++ url
    else url in
  let url := if nonempty scheme then scheme ++ py ":" ++ url else url in
  let url := if nonempty query then url ++ py "?" ++ query else url in
  if nonempty fragment then url ++ py "#" ++ fragment else url.

Definition urlunparse (p : ParseResult) : str :=
  let url := if nonempty (params p) then path p ++ py ";" ++ params p else path p in
  urlunsplit (scheme p) (netloc p) url (query p) (fragment p).

(** *** Percent-encoding *)

(** [s.encode('utf-8')] *)
Definition utf8_encode_chr (c : N) : list N :=
  (if c <? 128 then [c]
   else if c <? 2048 then [192 + c / 64; 128 + c mod 64]
   else if c <? 65536 then [224 + c / 4096; 128 + (c / 64) mod 64; 128 + c mod 64]
   else [240 + c / 262144; 128 + (c / 4096) mod 64; 128 + (c / 64) mod 64;
         128 + c mod 64])%N.

Definition utf8_encode (s : str) : list N := flat_map utf8_encode_chr s.

Definition continuation (b : N) : bool := ((128 <=? b) && (b <? 192))%N.

Definition replacement : N := 65533.

(** [bs.decode('utf-8', 'replace')]: every maximal ill-formed prefix of a
    sequence, and a sequence cut short by the end of the data, becomes one
    U+FFFD. *)
Fixpoint utf8_decode (bs : list N) : str :=
  match bs with
  | [] => []
  | b0 :: r0 =>
      (if b0 <? 128 then b0 :: utf8_decode r0
       else if (b0 <? 194) || (245 <=? b0) then replacement :: utf8_decode r0
       else if b0 <? 224 then
         match r0 with
         | [] => [replacement]
         | b1 :: r1 =>
             if continuation b1
             then ((b0 - 192) * 64 + (b1 - 128)) :: utf8_decode r1
             else replacement :: utf8_decode r0
         end
       else if b0 <? 240 then
         match r0 with
         | [] => [replacement]
         | b1 :: r1 =>
             if continuation b1
                && negb ((b0 =? 224) && (b1 <? 160))
                && negb ((b0 =? 237) && (160 <=? b1))
             then
               match r1 with
               | [] => [replacement]
               | b2 :: r2 =>
                   if continuation b2
                   then ((b0 - 224) * 4096 + (b1 - 128) * 64 + (b2 - 128))
                          :: utf8_decode r2
                   else replacement :: utf8_decode r1
               end
             else replacement :: utf8_decode r0
         end
       else
         match r0 with
         | [] => [replacement]
         | b1 :: r1 =>
             if continuation b1
                && negb ((b0 =? 240) && (b1 <? 144))
                && negb ((b0 =? 244) && (144 <=? b1))
             then
               match r1 with
               | [] => [replacement]
               | b2 :: r2 =>
                   if continuation b2
                   then
                     match r2 with
                     | [] => [replacement]
                     | b3 :: r3 =>
                         if continuation b3
                         then ((b0 - 240) * 262144 + (b1 - 128) * 4096
                               + (b2 - 128) * 64 + (b3 - 128))
                                :: utf8_decode r3
                         else replacement :: utf8_decode r2
                     end
                   else replacement :: utf8_decode r1
               end
             else replacement :: utf8_decode r0
         end)%N
  end.

(** [_ALWAYS_SAFE] *)
Definition always_safe (b : N) : bool :=
  ascii_alpha b || ascii_digit b
  || is_chr "_" b || is_chr "." b || is_chr "-" b || is_chr "~" b.

Definition hex_upper (n : N) : N :=
  (if n <? 10 then 48 + n else 55 + n)%N.

(** [_hexdig]: the value of a hexadecimal digit of either case. *)
Definition hex_value (c : N) : option N :=
  if in_range "0" "9" c then Some (c - 48)%N
  else if in_range "A" "F" c then Some (c - 55)%N
  else if in_range "a" "f" c then Some (c - 87)%N
  else None.

(** [_Quoter(safe).__missing__(b)]:
    [chr(b) if b in self.safe else '%{:02X}'.format(b)] *)
Definition quoter (safe : N -> bool) (b : N) : str :=
  if always_safe b || safe b then [b]
  else [N_of_ascii "%"; hex_upper (b / 16)%N; hex_upper (b mod 16)%N].

(** [quote(string, safe)] for a [str] *)
Definition quote (safe : N -> bool) (s : str) : str :=
  flat_map (quoter safe) (utf8_encode s).

(** [quote_plus(string)] with the default [safe=''] *)
Definition quote_plus (s : str) : str :=
  if contains " " s
  then replace_chr " " "+" (quote (is_chr " ") s)
  else quote (fun _ => false) s.

(** [unquote_to_bytes(string)] for an ASCII [str]: after a ['%'], two
    hexadecimal digits give one byte, and anything else leaves the ['%']
    in place. *)
Fixpoint unquote_to_bytes (s : str) : list N :=
  match s with
  | [] => []
  | c :: r =>
      if is_chr "%" c then
        match r with
        | h :: l :: r' =>
            match hex_value h, hex_value l with
            | Some x, Some y => (16 * x + y)%N :: unquote_to_bytes r'
            | _, _ => c :: unquote_to_bytes r
            end
        | _ => c :: unquote_to_bytes r
        end
      else c :: unquote_to_bytes r
  end.

(** The loop of [unquote] over [_asciire.split(string)]: each maximal run
    of ASCII characters is unquoted to bytes and decoded, the characters
    between the runs are kept. *)
Fixpoint unquote_runs (s : str) (run : str) : str :=
  match s with
  | [] => utf8_decode (unquote_to_bytes run)
  | c :: r =>
      if (c <? 128)%N then unquote_runs r (run ++ [c])
      else utf8_decode (unquote_to_bytes run) ++ c :: unquote_runs r []
  end.

(** [unquote(string)] with the defaults [encoding='utf-8'] and
    [errors='replace'] *)
Definition unquote (s : str) : str :=
  if negb (contains "%" s) then s else unquote_runs s [].

(** *** Query strings *)

(** A [dict] from [str] to lists of [str], in insertion order. *)
Abbreviation dict := (list (str * list str)).

Fixpoint dict_get (d : dict) (k : str) : option (list str) :=
  match d with
  | [] => None
  | (k', v) :: r => if bool_decide (k' = k) then Some v else dict_get r k
  end.

(** [d[k] = v]: an existing key keeps its place. *)
Fixpoint dict_set (d : dict) (k : str) (v : list str) : dict :=
  match d with
  | [] => [(k, v)]
  | (k', v') :: r =>
      if bool_decide (k' = k) then (k, v) :: r else (k', v') :: dict_set r k v
  end.

(** [parse_qsl(qs, keep_blank_values)], the other arguments at their
    defaults. *)
Definition parse_qsl (keep_blank_values : bool) (qs : str) : list (str * str) :=
  let query_args := if nonempty qs then split "&" qs else [] in
  flat_map
    (fun name_value =>
       if negb (nonempty name_value) then []
       else
         let has_eq := contains "=" name_value in
         if negb has_eq && negb keep_blank_values then []
         else
           let '(n, v) :=
             if has_eq then split1 "=" name_value else (name_value, []) in
           if nonempty v || keep_blank_values
           then [(unquote (replace_chr "+" " " n), unquote (replace_chr "+" " " v))]
           else [])
    query_args.

(** The loop of [parse_qs]:
    <<
    for name, value in pairs:
        if name in parsed_result:
            parsed_result[name].append(value)
        else:
            parsed_result[name] = [value]
    >> *)
Definition parse_qs_add (d : dict) (nv : str * str) : dict :=
  match dict_get d (fst nv) with
  | Some vs => dict_set d (fst nv) (vs ++ [snd nv])
  | None => d ++ [(fst nv, [snd nv])]
  end.

Definition parse_qs_with (keep_blank_values : bool) (qs : str) : dict :=
  fold_left parse_qs_add (parse_qsl keep_blank_values qs) [].

(** [parse_qs(qs)]: [keep_blank_values] defaults to [False]. *)
Definition parse_qs (qs : str) : dict := parse_qs_with false qs.

(** [urlencode(query, doseq=True)] for a [dict] of lists of [str] *)
Definition urlencode (d : dict) : str :=
  join "&"
    (flat_map
       (fun kv => map (fun elt => quote_plus (fst kv) ++ py "=" ++ quote_plus elt)
                      (snd kv))
       d).

(** *** Exceptions *)

Definition raises {A : Type} (o : outcome A) : bool :=
  match o with
  | Returned _ => false
  | Raised => true
  end.

(** [IPv4Address(s)] returns: four octets between dots, each of one to
    three ASCII digits, without a leading zero, at most 255. *)
Definition ipv4_octet (s : str) : bool :=
  nonempty s && forallb ascii_digit s && (length s <=? 3)%nat
  && negb (negb (bool_decide (s = py "0"))
           && match s with c :: _ => is_chr "0" c | [] => false end)
  && (spelled (map (fun c => (c - 48)%N) s) <=? 255)%Z.

Definition ipv4_address (s : str) : bool :=
  negb (contains "/" s) && nonempty s
  && (length (split "." s) =? 4)%nat && forallb ipv4_octet (split "." s).

(** [IPv6Address._parse_hextet(s)] returns *)
Definition hex_digit (c : N) : bool :=
  match hex_value c with
  | Some _ => true
  | None => false
  end.

Definition ipv6_hextet (s : str) : bool :=
  forallb hex_digit s && (length s <=? 4)%nat && nonempty s.

(** The indices from [i] on of the empty parts among [parts]. *)
Fixpoint empty_parts (i : nat) (parts : list str) : list nat :=
  match parts with
  | [] => []
  | p :: r => if nonempty p then empty_parts (S i) r else i :: empty_parts (S i) r
  end.

(** [IPv6Address._ip_int_from_string(ip_str)] returns.  An IPv4 suffix is
    replaced by its two hextets, which are well formed whatever their
    value. *)
Definition ipv6_parts (ip_str : str) : bool :=
  nonempty ip_str
  && let parts := split ":" ip_str in
     (3 <=? length parts)%nat
     && let suffix := List.last parts [] in
        (negb (contains "." suffix) || ipv4_address suffix)
        && let parts :=
             if contains "." suffix
             then removelast parts ++ [py "0"; py "0"] else parts in
           let n := length parts in
           (n <=? 9)%nat
           && match empty_parts 1 (removelast (tail parts)) with
              | _ :: _ :: _ => false
              | [skip_index] =>
                  let leading := negb (nonempty (List.hd [] parts)) in
                  let trailing := negb (nonempty (List.last parts [])) in
                  let parts_hi :=
                    if leading then (skip_index - 1)%nat else skip_index in
                  let parts_lo :=
                    if trailing then (n - skip_index - 1 - 1)%nat
                    else (n - skip_index - 1)%nat in
                  negb (leading && negb (parts_hi =? 0)%nat)
                  && negb (trailing && negb (parts_lo =? 0)%nat)
                  && (parts_hi + parts_lo <? 8)%nat
                  && forallb ipv6_hextet (take parts_hi parts)
                  && forallb ipv6_hextet (drop (n - parts_lo) parts)
              | [] =>
                  (n =? 8)%nat && nonempty (List.hd [] parts)
                  && nonempty (List.last parts []) && forallb ipv6_hextet parts
              end.

(** [IPv6Address(s)] returns: no ['/'], a scope identifier after ['%']
    that is not empty and has no ['%'], and a well-formed address before
    it. *)
Definition ipv6_address (s : str) : bool :=
  negb (contains "/" s)
  && (negb (contains "%" s)
      || let scope_id := tail (drop_until (is_chr "%") s) in
         nonempty scope_id && negb (contains "%" scope_id))
  && ipv6_parts (take_until (is_chr "%") s).

(** [_check_bracketed_host(hostname)]: an IPvFuture address, matched by
    [re.match(r"\Av[a-fA-F0-9]+\..+\Z", hostname)], or what
    [ipaddress.ip_address] reads as an IPv6 address. *)
Definition check_bracketed_host (hostname : str) : outcome unit :=
  if starts_with (py "v") hostname then
    let version := take_until (is_chr ".") (tail hostname) in
    let rest := tail (drop_until (is_chr ".") (tail hostname)) in
    if nonempty version && forallb hex_digit version
       && contains "." (tail hostname)
       && nonempty rest && forallb (fun c => negb (c =? 10)%N) rest
    then Returned tt else Raised
  else if ipv4_address hostname then Raised
  else if ipv6_address hostname then Returned tt
  else Raised.

(** [_check_bracketed_netloc(netloc)] *)
Definition check_bracketed_netloc (netloc : str) : outcome unit :=
  let hostname_and_port := rev (take_until (is_chr "@") (rev netloc)) in
  if contains "[" hostname_and_port then
    let before_bracket := take_until (is_chr "[") hostname_and_port in
    let bracketed := tail (drop_until (is_chr "[") hostname_and_port) in
    if nonempty before_bracket then Raised
    else
      let hostname := take_until (is_chr "]") bracketed in
      let port := tail (drop_until (is_chr "]") bracketed) in
      if nonempty port && negb (starts_with (py ":") port) then Raised
      else check_bracketed_host hostname
  else check_bracketed_host (take_until (is_chr ":") hostname_and_port).

(** A lone surrogate, which [str.encode('utf-8')] refuses. *)
Definition surrogate (c : N) : bool := ((55296 <=? c) && (c <? 57344))%N.

(** [quote(s)] and [quote_plus(s)] raise [UnicodeEncodeError]. *)
Definition quote_raises (s : str) : bool := existsb surrogate s.

(** [urlencode(d, doseq=True)] raises: every key and every element of
    every value is quoted. *)
Definition urlencode_raises (d : dict) : bool :=
  existsb (fun kv => quote_raises (fst kv) || existsb quote_raises (snd kv)) d.

Section UrlsplitRaises.
Context {U : UnicodeDB}.

(** [_checknetloc(netloc)] *)
Definition checknetloc (netloc : str) : outcome unit :=
  if negb (nonempty netloc) || forallb (fun c => c <? 128)%N netloc
  then Returned tt
  else
    let n :=
      List.filter
        (fun c => negb (is_chr "@" c || is_chr ":" c || is_chr "#" c || is_chr "?" c))
        netloc in
    let netloc2 := NFKC n in
    if bool_decide (n = netloc2) then Returned tt
    else if contains "/" netloc2 || contains "?" netloc2 || contains "#" netloc2
            || contains "@" netloc2 || contains ":" netloc2
    then Raised else Returned tt.

(** The checks of [urlsplit] on the netloc it has split off:
    <<
    if (('[' in netloc and ']' not in netloc) or
            (']' in netloc and '[' not in netloc)):
        raise ValueError("Invalid IPv6 URL")
    if '[' in netloc and ']' in netloc:
        _check_bracketed_netloc(netloc)
    ...
    _checknetloc(netloc)
    >>
    The first two stand under [if url[:2] == '//']; elsewhere the netloc
    is empty, and they pass. *)
Definition check_netloc (netloc : str) : outcome unit :=
  _ ← (if (contains "[" netloc && negb (contains "]" netloc))
          || (contains "]" netloc && negb (contains "[" netloc))
       then Raised
       else if contains "[" netloc && contains "]" netloc
       then check_bracketed_netloc netloc
       else Returned tt);
  checknetloc netloc.

(** [urlsplit(url)] and [urlparse(url)] raise [ValueError]. *)
Definition urlsplit_raises (url : str) : bool :=
  raises (check_netloc (split_netloc (urlsplit url))).

Definition urlparse_raises (url : str) : bool := urlsplit_raises url.

End UrlsplitRaises.

(** ** The helpers of the scraper *)

(** <<
    def set_page_param(url: str, page: int) -> str:
        parts = list(urlparse(url))
        qs = parse_qs(parts[4])
        qs["page"] = [str(page)]
        parts[4] = urlencode(qs, doseq=True)
        return urlunparse(parts)
    >> *)
Definition set_page_param (url : str) (page : Z) : str :=
  let parts := urlparse url in
  let qs := parse_qs (query parts) in
  let qs := dict_set qs (py "page") [str_of_int page] in
  urlunparse
    {| scheme := scheme parts; netloc := netloc parts; path := path parts;
       params := params parts; query := urlencode qs;
       fragment := fragment parts |}.

(** The call raises where [urlparse], [str] or [urlencode] does. *)
Definition set_page_param_raises {U : UnicodeDB} (url : str) (page : Z) : bool :=
  urlparse_raises url
  || str_of_int_raises page
  || urlencode_raises
       (dict_set (parse_qs (query (urlparse url))) (py "page") [str_of_int page]).

(** <<
    def extract_item_id(href: str) -> str | None:
        if not href:
            return None
        try:
            q = parse_qs(urlparse(href).query)
            return q.get("id", [None])[0]
        except Exception:
            return None
    >> *)
Definition extract_item_id {U : UnicodeDB} (href : option str) : option str :=
  if negb (truthy_str href) then None
  else if urlparse_raises (default [] href) then None
  else
    let q := parse_qs (query (urlparse (default [] href))) in
    match dict_get q (py "id") with
    | Some vs => head vs
    | None => None
    end.

(** <<
    def normalize_detail_url(u: str | None) -> str | None:
        if not u:
            return None
        s = urlsplit(u)
        # Sort query params for stability
        q = parse_qs(s.query)
        q_str = urlencode(q, doseq=True)
        return urlunsplit((s.scheme, s.netloc, s.path, q_str, ""))
    >> *)
Definition normalize_detail_url (u : option str) : option str :=
  if negb (truthy_str u) then None
  else
    let s := urlsplit (default [] u) in
    let q := parse_qs (split_query s) in
    let q_str := urlencode q in
    Some (urlunsplit (split_scheme s) (split_netloc s) (split_path s) q_str []).

(** The call raises where [urlsplit] or [urlencode] does. *)
Definition normalize_detail_url_raises {U : UnicodeDB} (u : option str) : bool :=
  truthy_str u
  && (urlsplit_raises (default [] u)
      || urlencode_raises (parse_qs (split_query (urlsplit (default [] u))))).

(** ** Extraction of one page: [scrape_page] *)

(** What the selectors of [scrape_page] find in one [div.list_item_block]:
    the stripped text of the title, price and buy-out nodes, and the [href]
    and [src] attributes of the link and of the image; [None] when the
    node, or its attribute, is missing. *)
Record block := {
  title_tag : option str;
  price_tag : option str;
  buyout_tag : option str;
  link_href : option str;
  img_src : option str
}.

(** The dictionary appended to [items]. *)
Record item := {
  item_id : option str;
  title : option str;
  price_jpy : option Z;
  buyout_jpy : option Z;
  detail_url : option str;
  image_url : option str;
  source_page : str
}.

Section Scrape.
Context {U : UnicodeDB}.

(** [urljoin(base, url)], which raises where [urlparse] raises on one of
    its arguments. *)
Variable urljoin : str -> str -> outcome str.

(** [session.get(page_url)], [raise_for_status], the HTML parser and
    [soup.select("div.list_item_block")]: the blocks of the page, unless
    the request or the parser raises. *)
Variable fetch : str -> outcome (list block).

(** The body of the loop over the blocks; [Some] is [items.append]. *)
Definition scrape_block (page_url : str) (b : block) : outcome (option item) :=
  let title := title_tag b in
  price_jpy ← clean_price (price_tag b);
  buyout_jpy ← clean_price (buyout_tag b);
  let rel_href := link_href b in
  detail_url ←
    (if truthy_str rel_href
     then u ← urljoin page_url (default [] rel_href); Returned (Some u)
     else Returned None);
  let img_src :=
    if truthy_str (img_src b) then Some (strip (default [] (img_src b)))
    else None in
  image_url ←
    (if truthy_str img_src
     then u ← urljoin page_url (default [] img_src); Returned (Some u)
     else Returned None);
  let item_id := extract_item_id rel_href in
  if truthy_str title || truthy_int price_jpy || truthy_int buyout_jpy
     || truthy_str detail_url
  then Returned (Some {| item_id := item_id; title := title;
                         price_jpy := price_jpy; buyout_jpy := buyout_jpy;
                         detail_url := detail_url; image_url := image_url;
                         source_page := page_url |})
  else Returned None.

Fixpoint scrape_blocks (page_url : str) (blocks : list block)
  : outcome (list item) :=
  match blocks with
  | [] => Returned []
  | b :: rest =>
      found ← scrape_block page_url b;
      items ← scrape_blocks page_url rest;
      Returned (match found with
                | Some i => i :: items
                | None => items
                end)
  end.

Definition scrape_page (page_url : str) : outcome (list item) :=
  blocks ← fetch page_url;
  scrape_blocks page_url blocks.

End Scrape.

(** ** The page loop: [main] *)

Definition IMG_PX : Z := 160.

Definition fieldnames : list str :=
  map py ["item_id"; "title"; "price_jpy"; "buyout_jpy"; "detail_url";
          "image_url"; "image_preview"; "source_page"; "title_en"]%string.

(** The letter of the spreadsheet column of a field. *)
Fixpoint index_of (x : str) (l : list str) : option nat :=
  match l with
  | [] => None
  | y :: r => if bool_decide (y = x) then Some O else S <$> index_of x r
  end.

Definition column_letter (field : str) : option N :=
  (fun i => N_of_ascii "A" + N.of_nat i)%N <$> index_of field fieldnames.

Definition dquote : str := [34%N].

(** A reference to the cell of column [column] in row [r]. *)
Definition cell (column : ascii) (r : Z) : str :=
  N_of_ascii column :: str_of_int r.

(** The two f-strings of the loop body, for row [r]. *)
Definition image_preview_formula (r : Z) : str :=
  py "=IF(LEN(" ++ cell "F" r ++ py "),IMAGE(" ++ cell "F" r ++ py ","
  ++ dquote ++ dquote ++ py ",3," ++ str_of_int IMG_PX ++ py ","
  ++ str_of_int IMG_PX ++ py ")," ++ dquote ++ dquote ++ py ")".

Definition title_en_formula (r : Z) : str :=
  py "=TRANSLATE(" ++ cell "B" r ++ py "," ++ dquote ++ py "ja" ++ dquote
  ++ py "," ++ dquote ++ py "en" ++ dquote ++ py ")".

(** A row handed to [writer.writerow]: the item with its two formulas. *)
Record csv_row := {
  row : item;
  image_preview : str;
  title_en : str
}.

(** A row of the optional worksheet: its 0-based index and its cells. *)
Record xlsx_row := {
  xlsx_index : Z;
  xlsx_item : item;
  xlsx_image_preview : str;
  xlsx_title_en : str
}.

(** The variables of [main] that the loop updates, with everything written
    so far: the data rows of the CSV file in order, the rows of the
    worksheet when there is one, and the pages requested. *)
Record state := {
  page : Z;
  seen_item_ids : gset str;
  seen_detail_urls : gset str;
  excel_row : Z;
  xlsx_row0 : Z;
  total_written : Z;
  csv : list csv_row;
  worksheet : option (list xlsx_row);
  fetched : list (Z * str)
}.

Inductive flow := Continue | Break.

(** Truthiness of a list. *)
Definition nonempty_list {A : Type} (l : list A) : bool :=
  match l with
  | [] => false
  | _ => true
  end.

Section Main.
Context {U : UnicodeDB}.

(** [scrape_page(session, page_url)] *)
Variable scrape : str -> outcome (list item).

Variable start_url : str.
Variable pages : option Z.
Variable until_empty : bool.
Variable out_xlsx : bool.

(** <<
    try:
        qs = parse_qs(urlparse(start_url).query)
        start_page = int(qs.get("page", ["1"])[0])
    except Exception:
        start_page = 1
    >> *)
Definition start_page : Z :=
  if urlparse_raises start_url then 1
  else
    let qs := parse_qs (query (urlparse start_url)) in
    match int (default [] (head (default [py "1"] (dict_get qs (py "page"))))) with
    | Returned n => n
    | Raised => 1
    end.

(** [iid = (row.get("item_id") or "").strip() or None] *)
Definition dedupe_id (r : item) : option str :=
  let s := strip (default [] (item_id r)) in
  if nonempty s then Some s else None.

(** [norm_url = normalize_detail_url(row.get("detail_url"))] *)
Definition dedupe_url (r : item) : option str :=
  normalize_detail_url (detail_url r).

(** <<
    duplicate = False
    if iid and iid in seen_item_ids:
        duplicate = True
    elif not iid and norm_url and norm_url in seen_detail_urls:
        duplicate = True
    >> *)
Definition duplicate (st : state) (r : item) : bool :=
  match dedupe_id r with
  | Some iid => bool_decide (iid ∈ seen_item_ids st)
  | None =>
      truthy_str (dedupe_url r)
      && bool_decide (default [] (dedupe_url r) ∈ seen_detail_urls st)
  end.

(** <<
    if iid:
        seen_item_ids.add(iid)
    elif norm_url:
        seen_detail_urls.add(norm_url)
    >> *)
Definition mark_seen (st : state) (r : item) : state :=
  match dedupe_id r with
  | Some iid =>
      {| page := page st; seen_item_ids := {[ iid ]} ∪ seen_item_ids st;
         seen_detail_urls := seen_detail_urls st; excel_row := excel_row st;
         xlsx_row0 := xlsx_row0 st; total_written := total_written st;
         csv := csv st; worksheet := worksheet st; fetched := fetched st |}
  | None =>
      if truthy_str (dedupe_url r) then
        {| page := page st; seen_item_ids := seen_item_ids st;
           seen_detail_urls :=
             {[ default [] (dedupe_url r) ]} ∪ seen_detail_urls st;
           excel_row := excel_row st; xlsx_row0 := xlsx_row0 st;
           total_written := total_written st; csv := csv st;
           worksheet := worksheet st; fetched := fetched st |}
      else st
  end.

(** The rest of the loop body: the formulas, [writer.writerow(row)], the
    cells of the worksheet and the counters. *)
Definition write_row (st : state) (r : item) : state :=
  {| page := page st; seen_item_ids := seen_item_ids st;
     seen_detail_urls := seen_detail_urls st;
     excel_row := excel_row st + 1;
     xlsx_row0 := xlsx_row0 st + 1;
     total_written := total_written st + 1;
     csv := csv st ++ [{| row := r;
                          image_preview := image_preview_formula (excel_row st);
                          title_en := title_en_formula (excel_row st) |}];
     worksheet :=
       (fun rows =>
          rows ++ [{| xlsx_index := xlsx_row0 st; xlsx_item := r;
                      xlsx_image_preview :=
                        image_preview_formula (xlsx_row0 st + 1);
                      xlsx_title_en := title_en_formula (xlsx_row0 st + 1) |}])
       <$> worksheet st;
     fetched := fetched st |}.

(** The body of [for row in items]. *)
Definition process_row (st : state) (r : item) : state :=
  if duplicate st r then st else write_row (mark_seen st r) r.

Definition log_fetch (st : state) (page_url : str) : state :=
  {| page := page st; seen_item_ids := seen_item_ids st;
     seen_detail_urls := seen_detail_urls st; excel_row := excel_row st;
     xlsx_row0 := xlsx_row0 st; total_written := total_written st;
     csv := csv st; worksheet := worksheet st;
     fetched := fetched st ++ [(page st, page_url)] |}.

Definition next_page (st : state) : state :=
  {| page := page st + 1; seen_item_ids := seen_item_ids st;
     seen_detail_urls := seen_detail_urls st; excel_row := excel_row st;
     xlsx_row0 := xlsx_row0 st; total_written := total_written st;
     csv := csv st; worksheet := worksheet st; fetched := fetched st |}.

(** [pages is not None and page >= start_page + pages - 1] *)
Definition budget_spent (st : state) : bool :=
  match pages with
  | Some n => bool_decide (page st >= start_page + n - 1)%Z
  | None => false
  end.

(** One turn of [while True].  The turn is the one of a run in which
    [set_page_param] and, in [process_row], [normalize_detail_url]
    return; [set_page_param_raises] and [normalize_detail_url_raises]
    tell when they do not, and the run then ends with their exception. *)
Definition iteration (st : state) : state * flow :=
  let page_url := set_page_param start_url (page st) in
  let st := log_fetch st page_url in
  match scrape page_url with
  | Raised => (st, Break)
  | Returned items =>
      if negb (nonempty_list items) && until_empty then (st, Break)
      else
        let st := fold_left process_row items st in
        if budget_spent st then (st, Break)
        else (next_page st, Continue)
  end.

(** The loop, for at most [fuel] turns: [None] when it is still running. *)
Fixpoint loop (fuel : nat) (st : state) : option state :=
  match fuel with
  | O => None
  | S fuel =>
      match iteration st with
      | (st, Break) => Some st
      | (st, Continue) => loop fuel st
      end
  end.

Definition initial : state :=
  {| page := start_page; seen_item_ids := ∅; seen_detail_urls := ∅;
     excel_row := 2; xlsx_row0 := 1; total_written := 0; csv := [];
     worksheet := if out_xlsx then Some [] else None; fetched := [] |}.

Definition main (fuel : nat) : option state := loop fuel initial.

End Main.

(** * Properties *)

(** ** Tactics for character classes *)

(** Replace the code of a literal character by its number. *)
Ltac char_codes :=
  repeat match goal with
         | |- context [N_of_ascii ?a] =>
             let v := eval vm_compute in (N_of_ascii a) in
             change (N_of_ascii a) with v
         | H : context [N_of_ascii ?a] |- _ =>
             let v := eval vm_compute in (N_of_ascii a) in
             change (N_of_ascii a) with v in H
         end.

(** Split on every comparison of code points in sight. *)
Ltac compare_codes :=
  repeat match goal with
         | |- context [(?a <=? ?b)%N] => destruct (N.leb_spec a b)
         | |- context [(?a <? ?b)%N] => destruct (N.ltb_spec a b)
         | |- context [(?a =? ?b)%N] => destruct (N.eqb_spec a b)
         | H : context [(?a <=? ?b)%N] |- _ => destruct (N.leb_spec a b)
         | H : context [(?a <? ?b)%N] |- _ => destruct (N.ltb_spec a b)
         | H : context [(?a =? ?b)%N] |- _ => destruct (N.eqb_spec a b)
         end.

Ltac char_class :=
  unfold is_chr, in_range in *; char_codes; compare_codes; simpl in *;
  try reflexivity; try discriminate; try lia.

(** ** A character database: the Latin-1 rows of Unicode *)

Definition latin1_isdigit (c : N) : bool :=
  (ascii_digit c || (c =? 178) || (c =? 179) || (c =? 185))%N.

Lemma ascii_decimal_Some c d :
  ascii_decimal c = Some d -> (48 <= c <= 57)%N /\ d = (c - 48)%N.
Proof.
  unfold ascii_decimal.
  destruct (N.leb_spec 48 c); destruct (N.leb_spec c 57); simpl;
    intros [= <-]; split; [lia | reflexivity].
Qed.

Lemma latin1_le_9 c d : ascii_decimal c = Some d -> (d <= 9)%N.
Proof. intros [? ->]%ascii_decimal_Some. lia. Qed.

Lemma latin1_decimal_isdigit c d :
  ascii_decimal c = Some d -> latin1_isdigit c = true.
Proof.
  intros [? _]%ascii_decimal_Some.
  unfold latin1_isdigit, ascii_digit. char_class.
Qed.

Lemma latin1_decimal_not_space c d :
  ascii_decimal c = Some d -> latin1_isspace c = false.
Proof.
  intros [? _]%ascii_decimal_Some. unfold latin1_isspace. char_class.
Qed.

Definition latin1_db : UnicodeDB :=
  {| Py_UNICODE_ISSPACE := latin1_isspace;
     Py_UNICODE_TODECIMAL := ascii_decimal;
     Py_UNICODE_ISDIGIT := latin1_isdigit;
     todecimal_le_9 := latin1_le_9;
     todecimal_isdigit := latin1_decimal_isdigit;
     todecimal_not_space := latin1_decimal_not_space;
     NFKC := flat_map latin1_nfkc;
     isspace_latin1 := fun c _ => eq_refl;
     todecimal_latin1 := fun c _ => eq_refl;
     NFKC_latin1 := fun s _ => eq_refl |}.

(** ** Price parsing *)

Section Price.
Context {U : UnicodeDB}.

Lemma spelled_from_nonneg ds : forall acc, (0 <= acc -> 0 <= spelled_from acc ds)%Z.
Proof.
  induction ds as [|d ds IH]; intros acc Hacc; simpl; [exact Hacc|].
  apply IH. lia.
Qed.

Lemma lstrip_by_id p s : Forall (fun c => p c = false) s -> lstrip_by p s = s.
Proof. destruct 1 as [|c s Hc _]; simpl; [reflexivity | now rewrite Hc]. Qed.

Lemma strip_by_id p s : Forall (fun c => p c = false) s -> strip_by p s = s.
Proof.
  intros Hs. unfold strip_by. rewrite (lstrip_by_id p s Hs).
  rewrite lstrip_by_id; [apply rev_involutive|].
  now apply Forall_rev.
Qed.

Lemma decimal_digit c d :
  Py_UNICODE_TODECIMAL c = Some d -> int_digit c = Some d.
Proof.
  intros Hd. unfold int_digit. destruct (N.ltb_spec c 127).
  - rewrite <- Hd. symmetry. apply todecimal_latin1. lia.
  - now rewrite (todecimal_not_space c d Hd).
Qed.

Lemma decimal_not_int_space c d :
  Py_UNICODE_TODECIMAL c = Some d -> int_space c = false.
Proof.
  intros Hd. unfold int_space. destruct (N.ltb_spec c 127).
  - rewrite todecimal_latin1 in Hd by lia.
    apply ascii_decimal_Some in Hd as [? _]. char_class.
  - exact (todecimal_not_space c d Hd).
Qed.

Lemma decimal_not_sign c d :
  Py_UNICODE_TODECIMAL c = Some d -> is_chr "-" c = false /\ is_chr "+" c = false.
Proof.
  intros Hd. unfold is_chr. char_codes.
  destruct (N.eqb_spec c 45) as [->|]; [|destruct (N.eqb_spec c 43) as [->|]];
    [| |split; reflexivity];
    rewrite todecimal_latin1 in Hd by lia; discriminate Hd.
Qed.

Lemma is_decimal_true c : is_decimal c = true -> exists d, Py_UNICODE_TODECIMAL c = Some d.
Proof. unfold is_decimal. destruct (Py_UNICODE_TODECIMAL c); [eauto | discriminate]. Qed.

Lemma decimals_filter t : decimals (List.filter is_decimal t) = decimals t.
Proof.
  unfold decimals. induction t as [|c t IH]; [reflexivity|].
  cbn [List.filter]. unfold is_decimal at 1.
  destruct (Py_UNICODE_TODECIMAL c) eqn:Hc; cbn; rewrite Hc; cbn;
    [f_equal|]; exact IH.
Qed.

Lemma filter_all_decimal t : Forall (fun c => is_decimal c = true) (List.filter is_decimal t).
Proof. apply List.Forall_forall. intros c [_ Hc]%filter_In. exact Hc. Qed.

Lemma int_digits_decimal s :
  Forall (fun c => is_decimal c = true) s ->
  forall after acc,
    (s <> [] \/ after = true) ->
    int_digits s after acc = Some (spelled_from acc (decimals s)).
Proof.
  induction 1 as [|c s Hc Hs IH]; intros after acc Hne; simpl.
  - destruct Hne as [Hne | ->]; [contradiction | reflexivity].
  - apply is_decimal_true in Hc as [d Hd].
    rewrite (decimal_digit c d Hd). unfold decimals. simpl. rewrite Hd. simpl.
    apply IH. now right.
Qed.

Lemma isdigit_decimal s :
  Forall (fun c => is_decimal c = true) s -> isdigit s = nonempty s.
Proof.
  intros Hs. destruct s as [|c s]; [reflexivity|].
  unfold isdigit, nonempty. apply forallb_forall. intros x Hx.
  rewrite List.Forall_forall in Hs. apply Hs in Hx.
  apply is_decimal_true in Hx as [d Hd]. exact (todecimal_isdigit x d Hd).
Qed.

Lemma int_digit_count_decimal s :
  Forall (fun c => is_decimal c = true) s -> int_digit_count s = length s.
Proof.
  unfold int_digit_count. induction 1 as [|c s Hc _ IH]; [reflexivity|].
  apply is_decimal_true in Hc as [d Hd]. cbn [List.filter].
  rewrite (decimal_digit c d Hd). cbn [length]. now rewrite IH.
Qed.

Lemma decimals_length s :
  Forall (fun c => is_decimal c = true) s -> length (decimals s) = length s.
Proof.
  unfold decimals. induction 1 as [|c s Hc _ IH]; [reflexivity|].
  apply is_decimal_true in Hc as [d Hd]. cbn. rewrite Hd. cbn. now rewrite IH.
Qed.

Lemma int_decimal s :
  Forall (fun c => is_decimal c = true) s -> s <> [] ->
  int s = if exceeds_max_str_digits (length s) then Raised
          else Returned (spelled (decimals s)).
Proof.
  intros Hs Hne. unfold int.
  rewrite <- (int_digit_count_decimal s Hs).
  rewrite strip_by_id.
  2:{ eapply Forall_impl; [exact Hs|]. simpl. intros c Hc.
      apply is_decimal_true in Hc as [d Hd]. exact (decimal_not_int_space c d Hd). }
  destruct s as [|c s]; [contradiction|].
  pose proof (Forall_inv Hs) as Hc. apply is_decimal_true in Hc as [d Hd].
  destruct (decimal_not_sign c d Hd) as [-> ->].
  rewrite (int_digits_decimal (c :: s) Hs) by now left.
  reflexivity.
Qed.

Lemma decimals_nil_filter t : decimals t = [] -> List.filter is_decimal t = [].
Proof.
  unfold decimals. induction t as [|c t IH]; simpl; [reflexivity|].
  unfold is_decimal at 1. destruct (Py_UNICODE_TODECIMAL c); simpl; [discriminate | exact IH].
Qed.

(** A price text with more decimal characters than [int] reads. *)
Definition long_price (text : option str) : bool :=
  exceeds_max_str_digits (length (decimals (default [] text))).

Lemma clean_price_value (text : option str) :
  clean_price text =
  if long_price text then Raised else Returned (price_of text).
Proof.
  unfold clean_price, long_price, price_of.
  destruct text as [[|c t]|]; try reflexivity.
  change (truthy_str (Some (c :: t))) with true.
  change (default [] (Some (c :: t))) with (c :: t).
  generalize (c :: t) as s. intros s. cbn [negb].
  rewrite (isdigit_decimal _ (filter_all_decimal s)).
  rewrite <- (decimals_filter s), (decimals_length _ (filter_all_decimal s)).
  destruct (List.filter is_decimal s) as [|x xs] eqn:Hf; [reflexivity|].
  cbn [nonempty]. rewrite <- Hf. rewrite int_decimal.
  - destruct (exceeds_max_str_digits _); [reflexivity|].
    cbn [mbind outcome_bind].
    destruct (decimals (List.filter is_decimal s)) as [|d ds] eqn:Hds;
      [|reflexivity].
    pose proof (decimals_length _ (filter_all_decimal s)) as Hlen.
    rewrite Hds, Hf in Hlen. discriminate Hlen.
  - apply filter_all_decimal.
  - rewrite Hf. discriminate.
Qed.

Lemma long_price_absent (text : option str) :
  decimals (default [] text) = [] -> long_price text = false.
Proof. unfold long_price. now intros ->. Qed.

Lemma decimals_latin1 t :
  Forall (fun c => (c < 256)%N) t -> decimals t = omap ascii_decimal t.
Proof.
  unfold decimals. induction 1 as [|c t Hc _ IH]; [reflexivity|].
  cbn. now rewrite (todecimal_latin1 c Hc), IH.
Qed.

Lemma clean_price_latin1 t :
  Forall (fun c => (c < 256)%N) t ->
  clean_price (Some t) =
  if exceeds_max_str_digits (length (omap ascii_decimal t)) then Raised
  else Returned (match omap ascii_decimal t with
                 | [] => None
                 | ds => Some (spelled ds)
                 end).
Proof.
  intros Ht. rewrite clean_price_value. unfold long_price, price_of.
  cbn [default]. unfold id. now rewrite decimals_latin1.
Qed.

(** C5.  Price parsing, as the code has it: on a text with at most 4300
    decimal characters [clean_price] returns the number spelled by them,
    all other characters being dropped, which is never negative, and
    [None] exactly when the text is missing, empty or without any decimal
    character; on a text with more than 4300 decimal characters it raises
    the [ValueError] of [int].  The text made of the yen sign (U+00A5) and
    [1,200] gives 1200; [no digits] and the empty text give [None]; 4300
    digits are read and 4301 digits raise. *)
Theorem clean_price_parses_digits (text : option str) :
  clean_price text =
    (if (int_max_str_digits <? N.of_nat (length (decimals (default [] text))))%N
     then Raised
     else Returned (match decimals (default [] text) with
                    | [] => None
                    | ds => Some (spelled ds)
                    end))
  /\ (clean_price text = Raised <->
      (int_max_str_digits < N.of_nat (length (decimals (default [] text))))%N)
  /\ (forall n, clean_price text = Returned (Some n) -> (0 <= n)%Z)
  /\ (clean_price text = Returned None <-> decimals (default [] text) = [])
  /\ clean_price (Some (165%N :: py "1,200")) = Returned (Some 1200%Z)
  /\ clean_price (Some (py "no digits")) = Returned None
  /\ clean_price (Some []) = Returned None
  /\ (exists n, clean_price (Some (repeat 49%N 4300)) = Returned (Some n))
  /\ clean_price (Some (repeat 49%N 4301)) = Raised.
Proof.
  assert (Hvalue := clean_price_value text).
  unfold long_price, price_of, exceeds_max_str_digits in Hvalue.
  split; [exact Hvalue|].
  split.
  { rewrite Hvalue.
    destruct (N.ltb_spec int_max_str_digits
                (N.of_nat (length (decimals (default [] text)))));
      split; intros H'; try reflexivity; try assumption; try discriminate H'.
    lia. }
  split.
  { intros n. rewrite Hvalue.
    destruct (_ <? _)%N; [discriminate|].
    destruct (decimals (default [] text)); intros [= <-].
    apply spelled_from_nonneg. lia. }
  split.
  { rewrite Hvalue.
    destruct (decimals (default [] text)) eqn:Hds.
    - split; reflexivity.
    - destruct (_ <? _)%N; split; intros H'; discriminate H'. }
  assert (Hones : forall k, Forall (fun c => (c < 256)%N) (repeat 49%N k)).
  { intros k. apply List.Forall_forall. intros c Hc.
    apply repeat_spec in Hc. subst c. reflexivity. }
  split; [|split; [|split; [|split]]].
  - rewrite clean_price_latin1; [reflexivity|].
    repeat constructor.
  - rewrite clean_price_latin1; [reflexivity|].
    repeat constructor.
  - reflexivity.
  - rewrite clean_price_latin1 by apply Hones.
    eexists. vm_compute. reflexivity.
  - rewrite clean_price_latin1 by apply Hones.
    vm_compute. reflexivity.
Qed.

End Price.

(** The property as the specification words it: the price cleaner never
    raises. *)
Definition never_raises (U : UnicodeDB) (text : option str) : Prop :=
  exists v, clean_price text = Returned v.

(** C5, counterexample: a text of 4301 digits makes [int], and so
    [clean_price], raise [ValueError]. *)
Lemma long_price_raises : ~ (forall U text, never_raises U text).
Proof.
  intros H. destruct (H latin1_db (Some (repeat 49%N 4301))) as [v Hv].
  vm_compute in Hv. discriminate Hv.
Qed.

(** ** Noise rejection *)

Section Blocks.
Context {U : UnicodeDB}.
Variable urljoin : str -> str -> outcome str.

(** [urljoin(page_url, href) if href else None] *)
Definition resolve (page_url : str) (href : option str) : outcome (option str) :=
  if truthy_str href
  then u ← urljoin page_url (default [] href); Returned (Some u)
  else Returned None.

(** The detail URL and the image URL that [scrape_block] resolves for a
    block. *)
Definition resolved_detail_url (page_url : str) (b : block)
  : outcome (option str) :=
  resolve page_url (link_href b).

Definition resolved_image_url (page_url : str) (b : block)
  : outcome (option str) :=
  resolve page_url
    (if truthy_str (img_src b) then Some (strip (default [] (img_src b)))
     else None).

(** The test that guards [items.append]. *)
Definition usable (page_url : str) (b : block) : bool :=
  truthy_str (title_tag b) || truthy_int (price_of (price_tag b))
  || truthy_int (price_of (buyout_tag b))
  || match resolved_detail_url page_url b with
     | Returned detail_url => truthy_str detail_url
     | Raised => false
     end.

(** The extraction of a block raises: in [clean_price], on a price text
    with too many digits, or in [urljoin], on the link or on the image
    address. *)
Definition block_raises (page_url : str) (b : block) : bool :=
  long_price (price_tag b) || long_price (buyout_tag b)
  || raises (resolved_detail_url page_url b)
  || raises (resolved_image_url page_url b).

Lemma clean_price_raises text : clean_price text = Raised <-> long_price text = true.
Proof.
  rewrite clean_price_value. destruct (long_price text); split; congruence.
Qed.

Lemma scrape_block_raises page_url b :
  block_raises page_url b = true -> scrape_block urljoin page_url b = Raised.
Proof.
  unfold block_raises, resolved_detail_url, resolved_image_url, resolve, scrape_block.
  rewrite !clean_price_value.
  destruct (long_price (price_tag b)); [reflexivity|].
  destruct (long_price (buyout_tag b)); [reflexivity|].
  cbn [mbind outcome_bind orb].
  destruct (truthy_str (link_href b));
    [destruct (urljoin page_url (default [] (link_href b)))|];
    cbn [mbind outcome_bind orb raises]; try reflexivity;
    (destruct (truthy_str (if truthy_str (img_src b) then _ else _));
     [destruct (urljoin page_url _)|]; cbn [mbind outcome_bind raises];
     intros H; try reflexivity; discriminate H).
Qed.

Lemma scrape_block_usable page_url b :
  block_raises page_url b = false ->
  exists found detail image,
    scrape_block urljoin page_url b = Returned found
    /\ resolved_detail_url page_url b = Returned detail
    /\ resolved_image_url page_url b = Returned image
    /\ (is_Some found <-> usable page_url b = true)
    /\ (forall i, found = Some i ->
          title i = title_tag b /\ price_jpy i = price_of (price_tag b)
          /\ buyout_jpy i = price_of (buyout_tag b)
          /\ detail_url i = detail
          /\ image_url i = image
          /\ item_id i = extract_item_id (link_href b)
          /\ source_page i = page_url).
Proof.
  unfold block_raises, usable, scrape_block.
  rewrite !clean_price_value.
  destruct (long_price (price_tag b)); [discriminate|].
  destruct (long_price (buyout_tag b)); [discriminate|].
  cbn [mbind outcome_bind orb].
  change (if truthy_str (link_href b)
          then u ← urljoin page_url (default [] (link_href b)); Returned (Some u)
          else Returned None)
    with (resolved_detail_url page_url b).
  destruct (resolved_detail_url page_url b) as [detail|];
    cbn [mbind outcome_bind raises orb]; [|discriminate].
  match goal with
  | |- context [mbind _ ?m] =>
      change m with (resolved_image_url page_url b)
  end.
  destruct (resolved_image_url page_url b) as [image|];
    cbn [mbind outcome_bind raises]; [|discriminate].
  intros _.
  match goal with
  | |- context [if ?c then Returned (Some ?i) else Returned None] =>
      destruct c eqn:Hc; [exists (Some i) | exists None]
  end; exists detail, image.
  - repeat (split; [reflexivity|]). split.
    + split; [reflexivity | intros _; eexists; reflexivity].
    + intros i [= <-]. simpl. repeat split.
  - repeat (split; [reflexivity|]). split.
    + split; [intros [? [=]] | discriminate].
    + intros i [=].
Qed.

Lemma block_raises_cases page_url b :
  block_raises page_url b = true <->
  clean_price (price_tag b) = Raised \/ clean_price (buyout_tag b) = Raised
  \/ resolved_detail_url page_url b = Raised
  \/ resolved_image_url page_url b = Raised.
Proof.
  unfold block_raises. rewrite !orb_true_iff, !clean_price_raises.
  assert (Hr : forall o : outcome (option str), raises o = true <-> o = Raised)
    by (intros [?|]; split; (reflexivity || discriminate)).
  rewrite !Hr. tauto.
Qed.

Lemma scrape_blocks_app page_url pre post :
  scrape_blocks urljoin page_url (pre ++ post) =
  (a ← scrape_blocks urljoin page_url pre;
   b ← scrape_blocks urljoin page_url post;
   Returned (a ++ b)).
Proof.
  induction pre as [|b pre IH]; simpl.
  - destruct (scrape_blocks urljoin page_url post); reflexivity.
  - destruct (scrape_block urljoin page_url b) as [found|];
      cbn [mbind outcome_bind]; [|reflexivity].
    rewrite IH.
    destruct (scrape_blocks urljoin page_url pre) as [a|]; cbn; [|reflexivity].
    destruct (scrape_blocks urljoin page_url post) as [c|]; cbn; [|reflexivity].
    destruct found; reflexivity.
Qed.

(** C4.  Noise rejection, as the code has it.  Extracting a block raises
    exactly when [clean_price] raises on one of the two price texts or
    [urljoin] raises on the link or on the image address.  When it
    returns, the block yields a candidate exactly when its title is a
    non-empty string, or its current price or its buy-out price is a
    non-zero integer, or its detail URL is a non-empty string, and the
    candidate then carries the fields resolved for the block.  A block
    with no title, no digit in either price text and no link yields
    nothing and contributes no item to the page, unless [urljoin] raises
    on its image address, in which case the extraction raises. *)
Theorem scrape_block_keeps_usable (page_url : str) (b : block) :
  (scrape_block urljoin page_url b = Raised <->
   clean_price (price_tag b) = Raised \/ clean_price (buyout_tag b) = Raised
   \/ resolved_detail_url page_url b = Raised
   \/ resolved_image_url page_url b = Raised)
  /\ (forall found,
        scrape_block urljoin page_url b = Returned found ->
        exists detail,
          resolved_detail_url page_url b = Returned detail
          /\ (is_Some found <->
              truthy_str (title_tag b) = true
              \/ truthy_int (price_of (price_tag b)) = true
              \/ truthy_int (price_of (buyout_tag b)) = true
              \/ truthy_str detail = true)
          /\ (forall i, found = Some i ->
                title i = title_tag b /\ price_jpy i = price_of (price_tag b)
                /\ buyout_jpy i = price_of (buyout_tag b)
                /\ detail_url i = detail))
  /\ (title_tag b = None -> price_of (price_tag b) = None ->
      price_of (buyout_tag b) = None -> truthy_str (link_href b) = false ->
      (scrape_block urljoin page_url b = Raised <->
       resolved_image_url page_url b = Raised)
      /\ (resolved_image_url page_url b <> Raised ->
          scrape_block urljoin page_url b = Returned None
          /\ forall pre post,
               scrape_blocks urljoin page_url (pre ++ b :: post) =
               scrape_blocks urljoin page_url (pre ++ post))).
Proof.
  assert (Hcases := block_raises_cases page_url b).
  assert (Hraise := scrape_block_raises page_url b).
  assert (Hrun := scrape_block_usable page_url b).
  destruct (block_raises page_url b) eqn:Hb.
  - specialize (Hraise eq_refl). split; [|split].
    + split; [intros _; now apply Hcases | intros _; exact Hraise].
    + intros found Hfound. congruence.
    + intros Ht Hp Hbo Hl.
      assert (Himg : resolved_image_url page_url b = Raised).
      { destruct (proj1 Hcases eq_refl) as [H|[H|[H|H]]]; [| | |exact H].
        - apply clean_price_raises in H. unfold long_price, price_of in *.
          destruct (decimals (default [] (price_tag b))); [discriminate H | discriminate Hp].
        - apply clean_price_raises in H. unfold long_price, price_of in *.
          destruct (decimals (default [] (buyout_tag b))); [discriminate H | discriminate Hbo].
        - unfold resolved_detail_url, resolve in H. rewrite Hl in H. discriminate H. }
      split; [split; auto|]. intros Hno. contradiction.
  - destruct (Hrun eq_refl) as (found & detail & image & Hfound & Hd & Hi & Hiff & Hfields).
    clear Hrun Hraise.
    assert (Hnot : ~ (clean_price (price_tag b) = Raised
                      \/ clean_price (buyout_tag b) = Raised
                      \/ resolved_detail_url page_url b = Raised
                      \/ resolved_image_url page_url b = Raised)).
    { intros H. apply Hcases in H. discriminate H. }
    split; [|split].
    + split; [intros H; congruence | intros H; contradiction].
    + intros found' Hfound'. rewrite Hfound in Hfound'. injection Hfound' as <-.
      exists detail. split; [exact Hd|]. split.
      * rewrite Hiff. unfold usable. rewrite Hd, !orb_true_iff. tauto.
      * intros i Hi'. destruct (Hfields i Hi') as (? & ? & ? & ? & _). auto.
    + intros Ht Hp Hbo Hl.
      split; [split; intros H; [congruence | tauto]|].
      intros _.
      assert (Hnone : found = None).
      { destruct found as [i|]; [|reflexivity].
        destruct Hiff as [Hiff _].
        assert (Hu : usable page_url b = true) by (apply Hiff; eexists; reflexivity).
        unfold usable, resolved_detail_url, resolve in Hu.
        rewrite Ht, Hp, Hbo, Hl in Hu. discriminate Hu. }
      subst found. split; [exact Hfound|].
      intros pre post. rewrite !scrape_blocks_app. simpl. rewrite Hfound.
      cbn [mbind outcome_bind].
      destruct (scrape_blocks urljoin page_url pre) as [a|]; cbn; [|reflexivity].
      destruct (scrape_blocks urljoin page_url post); reflexivity.
Qed.

End Blocks.

(** The property as the specification words it: a candidate is emitted exactly
    when one of the four fields was resolved, whatever its value. *)
Definition emitted_iff_resolved (U : UnicodeDB)
    (urljoin : str -> str -> outcome str) (page_url : str) (b : block) : Prop :=
  (exists i, scrape_block urljoin page_url b = Returned (Some i)) <->
  (title_tag b <> None
   \/ (exists n, clean_price (price_tag b) = Returned (Some n))
   \/ (exists n, clean_price (buyout_tag b) = Returned (Some n))
   \/ truthy_str (link_href b) = true).

(** A block whose only content is the price text [0]. *)
Definition zero_price_block : block :=
  {| title_tag := None; price_tag := Some (py "0"); buyout_tag := None;
     link_href := None; img_src := None |}.

(** C4, counterexample: the current price of [zero_price_block] is
    resolved, to 0, and the block is dropped all the same. *)
Lemma zero_price_block_dropped :
  ~ (forall U urljoin page_url b, emitted_iff_resolved U urljoin page_url b).
Proof.
  intros H.
  destruct (H latin1_db (fun _ u => Returned u) [] zero_price_block)
    as [_ Hemit].
  destruct Hemit as [i Hi].
  - right; left. exists 0%Z. reflexivity.
  - discriminate Hi.
Qed.

(** ** The ledger: de-duplication *)

Section Ledger.
Context {U : UnicodeDB}.

(** The identifiers of the rows written so far, in order. *)
Definition written_ids (st : state) : list str :=
  omap (fun w => dedupe_id (row w)) (csv st).

(** The rows written so far agree with the set of seen identifiers, and
    no identifier was written twice. *)
Record ledger_ok (st : state) : Prop := {
  seen_iff_written : forall i, i ∈ seen_item_ids st <-> i ∈ written_ids st;
  written_once : NoDup (written_ids st)
}.

Lemma process_row_duplicate st r :
  duplicate st r = true -> process_row st r = st.
Proof. unfold process_row. now intros ->. Qed.

Lemma process_row_novel st r :
  duplicate st r = false -> process_row st r = write_row (mark_seen st r) r.
Proof. unfold process_row. now intros ->. Qed.

Lemma duplicate_id st r i :
  dedupe_id r = Some i -> duplicate st r = bool_decide (i ∈ seen_item_ids st).
Proof. unfold duplicate. now intros ->. Qed.

Lemma mark_seen_id st r i :
  dedupe_id r = Some i ->
  seen_item_ids (mark_seen st r) = {[ i ]} ∪ seen_item_ids st
  /\ seen_detail_urls (mark_seen st r) = seen_detail_urls st.
Proof. unfold mark_seen. now intros ->. Qed.

Lemma mark_seen_no_id st r :
  dedupe_id r = None -> seen_item_ids (mark_seen st r) = seen_item_ids st.
Proof.
  unfold mark_seen. intros ->. now destruct (truthy_str (dedupe_url r)).
Qed.

Lemma mark_seen_rows st r :
  csv (mark_seen st r) = csv st /\ excel_row (mark_seen st r) = excel_row st
  /\ xlsx_row0 (mark_seen st r) = xlsx_row0 st
  /\ worksheet (mark_seen st r) = worksheet st
  /\ page (mark_seen st r) = page st /\ fetched (mark_seen st r) = fetched st.
Proof.
  unfold mark_seen. destruct (dedupe_id r); [easy|].
  now destruct (truthy_str (dedupe_url r)).
Qed.

Lemma seen_ids_grow st r : seen_item_ids st ⊆ seen_item_ids (process_row st r).
Proof.
  unfold process_row. destruct (duplicate st r); [done|]. simpl.
  destruct (dedupe_id r) as [i|] eqn:Hi.
  - destruct (mark_seen_id st r i Hi) as [-> _]. set_solver.
  - now rewrite mark_seen_no_id.
Qed.

Lemma seen_ids_grow_rows rows :
  forall st, seen_item_ids st ⊆ seen_item_ids (fold_left process_row rows st).
Proof.
  induction rows as [|r rows IH]; intros st; simpl; [done|].
  etrans; [apply (seen_ids_grow st r) | apply IH].
Qed.

Lemma written_ids_write st r :
  written_ids (write_row (mark_seen st r) r) =
  written_ids st ++ match dedupe_id r with Some i => [i] | None => [] end.
Proof.
  unfold written_ids. simpl.
  destruct (mark_seen_rows st r) as [-> _].
  rewrite omap_app. simpl. now destruct (dedupe_id r).
Qed.

Lemma ledger_ok_process_row st r : ledger_ok st -> ledger_ok (process_row st r).
Proof.
  intros [Hiff Honce]. unfold process_row.
  destruct (duplicate st r) eqn:Hdup; [now split|].
  split.
  - intros i. rewrite written_ids_write. simpl.
    destruct (dedupe_id r) as [j|] eqn:Hj.
    + destruct (mark_seen_id st r j Hj) as [-> _].
      rewrite elem_of_union, elem_of_singleton, elem_of_app, list_elem_of_singleton.
      rewrite Hiff. tauto.
    + rewrite (mark_seen_no_id st r Hj), app_nil_r. apply Hiff.
  - rewrite written_ids_write.
    destruct (dedupe_id r) as [j|] eqn:Hj; [|now rewrite app_nil_r].
    rewrite (duplicate_id st r j Hj) in Hdup.
    apply bool_decide_eq_false in Hdup.
    apply NoDup_app. split; [exact Honce|]. split.
    + intros x Hx ->%list_elem_of_singleton. apply Hdup. now apply Hiff.
    + apply NoDup_singleton.
Qed.

Lemma ledger_ok_rows rows :
  forall st, ledger_ok st -> ledger_ok (fold_left process_row rows st).
Proof.
  induction rows as [|r rows IH]; intros st Hst; simpl; [exact Hst|].
  apply IH, ledger_ok_process_row, Hst.
Qed.

End Ledger.

(** ** The URL fallback *)

Section Fallback.
Context {U : UnicodeDB}.

Lemma seen_urls_process_row st x u :
  u ∉ seen_detail_urls st ->
  (dedupe_id x = None -> dedupe_url x <> Some u) ->
  u ∉ seen_detail_urls (process_row st x).
Proof.
  intros Hnew Hother. unfold process_row.
  destruct (duplicate st x); [exact Hnew|]. simpl.
  unfold mark_seen. destruct (dedupe_id x) as [j|]; [exact Hnew|].
  destruct (dedupe_url x) as [[|c v]|]; simpl; try exact Hnew.
  rewrite elem_of_union, elem_of_singleton.
  intros [-> | Hin]; [now apply Hother | now apply Hnew].
Qed.

Lemma seen_urls_process_rows u rows :
  forall st,
    u ∉ seen_detail_urls st ->
    Forall (fun x => dedupe_id x = None -> dedupe_url x <> Some u) rows ->
    u ∉ seen_detail_urls (fold_left process_row rows st).
Proof.
  induction rows as [|x rows IH]; intros st Hnew Hrows; simpl; [exact Hnew|].
  apply IH; [|exact (Forall_inv_tail Hrows)].
  apply seen_urls_process_row; [exact Hnew | exact (Forall_inv Hrows)].
Qed.

(** C2.  The URL-fallback gap: admitting a candidate that has a trimmed
    identifier [i] and a normalized detail URL [u] adds [i] to the
    identifier set and leaves the URL set as it was; so when [u] is not in
    the URL set and no candidate without identifier registers [u] in
    between, a later candidate without identifier whose normalized detail
    URL is [u] is not a duplicate, and is written. *)
Theorem url_fallback_gap (r : item) (i u : str)
    (Hid : dedupe_id r = Some i) (Hurl : dedupe_url r = Some u)
    (st : state) (Hadmitted : duplicate st r = false) :
  seen_item_ids (process_row st r) = {[ i ]} ∪ seen_item_ids st
  /\ seen_detail_urls (process_row st r) = seen_detail_urls st
  /\ forall rows r',
       u ∉ seen_detail_urls st ->
       Forall (fun x => dedupe_id x = None -> dedupe_url x <> Some u) rows ->
       dedupe_id r' = None -> dedupe_url r' = Some u ->
       duplicate (fold_left process_row rows (process_row st r)) r' = false
       /\ exists w,
            csv (process_row (fold_left process_row rows (process_row st r)) r')
            = csv (fold_left process_row rows (process_row st r)) ++ [w]
            /\ row w = r'.
Proof.
  rewrite (process_row_novel st r Hadmitted). simpl.
  destruct (mark_seen_id st r i Hid) as [Hids Hurls]. rewrite Hids, Hurls.
  split; [reflexivity|]. split; [reflexivity|].
  intros rows r' Hnew Hrows Hid' Hurl'.
  set (st' := fold_left process_row rows (write_row (mark_seen st r) r)).
  assert (Hstill : u ∉ seen_detail_urls st').
  { apply seen_urls_process_rows; [|exact Hrows]. simpl. now rewrite Hurls. }
  assert (Hdup : duplicate st' r' = false).
  { unfold duplicate. rewrite Hid', Hurl'. simpl.
    rewrite bool_decide_eq_false_2 by exact Hstill. apply andb_false_r. }
  split; [exact Hdup|].
  rewrite (process_row_novel st' r' Hdup). simpl.
  destruct (mark_seen_rows st' r') as (-> & _).
  eexists. split; reflexivity.
Qed.

End Fallback.

(** ** The loop *)

Section Run.
Context {U : UnicodeDB}.
Variable scrape : str -> outcome (list item).
Variable start_url : str.
Variable pages : option Z.
Variable until_empty : bool.
Variable out_xlsx : bool.

#[local] Abbreviation turn := (iteration scrape start_url pages until_empty).
#[local] Abbreviation walk := (loop scrape start_url pages until_empty).
#[local] Abbreviation run := (main scrape start_url pages until_empty out_xlsx).
#[local] Abbreviation spent := (budget_spent start_url pages).
#[local] Abbreviation page_url st := (set_page_param start_url (page st)).

(** The four ways through one turn of the loop. *)
Lemma iteration_raised st :
  scrape (page_url st) = Raised ->
  turn st = (log_fetch st (page_url st), Break).
Proof. unfold iteration. now intros ->. Qed.



Lemma iteration_cases st :
  turn st = (log_fetch st (page_url st), Break)
  \/ exists items,
       scrape (page_url st) = Returned items
       /\ (until_empty = false \/ items <> [])
       /\ turn st =
          let st' := fold_left process_row items (log_fetch st (page_url st)) in
          if spent st' then (st', Break) else (next_page st', Continue).
Proof.
  destruct (scrape (page_url st)) as [items|] eqn:Hs.
  - destruct items as [|i items].
    + destruct until_empty eqn:Hu.
      * left. unfold iteration. now rewrite Hs.
      * right. exists []. split; [reflexivity|]. split; [now left|].
        unfold iteration. now rewrite Hs.
    + right. exists (i :: items). split; [reflexivity|]. split; [now right|].
      unfold iteration. now rewrite Hs.
  - left. now apply iteration_raised.
Qed.



(** A property kept by the rows of a page and blind to the page counter
    and to the log of requests is kept by the loop. *)
Lemma loop_invariant (P : state -> Prop) :
  (forall st r, P st -> P (process_row st r)) ->
  (forall st u, P st -> P (log_fetch st u)) ->
  (forall st, P st -> P (next_page st)) ->
  forall fuel st final, P st -> walk fuel st = Some final -> P final.
Proof.
  intros Hrow Hlog Hnext.
  assert (Hrows : forall rows st, P st -> P (fold_left process_row rows st)).
  { induction rows as [|r rows IH]; intros st Hst; simpl; [exact Hst|].
    apply IH, Hrow, Hst. }
  induction fuel as [|fuel IH]; intros st final Hst; simpl; [discriminate|].
  destruct (iteration_cases st) as [-> | (items & _ & _ & ->)].
  - intros [= <-]. apply Hlog, Hst.
  - cbv zeta.
    destruct (spent _).
    + intros [= <-]. apply Hrows, Hlog, Hst.
    + apply IH, Hnext, Hrows, Hlog, Hst.
Qed.


Lemma ledger_ok_initial : ledger_ok (initial start_url out_xlsx).
Proof.
  split; simpl.
  - intros i. unfold written_ids. simpl. set_solver.
  - constructor.
Qed.

Lemma ledger_ok_main fuel final : run fuel = Some final -> ledger_ok final.
Proof.
  apply loop_invariant; [| | |apply ledger_ok_initial].
  - intros st r. apply ledger_ok_process_row.
  - intros st u [Hiff Honce]. now split.
  - intros st [Hiff Honce]. now split.
Qed.

(** C1.  Dedup idempotence: for a candidate whose trimmed identifier
    [i] is present, presenting it twice is the same as presenting it
    once; when [i] has not been seen the candidate is admitted, [i] joins
    the identifier set and exactly this row is written; from then on,
    whatever rows are processed in between, every candidate with the
    identifier [i] is a duplicate and changes nothing; and in a whole run
    no identifier is written twice, the identifiers written being those of
    the identifier set. *)
Theorem dedup_idempotence (r : item) (i : str) (Hid : dedupe_id r = Some i) :
  (forall st, process_row (process_row st r) r = process_row st r)
  /\ (forall st, i ∉ seen_item_ids st ->
        duplicate st r = false
        /\ seen_item_ids (process_row st r) = {[ i ]} ∪ seen_item_ids st
        /\ exists w, csv (process_row st r) = csv st ++ [w] /\ row w = r)
  /\ (forall st rows r', i ∈ seen_item_ids st -> dedupe_id r' = Some i ->
        duplicate (fold_left process_row rows st) r' = true
        /\ process_row (fold_left process_row rows st) r' =
           fold_left process_row rows st)
  /\ (forall fuel final, run fuel = Some final ->
        NoDup (written_ids final)
        /\ (i ∈ seen_item_ids final <-> i ∈ written_ids final)).
Proof.
  assert (Hlater : forall st r', i ∈ seen_item_ids st -> dedupe_id r' = Some i ->
                                 duplicate st r' = true).
  { intros st r' Hin Hr'. rewrite (duplicate_id st r' i Hr').
    now apply bool_decide_eq_true. }
  assert (Hfirst : forall st, i ∉ seen_item_ids st ->
            duplicate st r = false
            /\ seen_item_ids (process_row st r) = {[ i ]} ∪ seen_item_ids st
            /\ exists w, csv (process_row st r) = csv st ++ [w] /\ row w = r).
  { intros st Hnew.
    assert (Hdup : duplicate st r = false).
    { rewrite (duplicate_id st r i Hid). now apply bool_decide_eq_false. }
    split; [exact Hdup|]. rewrite (process_row_novel st r Hdup). simpl.
    destruct (mark_seen_id st r i Hid) as [-> _].
    destruct (mark_seen_rows st r) as (-> & _).
    split; [reflexivity|]. eexists. split; reflexivity. }
  split; [|split; [exact Hfirst|split]].
  - intros st. destruct (decide (i ∈ seen_item_ids st)) as [Hin|Hnew].
    + now rewrite !(process_row_duplicate st r (Hlater st r Hin Hid)).
    + apply process_row_duplicate, Hlater; [|exact Hid].
      destruct (Hfirst st Hnew) as (_ & Hseen & _). rewrite Hseen.
      apply elem_of_union_l, elem_of_singleton. reflexivity.
  - intros st rows r' Hin Hr'.
    assert (Hdup : duplicate (fold_left process_row rows st) r' = true).
    { apply Hlater; [|exact Hr']. now apply (seen_ids_grow_rows rows st). }
    split; [exact Hdup | now apply process_row_duplicate].
  - intros fuel final [Hiff Honce]%ledger_ok_main. split; [exact Honce | apply Hiff].
Qed.

(** *** Stopping on a failed page *)

Lemma csv_grows_process_row st r : csv st `prefix_of` csv (process_row st r).
Proof.
  unfold process_row. destruct (duplicate st r); [done|]. simpl.
  destruct (mark_seen_rows st r) as (-> & _). now apply prefix_app_r.
Qed.



(** *** Stopping on an empty page *)



(** *** The page budget *)




End Run.

(** ** The rows of the output *)

Section Sink.
Context {U : UnicodeDB}.

(** The formulas of the [k]-th data row (from 0) are those of spreadsheet
    row [k + 2], in the CSV file and in the worksheet, whose rows mirror
    those of the CSV file. *)
Record rows_ok (st : state) : Prop := {
  next_excel_row : excel_row st = (Z.of_nat (length (csv st)) + 2)%Z;
  next_xlsx_row0 : xlsx_row0 st = (Z.of_nat (length (csv st)) + 1)%Z;
  csv_formulas :
    forall (k : nat) w, csv st !! k = Some w ->
      image_preview w = image_preview_formula (Z.of_nat k + 2)
      /\ title_en w = title_en_formula (Z.of_nat k + 2);
  sheet_formulas :
    forall rows, worksheet st = Some rows ->
      length rows = length (csv st)
      /\ forall (k : nat) x, rows !! k = Some x ->
           xlsx_index x = (Z.of_nat k + 1)%Z
           /\ xlsx_image_preview x = image_preview_formula (Z.of_nat k + 2)
           /\ xlsx_title_en x = title_en_formula (Z.of_nat k + 2)
           /\ exists w, csv st !! k = Some w /\ row w = xlsx_item x
}.

Lemma rows_ok_write st r : rows_ok st -> rows_ok (write_row (mark_seen st r) r).
Proof.
  intros [Hrow Hrow0 Hcsv Hsheet].
  destruct (mark_seen_rows st r) as (Hc & He & Hx & Hw & _).
  split; simpl; rewrite ?Hc, ?He, ?Hx, ?Hw.
  - rewrite length_app. simpl. lia.
  - rewrite length_app. simpl. lia.
  - intros k w [Hold | [Hk Hnew]]%lookup_app_Some; [now apply Hcsv|].
    destruct (k - length (csv st))%nat as [|?] eqn:Hoff; [|discriminate Hnew].
    injection Hnew as <-. simpl. rewrite Hrow.
    replace (Z.of_nat k) with (Z.of_nat (length (csv st))) by lia. easy.
  - intros rows Hrows. destruct (worksheet st) as [old|]; [|discriminate Hrows].
    injection Hrows as <-. destruct (Hsheet old eq_refl) as [Hlen Hold].
    split; [rewrite !length_app, Hlen; reflexivity|].
    intros k x [Hin | [Hk Hnew]]%lookup_app_Some.
    + destruct (Hold k x Hin) as (? & ? & ? & w & Hw' & ?).
      repeat (split; [assumption|]). exists w. split; [|assumption].
      now apply lookup_app_l_Some.
    + destruct (k - length old)%nat as [|?] eqn:Hoff; [|discriminate Hnew].
      injection Hnew as <-. simpl. rewrite Hrow0.
      assert (Hkk : k = length (csv st)) by lia. subst k.
      split; [lia|]. split; [f_equal; lia|]. split; [f_equal; lia|].
      eexists. split.
      * rewrite lookup_app_r by lia. rewrite Nat.sub_diag. reflexivity.
      * reflexivity.
Qed.

Lemma rows_ok_process_row st r : rows_ok st -> rows_ok (process_row st r).
Proof.
  intros Hst. unfold process_row. destruct (duplicate st r); [exact Hst|].
  now apply rows_ok_write.
Qed.

Lemma rows_ok_initial start_url out_xlsx : rows_ok (initial start_url out_xlsx).
Proof.
  split; simpl; try reflexivity.
  - intros k w Hk. discriminate Hk.
  - intros rows Hrows. destruct out_xlsx; [|discriminate Hrows].
    injection Hrows as <-. split; [reflexivity|]. intros k x Hk. discriminate Hk.
Qed.

Lemma rows_ok_main scrape start_url pages until_empty out_xlsx fuel final :
  main scrape start_url pages until_empty out_xlsx fuel = Some final ->
  rows_ok final.
Proof.
  apply loop_invariant; [| | |apply rows_ok_initial].
  - intros st r. apply rows_ok_process_row.
  - intros st u [? ? ? ?]. now split.
  - intros st [? ? ? ?]. now split.
Qed.

End Sink.

(** ** Runs on Latin-1 data do not depend on the rest of the database *)

Definition latin1 (s : str) : Prop := Forall (fun c => (c < 256)%N) s.

Section Latin1.
Context {U : UnicodeDB}.

Lemma lstrip_by_ext p q s :
  Forall (fun c => p c = q c) s -> lstrip_by p s = lstrip_by q s.
Proof.
  induction 1 as [|c s Hc _ IH]; simpl; [reflexivity|].
  rewrite <- Hc. now destruct (p c).
Qed.

Lemma Forall_lstrip_by (P : N -> Prop) p s :
  Forall P s -> Forall P (lstrip_by p s).
Proof.
  induction 1 as [|c s Hc Hs IH]; simpl; [constructor|].
  destruct (p c); [exact IH | now constructor].
Qed.

Lemma strip_by_ext p q s :
  Forall (fun c => p c = q c) s -> strip_by p s = strip_by q s.
Proof.
  intros Hs. unfold strip_by.
  rewrite <- (lstrip_by_ext p q s Hs). f_equal.
  apply lstrip_by_ext, Forall_rev, Forall_lstrip_by, Hs.
Qed.

Lemma strip_latin1 s : latin1 s -> strip s = strip (U := latin1_db) s.
Proof.
  intros Hs. apply strip_by_ext.
  eapply Forall_impl; [exact Hs|]. intros c Hc. now apply isspace_latin1.
Qed.

Lemma dedupe_id_latin1 r :
  latin1 (default [] (item_id r)) -> dedupe_id r = dedupe_id (U := latin1_db) r.
Proof. intros Hr. unfold dedupe_id. now rewrite strip_latin1. Qed.

Lemma clean_price_db text :
  latin1 (default [] text) ->
  clean_price text = clean_price (U := latin1_db) text.
Proof.
  intros Ht. rewrite !clean_price_value. unfold long_price, price_of.
  rewrite (decimals_latin1 _ Ht), (decimals_latin1 (U := latin1_db) _ Ht).
  reflexivity.
Qed.

Lemma Forall_take_until (P : N -> Prop) p s :
  Forall P s -> Forall P (take_until p s).
Proof.
  induction 1 as [|c s Hc _ IH]; simpl; [constructor|].
  destruct (p c); [constructor | now constructor].
Qed.

Lemma Forall_drop_until (P : N -> Prop) p s :
  Forall P s -> Forall P (drop_until p s).
Proof.
  induction 1 as [|c s Hc Hs IH]; simpl; [constructor|].
  destruct (p c); [now constructor | exact IH].
Qed.

Lemma Forall_tail (P : N -> Prop) s : Forall P s -> Forall P (tail s).
Proof. destruct 1; [constructor | assumption]. Qed.

Lemma urlsplit_netloc_Forall (P : N -> Prop) url :
  Forall P url -> Forall P (split_netloc (urlsplit url)).
Proof.
  intros Hurl. unfold urlsplit.
  set (text := List.filter _ (lstrip_by _ url)).
  assert (Htext : Forall P text).
  { apply List.Forall_forall. intros c [Hc _]%filter_In.
    revert c Hc. apply List.Forall_forall. now apply Forall_lstrip_by. }
  clearbody text.
  match goal with
  | |- context [if ?c then (map lower_chr _, ?rest) else _] =>
      destruct c;
      [assert (Hrest : Forall P rest) by now apply Forall_tail, Forall_drop_until|]
  end.
  all: cbv zeta iota beta.
  all: match goal with
       | |- context [starts_with ?a ?b] => destruct (starts_with a b)
       end.
  all: cbv zeta iota beta.
  all: repeat (match goal with
               | |- context [contains ?a ?b] => destruct (contains a b)
               end; unfold split1; cbv zeta iota beta).
  all: cbn [split_netloc]; try constructor.
  all: now apply Forall_take_until, Forall_drop.
Qed.

Lemma checknetloc_db netloc :
  latin1 netloc -> checknetloc netloc = checknetloc (U := latin1_db) netloc.
Proof.
  intros Hn. unfold checknetloc. rewrite NFKC_latin1; [reflexivity|].
  apply List.Forall_forall. intros c [Hc _]%filter_In.
  revert c Hc. now apply List.Forall_forall.
Qed.

Lemma urlsplit_raises_db url :
  latin1 url -> urlsplit_raises url = urlsplit_raises (U := latin1_db) url.
Proof.
  intros Hurl. unfold urlsplit_raises, check_netloc.
  now rewrite (checknetloc_db _ (urlsplit_netloc_Forall _ url Hurl)).
Qed.

Lemma extract_item_id_db href :
  latin1 (default [] href) ->
  extract_item_id href = extract_item_id (U := latin1_db) href.
Proof.
  intros Hh. unfold extract_item_id, urlparse_raises.
  now rewrite (urlsplit_raises_db _ Hh).
Qed.

(** The text of a block that the database is consulted on. *)
Definition latin1_block (b : block) : Prop :=
  latin1 (default [] (price_tag b)) /\ latin1 (default [] (buyout_tag b))
  /\ latin1 (default [] (img_src b)) /\ latin1 (default [] (link_href b)).

Lemma scrape_block_db urljoin page_url b :
  latin1_block b ->
  scrape_block urljoin page_url b =
  scrape_block (U := latin1_db) urljoin page_url b.
Proof.
  intros (Hp & Hb & Hi & Hl). unfold scrape_block.
  rewrite (clean_price_db _ Hp), (clean_price_db _ Hb), (strip_latin1 _ Hi),
    (extract_item_id_db _ Hl).
  reflexivity.
Qed.

Lemma scrape_blocks_db urljoin page_url blocks :
  Forall latin1_block blocks ->
  scrape_blocks urljoin page_url blocks =
  scrape_blocks (U := latin1_db) urljoin page_url blocks.
Proof.
  induction 1 as [|b blocks Hb _ IH]; simpl; [reflexivity|].
  now rewrite (scrape_block_db _ _ b Hb), IH.
Qed.

Lemma scrape_page_db urljoin fetch page_url :
  (forall blocks, fetch page_url = Returned blocks -> Forall latin1_block blocks) ->
  scrape_page urljoin fetch page_url =
  scrape_page (U := latin1_db) urljoin fetch page_url.
Proof.
  intros Hblocks. unfold scrape_page.
  destruct (fetch page_url) as [blocks|]; [|reflexivity].
  cbn [mbind outcome_bind]. now apply scrape_blocks_db, Hblocks.
Qed.

Lemma scrape_page_ext urljoin urljoin' fetch page_url :
  (forall base url, urljoin base url = urljoin' base url) ->
  scrape_page urljoin fetch page_url = scrape_page urljoin' fetch page_url.
Proof.
  intros Hext. unfold scrape_page.
  destruct (fetch page_url) as [blocks|]; [|reflexivity].
  cbn [mbind outcome_bind].
  induction blocks as [|b blocks IH]; [reflexivity|].
  cbn [scrape_blocks]. rewrite IH. unfold scrape_block.
  now rewrite !Hext.
Qed.

Lemma process_row_db st r :
  dedupe_id r = dedupe_id (U := latin1_db) r ->
  process_row st r = process_row (U := latin1_db) st r.
Proof.
  intros Hr. unfold process_row, duplicate, mark_seen. now rewrite Hr.
Qed.

Lemma process_rows_db rows :
  Forall (fun r => dedupe_id r = dedupe_id (U := latin1_db) r) rows ->
  forall st,
    fold_left process_row rows st =
    fold_left (process_row (U := latin1_db)) rows st.
Proof.
  induction 1 as [|r rows Hr _ IH]; intros st; simpl; [reflexivity|].
  now rewrite (process_row_db st r Hr), IH.
Qed.

Lemma main_db scrape scrape' start_url pages until_empty out_xlsx :
  (forall url, scrape url = scrape' url) ->
  start_page start_url = start_page (U := latin1_db) start_url ->
  (forall url rows, scrape' url = Returned rows ->
     Forall (fun r => dedupe_id r = dedupe_id (U := latin1_db) r) rows) ->
  forall fuel,
    main scrape start_url pages until_empty out_xlsx fuel =
    main (U := latin1_db) scrape' start_url pages until_empty out_xlsx fuel.
Proof.
  intros Hscrape Hstart Hrows fuel. unfold main, initial. rewrite Hstart.
  generalize ({| page := start_page (U := latin1_db) start_url;
                 seen_item_ids := ∅; seen_detail_urls := ∅; excel_row := 2;
                 xlsx_row0 := 1; total_written := 0; csv := [];
                 worksheet := if out_xlsx then Some [] else None;
                 fetched := [] |}) as st.
  induction fuel as [|fuel IH]; intros st; simpl; [reflexivity|].
  assert (Hturn : iteration scrape start_url pages until_empty st =
                  iteration (U := latin1_db) scrape' start_url pages until_empty st).
  { unfold iteration, budget_spent. rewrite Hscrape, Hstart.
    destruct (scrape' (set_page_param start_url (page st))) as [rows|] eqn:Hs;
      [|reflexivity].
    now rewrite (process_rows_db rows (Hrows _ _ Hs)). }
  rewrite Hturn.
  destruct (iteration (U := latin1_db) scrape' start_url pages until_empty st)
    as [st' [|]]; [apply IH | reflexivity].
Qed.

Lemma int_decimal_latin1 s :
  latin1 s -> s <> [] -> Forall (fun c => ascii_digit c = true) s ->
  int s = if exceeds_max_str_digits (length s) then Raised
          else Returned (spelled (omap ascii_decimal s)).
Proof.
  intros Hs Hne Hd. rewrite int_decimal; [now rewrite decimals_latin1| |exact Hne].
  unfold latin1 in Hs.
  apply Forall_forall. intros c Hc. unfold is_decimal.
  rewrite todecimal_latin1 by (rewrite Forall_forall in Hs; now apply Hs).
  rewrite Forall_forall in Hd. specialize (Hd c Hc).
  unfold ascii_decimal. unfold ascii_digit in Hd. revert Hd. char_class.
Qed.

End Latin1.

(** ** The end-to-end scenario *)

(** Two pages: the first lists A (with a price) and B, the second repeats A
    and adds C. *)
Definition scenario_url : str := py "https://shop.example/list?page=1".

Definition block_A : block :=
  {| title_tag := Some (py "Foo"); price_tag := Some (165%N :: py "500");
     buyout_tag := None; link_href := Some (py "/item?id=A"); img_src := None |}.

Definition block_B : block :=
  {| title_tag := Some (py "Bar"); price_tag := None; buyout_tag := None;
     link_href := Some (py "/item?id=B"); img_src := None |}.

Definition block_C : block :=
  {| title_tag := Some (py "Baz"); price_tag := None; buyout_tag := None;
     link_href := Some (py "/item?id=C"); img_src := None |}.

Definition scenario_fetch (page_url : str) : outcome (list block) :=
  if bool_decide (page_url = set_page_param scenario_url 1)
  then Returned [block_A; block_B]
  else if bool_decide (page_url = set_page_param scenario_url 2)
  then Returned [block_A; block_C]
  else Raised.

(** What the scenario looks at in a row. *)
Definition summary (w : csv_row) : option str * option str * option Z * str * str :=
  (item_id (row w), title (row w), price_jpy (row w), image_preview w, title_en w).

Definition scenario_rows : list (option str * option str * option Z * str * str) :=
  [(Some (py "A"), Some (py "Foo"), Some 500%Z,
    image_preview_formula 2, title_en_formula 2);
   (Some (py "B"), Some (py "Bar"), None,
    image_preview_formula 3, title_en_formula 3);
   (Some (py "C"), Some (py "Baz"), None,
    image_preview_formula 4, title_en_formula 4)].

Ltac latin1_text :=
  unfold latin1; simpl; repeat (constructor; try reflexivity).

Lemma scenario_blocks_latin1 page_url blocks :
  scenario_fetch page_url = Returned blocks -> Forall latin1_block blocks.
Proof.
  unfold scenario_fetch.
  destruct (bool_decide _); [|destruct (bool_decide _)]; intros [= <-];
    repeat (constructor; [repeat split; latin1_text|]); constructor.
Qed.

Lemma scenario_ids_latin1 {U : UnicodeDB} (join : str -> str -> str)
    page_url rows :
  scrape_page (U := latin1_db) (fun base url => Returned (join base url))
    scenario_fetch page_url = Returned rows ->
  Forall (fun r => dedupe_id r = dedupe_id (U := latin1_db) r) rows.
Proof.
  unfold scrape_page, scenario_fetch.
  destruct (bool_decide _); [|destruct (bool_decide _)];
    intros Hrows; vm_compute in Hrows; injection Hrows as <- || discriminate Hrows;
    repeat (constructor; [apply dedupe_id_latin1; latin1_text|]); constructor.
Qed.

Lemma scenario_run {U : UnicodeDB} (urljoin : str -> str -> outcome str)
    (out_xlsx : bool) :
  (forall base url, urljoin base url <> Raised) ->
  exists final,
    main (scrape_page urljoin scenario_fetch) scenario_url (Some 2%Z) false
         out_xlsx 2 = Some final
    /\ map summary (csv final) = scenario_rows.
Proof.
  intros Hjoin.
  set (join := fun base url =>
                 match urljoin base url with
                 | Returned joined => joined
                 | Raised => []
                 end).
  assert (Hext : forall base url, urljoin base url = Returned (join base url)).
  { intros base url. unfold join. specialize (Hjoin base url).
    destruct (urljoin base url); [reflexivity | contradiction]. }
  clearbody join.
  rewrite (main_db _ (scrape_page (U := latin1_db)
                        (fun base url => Returned (join base url)) scenario_fetch)).
  - set (m := main _ _ _ _ _ _).
    assert (Hm : (fun final => map summary (csv final)) <$> m = Some scenario_rows)
      by (destruct out_xlsx; vm_compute; reflexivity).
    destruct m as [final|]; [|discriminate Hm].
    exists final. split; [reflexivity|]. now injection Hm.
  - intros url.
    rewrite (scrape_page_db urljoin scenario_fetch url)
      by apply scenario_blocks_latin1.
    now apply scrape_page_ext.
  - reflexivity.
  - intros url rows. apply scenario_ids_latin1.
Qed.

(** ** Whole runs: formulas and page budget *)

(** C8.  Formula row references: in every run the two formulas of the
    [k]-th data row written (counting from 0) are those of spreadsheet row
    [k + 2], in the CSV file and in the worksheet alike; they refer to the
    cells [F] and [B] of that row, the columns of the image URL and of the
    title, and their text is spelled out, 34 being the code of the double
    quote; a duplicate leaves the row counter and the output as they were,
    and an admitted row takes the current row and advances the counter by
    one.  In the scenario, the rows written are A, B and C, with the formulas
    of rows 2, 3 and 4. *)
Theorem formulas_reference_own_row {U : UnicodeDB} :
  (forall scrape start_url pages until_empty out_xlsx fuel final,
     main scrape start_url pages until_empty out_xlsx fuel = Some final ->
     (forall (k : nat) w, csv final !! k = Some w ->
        image_preview w = image_preview_formula (Z.of_nat k + 2)
        /\ title_en w = title_en_formula (Z.of_nat k + 2))
     /\ (forall rows, worksheet final = Some rows ->
           length rows = length (csv final)
           /\ forall (k : nat) x, rows !! k = Some x ->
                xlsx_index x = (Z.of_nat k + 1)%Z
                /\ xlsx_image_preview x = image_preview_formula (Z.of_nat k + 2)
                /\ xlsx_title_en x = title_en_formula (Z.of_nat k + 2)
                /\ exists w, csv final !! k = Some w /\ row w = xlsx_item x))
  /\ (forall n, exists rest,
        image_preview_formula n = py "=IF(LEN(" ++ cell "F" n ++ rest)
  /\ (forall n, exists rest,
        title_en_formula n = py "=TRANSLATE(" ++ cell "B" n ++ rest)
  /\ (forall n,
        image_preview_formula n =
        py "=IF(LEN(F" ++ str_of_int n ++ py "),IMAGE(F" ++ str_of_int n
        ++ py "," ++ [34; 34]%N ++ py ",3,160,160)," ++ [34; 34]%N ++ py ")")
  /\ (forall n,
        title_en_formula n =
        py "=TRANSLATE(B" ++ str_of_int n ++ py "," ++ [34]%N ++ py "ja"
        ++ [34]%N ++ py "," ++ [34]%N ++ py "en" ++ [34]%N ++ py ")")
  /\ map image_preview_formula [2; 3; 4]%Z =
     [py "=IF(LEN(F2),IMAGE(F2," ++ [34; 34]%N ++ py ",3,160,160),"
      ++ [34; 34]%N ++ py ")";
      py "=IF(LEN(F3),IMAGE(F3," ++ [34; 34]%N ++ py ",3,160,160),"
      ++ [34; 34]%N ++ py ")";
      py "=IF(LEN(F4),IMAGE(F4," ++ [34; 34]%N ++ py ",3,160,160),"
      ++ [34; 34]%N ++ py ")"]
  /\ map title_en_formula [2; 3; 4]%Z =
     [py "=TRANSLATE(B2," ++ [34]%N ++ py "ja" ++ [34]%N ++ py ","
      ++ [34]%N ++ py "en" ++ [34]%N ++ py ")";
      py "=TRANSLATE(B3," ++ [34]%N ++ py "ja" ++ [34]%N ++ py ","
      ++ [34]%N ++ py "en" ++ [34]%N ++ py ")";
      py "=TRANSLATE(B4," ++ [34]%N ++ py "ja" ++ [34]%N ++ py ","
      ++ [34]%N ++ py "en" ++ [34]%N ++ py ")"]
  /\ column_letter (py "image_url") = Some (N_of_ascii "F")
  /\ column_letter (py "title") = Some (N_of_ascii "B")
  /\ (forall st r, duplicate st r = true -> process_row st r = st)
  /\ (forall st r, duplicate st r = false ->
        excel_row (process_row st r) = (excel_row st + 1)%Z
        /\ exists w,
             csv (process_row st r) = csv st ++ [w] /\ row w = r
             /\ image_preview w = image_preview_formula (excel_row st)
             /\ title_en w = title_en_formula (excel_row st))
  /\ (forall urljoin out_xlsx,
        (forall base url, urljoin base url <> Raised) ->
        exists final,
          main (scrape_page urljoin scenario_fetch) scenario_url (Some 2%Z) false
               out_xlsx 2 = Some final
          /\ map summary (csv final) = scenario_rows).
Proof.
  split.
  { intros scrape start_url pages until_empty out_xlsx fuel final Hrun.
    destruct (rows_ok_main _ _ _ _ _ _ _ Hrun) as [_ _ Hcsv Hsheet].
    split; [exact Hcsv | exact Hsheet]. }
  split; [intros n; eexists; reflexivity|].
  split; [intros n; eexists; reflexivity|].
  split; [intros n; reflexivity|].
  split; [intros n; reflexivity|].
  split; [reflexivity|]. split; [reflexivity|].
  split; [reflexivity|]. split; [reflexivity|].
  split; [exact process_row_duplicate|].
  split.
  { intros st r Hnew. rewrite (process_row_novel st r Hnew). simpl.
    destruct (mark_seen_rows st r) as (-> & -> & _).
    split; [reflexivity|]. eexists. repeat split. }
  intros urljoin out_xlsx Hjoin. now apply scenario_run.
Qed.




(** ** Concrete instances *)

Definition item_A : item :=
  {| item_id := Some (py "A"); title := Some (py "Foo"); price_jpy := Some 500%Z;
     buyout_jpy := None;
     detail_url := Some (py "https://shop.example/item?id=A");
     image_url := None; source_page := scenario_url |}.

Lemma dedup_idempotence_witness :
  dedupe_id (U := latin1_db) item_A = Some (py "A")
  /\ forall st,
       process_row (U := latin1_db) (process_row (U := latin1_db) st item_A) item_A
       = process_row (U := latin1_db) st item_A.
Proof.
  split; [reflexivity|].
  apply (dedup_idempotence (U := latin1_db) (fun _ => Raised) scenario_url None
           false false item_A (py "A")).
  reflexivity.
Defined.

Lemma url_fallback_gap_witness :
  dedupe_id (U := latin1_db) item_A = Some (py "A")
  /\ dedupe_url item_A = Some (py "https://shop.example/item?id=A")
  /\ duplicate (U := latin1_db) (initial (U := latin1_db) scenario_url false) item_A
     = false
  /\ seen_detail_urls
       (process_row (U := latin1_db) (initial (U := latin1_db) scenario_url false)
          item_A)
     = seen_detail_urls (initial (U := latin1_db) scenario_url false).
Proof.
  split; [reflexivity|]. split; [reflexivity|]. split; [reflexivity|].
  apply (url_fallback_gap (U := latin1_db) item_A (py "A")
           (py "https://shop.example/item?id=A")); reflexivity.
Defined.



(** A block in which none of the selectors finds anything. *)
Definition noise_block : block :=
  {| title_tag := None; price_tag := None; buyout_tag := None;
     link_href := None; img_src := None |}.

Lemma scrape_block_keeps_usable_witness :
  scrape_block (U := latin1_db) (fun _ _ => Raised) scenario_url block_A = Raised
  /\ (exists i,
        scrape_block (U := latin1_db) (fun _ href => Returned href) scenario_url
          block_A = Returned (Some i)
        /\ title i = Some (py "Foo") /\ price_jpy i = Some 500%Z
        /\ detail_url i = Some (py "/item?id=A"))
  /\ scrape_block (U := latin1_db) (fun _ href => Returned href) scenario_url
       noise_block = Returned None
  /\ forall pre post,
       scrape_blocks (U := latin1_db) (fun _ href => Returned href) scenario_url
         (pre ++ noise_block :: post)
       = scrape_blocks (U := latin1_db) (fun _ href => Returned href)
           scenario_url (pre ++ post).
Proof.
  split; [|split].
  - apply (proj1 (scrape_block_keeps_usable (U := latin1_db) (fun _ _ => Raised)
                    scenario_url block_A)).
    right; right; left. reflexivity.
  - destruct (proj1 (proj2 (scrape_block_keeps_usable (U := latin1_db)
                              (fun _ href => Returned href) scenario_url block_A))
                _ eq_refl) as (detail & Hdetail & _ & Hfields).
    eexists. split; [reflexivity|].
    destruct (Hfields _ eq_refl) as (Htitle & Hprice & _ & Hurl).
    split; [exact Htitle|]. split; [rewrite Hprice; reflexivity|].
    rewrite Hurl. injection Hdetail as <-. reflexivity.
  - apply (proj2 (proj2 (proj2 (scrape_block_keeps_usable (U := latin1_db)
                                  (fun _ href => Returned href) scenario_url
                                  noise_block))
                    eq_refl eq_refl eq_refl eq_refl)).
    discriminate.
Defined.


Lemma formulas_reference_own_row_witness :
  exists final,
    main (U := latin1_db)
      (scrape_page (U := latin1_db) (fun _ href => Returned href) scenario_fetch)
      scenario_url (Some 2%Z) false true 2 = Some final
    /\ forall (k : nat) w, csv final !! k = Some w ->
         image_preview w = image_preview_formula (Z.of_nat k + 2)
         /\ title_en w = title_en_formula (Z.of_nat k + 2).
Proof.
  destruct (scenario_run (U := latin1_db) (fun _ href => Returned href) true)
    as (final & Hrun & _); [discriminate|].
  exists final. split; [exact Hrun|].
  exact (proj1 (proj1 (formulas_reference_own_row (U := latin1_db))
                  _ _ _ _ _ _ _ Hrun)).
Defined.

(** ** URL normalization *)

(** C3.  [normalize_detail_url] strips the fragment and re-encodes the
    query, but it keeps the parameters in the order of the URL: its
    docstring and its comment announce a sort that the body does not make.
    The two URLs of the specification, which differ in the order of their
    parameters and in the fragment only, get different keys. *)
Theorem normalize_keeps_parameter_order :
  normalize_detail_url (Some (py "detail_url?b=2&a=1"))
  = Some (py "detail_url?b=2&a=1")
  /\ normalize_detail_url (Some (py "detail_url?a=1&b=2#frag"))
     = Some (py "detail_url?a=1&b=2")
  /\ normalize_detail_url (Some (py "detail_url?b=2&a=1"))
     <> normalize_detail_url (Some (py "detail_url?a=1&b=2#frag"))
  /\ normalize_detail_url (Some (py "https://shop.example/item?b=2&a=1"))
     <> normalize_detail_url (Some (py "https://shop.example/item?a=1&b=2#frag")).
Proof. repeat split; try reflexivity; vm_compute; discriminate. Qed.

(** ** Scanning lemmas *)

Lemma take_drop_until p s : take_until p s ++ drop_until p s = s.
Proof.
  induction s as [|c s IH]; simpl; [reflexivity|].
  destruct (p c); simpl; [reflexivity | now rewrite IH].
Qed.

Lemma take_until_all p s :
  Forall (fun c => p c = false) s -> take_until p s = s /\ drop_until p s = [].
Proof.
  induction 1 as [|c s Hc _ [IH1 IH2]]; simpl; [easy|].
  rewrite Hc, IH1, IH2. easy.
Qed.

Lemma take_until_stop p a c b :
  Forall (fun x => p x = false) a -> p c = true ->
  take_until p (a ++ c :: b) = a /\ drop_until p (a ++ c :: b) = c :: b.
Proof.
  intros Ha Hc. induction Ha as [|x a Hx _ [IH1 IH2]]; simpl.
  - now rewrite Hc.
  - rewrite Hx, IH1, IH2. easy.
Qed.

Lemma Forall_take_until_false p s : Forall (fun c => p c = false) (take_until p s).
Proof.
  induction s as [|c s IH]; simpl; [constructor|].
  destruct (p c) eqn:Hc; [constructor | now constructor].
Qed.

Lemma drop_until_head p s :
  drop_until p s = [] \/ exists c r, drop_until p s = c :: r /\ p c = true.
Proof.
  induction s as [|c s IH]; simpl; [now left|].
  destruct (p c) eqn:Hc; [right; eauto | exact IH].
Qed.

Lemma contains_false a s :
  contains a s = false <-> Forall (fun c => is_chr a c = false) s.
Proof.
  unfold contains. induction s as [|c s IH]; simpl.
  - split; [constructor | reflexivity].
  - rewrite orb_false_iff, IH. split.
    + intros [? ?]. now constructor.
    + intros H. split; [exact (Forall_inv H) | exact (Forall_inv_tail H)].
Qed.

Lemma contains_app a s t : contains a (s ++ t) = contains a s || contains a t.
Proof. unfold contains. apply existsb_app. Qed.

(** Splitting at the first occurrence, whether there is one or not. *)
Lemma split1_or_whole a s :
  (if contains a s then split1 a s else (s, [])) =
  (take_until (is_chr a) s, tail (drop_until (is_chr a) s)).
Proof.
  destruct (contains a s) eqn:Hc; [reflexivity|].
  apply contains_false, take_until_all in Hc as [-> ->]. reflexivity.
Qed.

(** ** UTF-8 and percent-encoding round trips *)

(** Linear arithmetic with division by a constant. *)
Ltac div_lia := zify; Z.to_euclidean_division_equations; lia.

(** A property of the sixteen nibbles is checked by running through them. *)
Lemma nibble_cases (f : N -> bool) :
  forallb f (map N.of_nat (seq 0 16)) = true ->
  forall n, (n < 16)%N -> f n = true.
Proof.
  intros Hall n Hn. rewrite forallb_forall in Hall. apply Hall.
  rewrite <- (N2Nat.id n). apply in_map, in_seq. lia.
Qed.

Lemma nibble_high b : (b < 256)%N -> (b / 16 < 16)%N.
Proof. intros Hb. div_lia. Qed.

Lemma nibble_low b : (b mod 16 < 16)%N.
Proof. div_lia. Qed.

Lemma nibble_join b : (16 * (b / 16) + b mod 16)%N = b.
Proof. div_lia. Qed.

Lemma hex_upper_safe n : (n < 16)%N -> always_safe (hex_upper n) = true.
Proof. apply (nibble_cases (fun n => always_safe (hex_upper n))). reflexivity. Qed.

Lemma hex_upper_not a n :
  always_safe (N_of_ascii a) = false -> (n < 16)%N -> is_chr a (hex_upper n) = false.
Proof.
  intros Ha Hn. unfold is_chr. apply N.eqb_neq. intros Heq.
  rewrite <- Heq, (hex_upper_safe n Hn) in Ha. discriminate Ha.
Qed.

Lemma always_safe_not a c :
  always_safe (N_of_ascii a) = false -> always_safe c = true -> is_chr a c = false.
Proof.
  intros Ha Hc. unfold is_chr. apply N.eqb_neq. intros ->. congruence.
Qed.

(** A Unicode scalar value: a code point that is not a surrogate. *)
Definition scalar (c : N) : Prop :=
  (c < 55296 \/ 57344 <= c < 1114112)%N.

Definition valid (s : str) : Prop := Forall scalar s.

Lemma utf8_encode_chr_bytes c :
  scalar c -> Forall (fun b => (b < 256)%N) (utf8_encode_chr c).
Proof.
  intros Hc. unfold scalar in Hc. unfold utf8_encode_chr.
  destruct (N.ltb_spec c 128); [|destruct (N.ltb_spec c 2048);
    [|destruct (N.ltb_spec c 65536)]];
    repeat (constructor; [div_lia|]); constructor.
Qed.

Lemma utf8_decode_encode_chr c bs :
  scalar c -> utf8_decode (utf8_encode_chr c ++ bs) = c :: utf8_decode bs.
Proof.
  intros Hc. unfold scalar in Hc. unfold utf8_encode_chr.
  destruct (N.ltb_spec c 128) as [H1|H1].
  { simpl. destruct (N.ltb_spec c 128); [reflexivity | lia]. }
  destruct (N.ltb_spec c 2048) as [H2|H2].
  { cbn [app utf8_decode]. unfold continuation.
    repeat match goal with
           | |- context [(?a <? ?b)%N] => destruct (N.ltb_spec a b); try div_lia
           | |- context [(?a <=? ?b)%N] => destruct (N.leb_spec a b); try div_lia
           end.
    cbn [orb andb]. f_equal. div_lia. }
  destruct (N.ltb_spec c 65536) as [H3|H3].
  { cbn [app utf8_decode]. unfold continuation.
    repeat match goal with
           | |- context [(?a <? ?b)%N] => destruct (N.ltb_spec a b); try div_lia
           | |- context [(?a <=? ?b)%N] => destruct (N.leb_spec a b); try div_lia
           | |- context [(?a =? ?b)%N] => destruct (N.eqb_spec a b); try div_lia
           end; cbn [orb andb negb]; f_equal; div_lia. }
  cbn [app utf8_decode]. unfold continuation.
  repeat match goal with
         | |- context [(?a <? ?b)%N] => destruct (N.ltb_spec a b); try div_lia
         | |- context [(?a <=? ?b)%N] => destruct (N.leb_spec a b); try div_lia
         | |- context [(?a =? ?b)%N] => destruct (N.eqb_spec a b); try div_lia
         end; cbn [orb andb negb]; f_equal; div_lia.
Qed.

Lemma utf8_decode_encode s : valid s -> utf8_decode (utf8_encode s) = s.
Proof.
  unfold utf8_encode. induction 1 as [|c s Hc _ IH]; [reflexivity|].
  cbn [flat_map]. now rewrite (utf8_decode_encode_chr c _ Hc), IH.
Qed.

(** One case split of the decoder. *)
Ltac decode_step :=
  match goal with
  | |- context [(?a <? ?b)%N] => destruct (N.ltb_spec a b)
  | |- context [(?a <=? ?b)%N] => destruct (N.leb_spec a b)
  | |- context [(?a =? ?b)%N] => destruct (N.eqb_spec a b)
  | |- context [match ?l with [] => _ | _ :: _ => _ end] => is_var l; destruct l
  end; cbn [orb andb negb] in *; try lia.

Lemma utf8_decode_valid_upto n :
  forall bs, (length bs <= n)%nat -> valid (utf8_decode bs).
Proof.
  induction n as [|n IH]; intros bs Hlen.
  - destruct bs; [constructor | simpl in Hlen; lia].
  - destruct bs as [|b0 r0]; [constructor|].
    cbn [utf8_decode]. unfold continuation.
    repeat decode_step;
      (constructor;
       [unfold scalar, replacement; lia | try constructor; apply IH; simpl in *; lia]).
Qed.

Lemma utf8_decode_valid bs : valid (utf8_decode bs).
Proof. now apply (utf8_decode_valid_upto (length bs)). Qed.

Lemma utf8_decode_nil bs : utf8_decode bs = [] -> bs = [].
Proof.
  destruct bs as [|b0 r0]; [reflexivity|]. intros H. exfalso. revert H.
  cbn [utf8_decode]. unfold continuation. repeat decode_step; discriminate.
Qed.

(** What [quote_plus] makes of one byte, and what [replace('+', ' ')]
    makes of that. *)
Definition plus_quoter (b : N) : str :=
  if always_safe b then [b]
  else if is_chr " " b then [N_of_ascii "+"]
  else [N_of_ascii "%"; hex_upper (b / 16)%N; hex_upper (b mod 16)%N].

Definition blank_quoter (b : N) : str :=
  if always_safe b then [b]
  else if is_chr " " b then [b]
  else [N_of_ascii "%"; hex_upper (b / 16)%N; hex_upper (b mod 16)%N].

(** The characters that [quote_plus] writes. *)
Definition quoted_chr (c : N) : bool :=
  always_safe c || is_chr "+" c || is_chr "%" c.

Ltac safe_class :=
  unfold quoted_chr, always_safe, ascii_alpha, ascii_digit, hex_upper, hex_value,
    netloc_delim, unsafe_url_byte, c0_control_or_space in *;
  char_class.

Lemma flat_map_pointwise {A B : Type} (f g : A -> list B) (P : A -> Prop) l :
  Forall P l -> (forall x, P x -> f x = g x) -> flat_map f l = flat_map g l.
Proof.
  intros Hl Hfg. induction Hl as [|x l Hx _ IH]; simpl; [reflexivity|].
  now rewrite (Hfg x Hx), IH.
Qed.

Lemma map_flat_map {A B C : Type} (h : B -> C) (f : A -> list B) l :
  map h (flat_map f l) = flat_map (fun x => map h (f x)) l.
Proof.
  induction l as [|x l IH]; simpl; [reflexivity|].
  now rewrite map_app, IH.
Qed.

Lemma utf8_encode_no_blank s :
  contains " " s = false ->
  Forall (fun b => is_chr " " b = false) (utf8_encode s).
Proof.
  intros Hs%contains_false. unfold utf8_encode.
  induction Hs as [|c s Hc _ IH]; simpl; [constructor|].
  apply Forall_app. split; [|exact IH].
  unfold utf8_encode_chr.
  destruct (N.ltb_spec c 128); [|destruct (N.ltb_spec c 2048);
    [|destruct (N.ltb_spec c 65536)]];
    repeat (constructor; [first [exact Hc | unfold is_chr; char_codes;
                                 apply N.eqb_neq; div_lia]|]); constructor.
Qed.

Lemma hex_upper_low a n :
  (N_of_ascii a < 48)%N -> is_chr a (hex_upper n) = false.
Proof.
  intros Ha. unfold is_chr, hex_upper. apply N.eqb_neq.
  destruct (N.ltb_spec n 10); lia.
Qed.

Lemma always_safe_ascii c : always_safe c = true -> (c < 128)%N.
Proof. safe_class. Qed.

Lemma is_chr_eq a c : is_chr a c = true -> c = N_of_ascii a.
Proof. unfold is_chr. apply N.eqb_eq. Qed.

Lemma quote_plus_bytes s : quote_plus s = flat_map plus_quoter (utf8_encode s).
Proof.
  unfold quote_plus, quote. destruct (contains " " s) eqn:Hs.
  - unfold replace_chr. rewrite map_flat_map.
    apply (flat_map_pointwise _ _ (fun _ => True)); [now apply Forall_true|].
    intros b _. unfold quoter, plus_quoter.
    destruct (always_safe b) eqn:Hb; simpl.
    + now rewrite (always_safe_not " " b eq_refl Hb).
    + destruct (is_chr " " b) eqn:Hb'; simpl.
      * now rewrite Hb'.
      * replace (is_chr " " (N_of_ascii "%")) with false by reflexivity.
        rewrite !(hex_upper_low " ") by reflexivity.
        reflexivity.
  - apply (flat_map_pointwise _ _ _ _ (utf8_encode_no_blank s Hs)).
    intros b Hb. unfold quoter, plus_quoter. rewrite Hb, orb_false_r. reflexivity.
Qed.

Lemma blank_quoter_plus b :
  replace_chr "+" " " (plus_quoter b) = blank_quoter b.
Proof.
  unfold replace_chr, plus_quoter, blank_quoter.
  destruct (always_safe b) eqn:Hb; simpl.
  - now rewrite (always_safe_not "+" b eq_refl Hb).
  - destruct (is_chr " " b) eqn:Hb'; simpl.
    + f_equal. symmetry. exact (is_chr_eq " " b Hb').
    + replace (is_chr "+" (N_of_ascii "%")) with false by reflexivity.
      rewrite !(hex_upper_low "+") by reflexivity.
      reflexivity.
Qed.

Lemma hex_value_upper n : (n < 16)%N -> hex_value (hex_upper n) = Some n.
Proof.
  intros Hn.
  apply (nibble_cases
           (fun n => bool_decide (hex_value (hex_upper n) = Some n)))
    in Hn; [|reflexivity].
  now apply bool_decide_eq_true in Hn.
Qed.

Lemma unquote_to_bytes_quoted bs :
  Forall (fun b => (b < 256)%N) bs ->
  unquote_to_bytes (flat_map blank_quoter bs) = bs.
Proof.
  induction 1 as [|b bs Hb _ IH]; [reflexivity|].
  cbn [flat_map]. unfold blank_quoter at 1.
  destruct (always_safe b) eqn:Hsafe; [|destruct (is_chr " " b) eqn:Hblank].
  - cbn [app unquote_to_bytes].
    now rewrite (always_safe_not "%" b eq_refl Hsafe), IH.
  - cbn [app unquote_to_bytes].
    rewrite (is_chr_eq " " b Hblank). cbn. now rewrite IH.
  - cbn [app unquote_to_bytes].
    replace (is_chr "%" (N_of_ascii "%")) with true by reflexivity.
    rewrite (hex_value_upper _ (nibble_high b Hb)).
    rewrite (hex_value_upper _ (nibble_low b)).
    now rewrite IH, nibble_join.
Qed.

Lemma blank_quoter_ascii bs :
  Forall (fun b => (b < 256)%N) bs ->
  Forall (fun c => (c < 128)%N) (flat_map blank_quoter bs).
Proof.
  induction 1 as [|b bs Hb _ IH]; [constructor|].
  cbn [flat_map]. apply Forall_app. split; [|exact IH].
  unfold blank_quoter.
  destruct (always_safe b) eqn:Hsafe; [|destruct (is_chr " " b) eqn:Hblank].
  - constructor; [now apply always_safe_ascii | constructor].
  - constructor; [|constructor]. now rewrite (is_chr_eq " " b Hblank).
  - constructor; [reflexivity|].
    constructor; [apply always_safe_ascii, hex_upper_safe, nibble_high, Hb|].
    constructor; [apply always_safe_ascii, hex_upper_safe, nibble_low|].
    constructor.
Qed.

Lemma unquote_runs_ascii s :
  Forall (fun c => (c < 128)%N) s ->
  forall run, unquote_runs s run = utf8_decode (unquote_to_bytes (run ++ s)).
Proof.
  induction 1 as [|c s Hc _ IH]; intros run; simpl.
  - now rewrite app_nil_r.
  - destruct (N.ltb_spec c 128); [|lia]. rewrite IH, <- app_assoc. reflexivity.
Qed.

Lemma unquote_to_bytes_plain s :
  contains "%" s = false -> unquote_to_bytes s = s.
Proof.
  intros Hs%contains_false. induction Hs as [|c s Hc _ IH]; simpl; [reflexivity|].
  now rewrite Hc, IH.
Qed.

Lemma utf8_decode_ascii s :
  Forall (fun c => (c < 128)%N) s -> utf8_decode s = s.
Proof.
  induction 1 as [|c s Hc _ IH]; [reflexivity|]. cbn [utf8_decode].
  destruct (N.ltb_spec c 128); [now rewrite IH | lia].
Qed.

Lemma unquote_ascii s :
  Forall (fun c => (c < 128)%N) s -> unquote s = utf8_decode (unquote_to_bytes s).
Proof.
  intros Hs. unfold unquote. destruct (contains "%" s) eqn:Hp; simpl.
  - now rewrite (unquote_runs_ascii s Hs).
  - now rewrite (unquote_to_bytes_plain s Hp), (utf8_decode_ascii s Hs).
Qed.

Lemma utf8_encode_bytes s :
  valid s -> Forall (fun b => (b < 256)%N) (utf8_encode s).
Proof.
  unfold utf8_encode. induction 1 as [|c s Hc _ IH]; simpl; [constructor|].
  apply Forall_app. split; [now apply utf8_encode_chr_bytes | exact IH].
Qed.

(** [unquote_plus] undoes [quote_plus]. *)
Lemma unquote_quote_plus s :
  valid s -> unquote (replace_chr "+" " " (quote_plus s)) = s.
Proof.
  intros Hs. rewrite quote_plus_bytes. unfold replace_chr. rewrite map_flat_map.
  rewrite (flat_map_pointwise _ blank_quoter (fun _ => True));
    [|now apply Forall_true | intros b _; apply blank_quoter_plus].
  pose proof (utf8_encode_bytes s Hs) as Hbytes.
  rewrite (unquote_ascii _ (blank_quoter_ascii _ Hbytes)).
  rewrite (unquote_to_bytes_quoted _ Hbytes). now apply utf8_decode_encode.
Qed.

(** ** Query strings: [parse_qs] undoes [urlencode] *)

Lemma plus_quoter_chars b :
  (b < 256)%N -> Forall (fun c => quoted_chr c = true) (plus_quoter b).
Proof.
  intros Hb. unfold plus_quoter.
  destruct (always_safe b) eqn:Hsafe; [|destruct (is_chr " " b)].
  - constructor; [|constructor]. unfold quoted_chr. now rewrite Hsafe.
  - constructor; [reflexivity | constructor].
  - constructor; [reflexivity|].
    constructor.
    { unfold quoted_chr. now rewrite (hex_upper_safe _ (nibble_high b Hb)). }
    constructor; [|constructor].
    unfold quoted_chr. now rewrite (hex_upper_safe _ (nibble_low b)).
Qed.

Lemma quote_plus_chars s :
  valid s -> Forall (fun c => quoted_chr c = true) (quote_plus s).
Proof.
  intros Hs. rewrite quote_plus_bytes.
  pose proof (utf8_encode_bytes s Hs) as Hbytes.
  induction Hbytes as [|b bs Hb _ IH]; simpl; [constructor|].
  apply Forall_app. split; [now apply plus_quoter_chars | exact IH].
Qed.

Lemma quote_plus_nonempty s : s <> [] -> quote_plus s <> [].
Proof.
  intros Hs. rewrite quote_plus_bytes. destruct s as [|c s]; [contradiction|].
  unfold utf8_encode. cbn [flat_map].
  assert (Hbytes : exists b bs, utf8_encode_chr c = b :: bs).
  { unfold utf8_encode_chr.
    destruct (c <? 128)%N; [|destruct (c <? 2048)%N; [|destruct (c <? 65536)%N]];
      eauto. }
  destruct Hbytes as (b & bs & ->). cbn [app flat_map].
  unfold plus_quoter. destruct (always_safe b); [|destruct (is_chr " " b)];
    discriminate.
Qed.

Lemma quoted_chr_not a c :
  quoted_chr (N_of_ascii a) = false -> quoted_chr c = true -> is_chr a c = false.
Proof.
  intros Ha Hc. unfold is_chr. apply N.eqb_neq. intros ->. congruence.
Qed.

Lemma quote_plus_without a s :
  quoted_chr (N_of_ascii a) = false -> valid s ->
  Forall (fun c => is_chr a c = false) (quote_plus s).
Proof.
  intros Ha Hs. eapply Forall_impl; [exact (quote_plus_chars s Hs)|].
  intros c Hc. exact (quoted_chr_not a c Ha Hc).
Qed.

(** One field [k=v] of an encoded query. *)
Definition field (kv : str * str) : str :=
  quote_plus (fst kv) ++ py "=" ++ quote_plus (snd kv).

(** What the loop of [parse_qsl] makes of one field. *)
Definition parse_field (keep_blank_values : bool) (name_value : str)
  : list (str * str) :=
  if negb (nonempty name_value) then []
  else
    let has_eq := contains "=" name_value in
    if negb has_eq && negb keep_blank_values then []
    else
      let '(n, v) :=
        if has_eq then split1 "=" name_value else (name_value, []) in
      if nonempty v || keep_blank_values
      then [(unquote (replace_chr "+" " " n), unquote (replace_chr "+" " " v))]
      else [].

Lemma parse_qsl_fields keep qs :
  parse_qsl keep qs =
  flat_map (parse_field keep) (if nonempty qs then split "&" qs else []).
Proof. reflexivity. Qed.

Lemma nonempty_true s : s <> [] -> nonempty s = true.
Proof. destruct s; [contradiction | reflexivity]. Qed.

Lemma parse_field_field k v :
  valid k -> valid v -> v <> [] -> parse_field false (field (k, v)) = [(k, v)].
Proof.
  intros Hk Hv Hne. unfold parse_field, field. cbn [fst snd].
  assert (Hsep : Forall (fun c => is_chr "=" c = false) (quote_plus k))
    by (now apply quote_plus_without).
  destruct (take_until_stop (is_chr "=") (quote_plus k) (N_of_ascii "=")
              (quote_plus v) Hsep eq_refl) as [Htake Hdrop].
  change (py "=" ++ quote_plus v) with (N_of_ascii "=" :: quote_plus v).
  rewrite nonempty_true by (destruct (quote_plus k); discriminate).
  rewrite contains_app. cbn [contains existsb].
  replace (is_chr "=" (N_of_ascii "=")) with true by reflexivity.
  rewrite orb_true_r. cbn [negb andb orb]. unfold split1.
  rewrite Htake, Hdrop. cbn [tail].
  rewrite (nonempty_true _ (quote_plus_nonempty v Hne)). cbn [orb].
  now rewrite !unquote_quote_plus.
Qed.

Lemma split_last a x :
  Forall (fun c => is_chr a c = false) x -> split a x = [x].
Proof.
  induction 1 as [|c x Hc _ IH]; simpl; [reflexivity|]. now rewrite Hc, IH.
Qed.

Lemma split_first a x rest :
  Forall (fun c => is_chr a c = false) x ->
  split a (x ++ N_of_ascii a :: rest) = x :: split a rest.
Proof.
  induction 1 as [|c x Hc _ IH]; simpl.
  - replace (is_chr a (N_of_ascii a)) with true; [reflexivity|].
    symmetry. apply N.eqb_refl.
  - now rewrite Hc, IH.
Qed.

Lemma split_join a fields :
  fields <> [] -> Forall (Forall (fun c => is_chr a c = false)) fields ->
  split a (join a fields) = fields.
Proof.
  intros Hne Hfields. induction Hfields as [|x fields Hx Hrest IH]; [contradiction|].
  destruct fields as [|y fields].
  - simpl. now apply split_last.
  - change (join a (x :: y :: fields)) with (x ++ N_of_ascii a :: join a (y :: fields)).
    rewrite (split_first a x _ Hx), IH; [reflexivity | discriminate].
Qed.

Lemma join_nonempty a x fields : x <> [] -> join a (x :: fields) <> [].
Proof.
  intros Hx. destruct fields; simpl; [exact Hx|].
  destruct x; [contradiction | discriminate].
Qed.

(** The name-value pairs of a dictionary, in the order [urlencode] writes
    them. *)
Definition pairs (d : dict) : list (str * str) :=
  flat_map (fun kv => map (pair (fst kv)) (snd kv)) d.

Lemma urlencode_pairs d : urlencode d = join "&" (map field (pairs d)).
Proof.
  unfold urlencode, pairs. f_equal.
  induction d as [|[k vs] d IH]; [reflexivity|].
  cbn [flat_map fst snd]. rewrite map_app, map_map, <- IH. reflexivity.
Qed.

Definition pair_ok (kv : str * str) : Prop :=
  valid (fst kv) /\ valid (snd kv) /\ snd kv <> [].

Lemma field_without_amp kv :
  pair_ok kv -> Forall (fun c => is_chr "&" c = false) (field kv).
Proof.
  intros (Hk & Hv & _). unfold field.
  apply Forall_app. split; [now apply quote_plus_without|].
  constructor; [reflexivity | now apply quote_plus_without].
Qed.

Lemma field_nonempty kv : field kv <> [].
Proof. unfold field. destruct (quote_plus (fst kv)); discriminate. Qed.

Lemma parse_qsl_encoded ps :
  Forall pair_ok ps -> parse_qsl false (join "&" (map field ps)) = ps.
Proof.
  intros Hps. rewrite parse_qsl_fields.
  destruct ps as [|p ps]; [reflexivity|].
  rewrite nonempty_true by (apply join_nonempty, field_nonempty).
  rewrite split_join.
  - induction Hps as [|[k v] qs (Hk & Hv & Hne) _ IH]; [reflexivity|].
    cbn [map flat_map]. rewrite (parse_field_field k v Hk Hv Hne), IH.
    reflexivity.
  - discriminate.
  - apply Forall_forall. intros f Hf.
    apply list_elem_of_In, in_map_iff in Hf as (kv & <- & Hkv).
    apply field_without_amp. rewrite Forall_forall in Hps.
    now apply Hps, list_elem_of_In.
Qed.

(** ** Dictionaries *)

(** No key of [d] is [k]. *)
Fixpoint fresh (k : str) (d : dict) : Prop :=
  match d with
  | [] => True
  | (k', _) :: r => k' <> k /\ fresh k r
  end.

Fixpoint distinct_keys (d : dict) : Prop :=
  match d with
  | [] => True
  | (k, _) :: r => fresh k r /\ distinct_keys r
  end.

Lemma dict_get_fresh d k : fresh k d <-> dict_get d k = None.
Proof.
  induction d as [|[k' v] d IH]; simpl; [easy|].
  destruct (bool_decide_reflect (k' = k)) as [->|Hne].
  - split; [intros [H _]; contradiction | discriminate].
  - rewrite IH. tauto.
Qed.

Lemma fresh_app k a b : fresh k (a ++ b) <-> fresh k a /\ fresh k b.
Proof.
  induction a as [|[k' v] a IH]; simpl; [tauto|]. rewrite IH. tauto.
Qed.

Lemma dict_get_app_fresh a b k : fresh k a -> dict_get (a ++ b) k = dict_get b k.
Proof.
  induction a as [|[k' v] a IH]; simpl; [reflexivity|].
  intros [Hne Ha]. rewrite bool_decide_eq_false_2 by exact Hne. now apply IH.
Qed.

Lemma dict_set_app_fresh a b k v :
  fresh k a -> dict_set (a ++ b) k v = a ++ dict_set b k v.
Proof.
  induction a as [|[k' v'] a IH]; simpl; [reflexivity|].
  intros [Hne Ha]. rewrite bool_decide_eq_false_2 by exact Hne.
  now rewrite IH.
Qed.

Lemma fresh_dict_set d k k' v :
  fresh k' d -> k <> k' -> fresh k' (dict_set d k v).
Proof.
  induction d as [|[k0 v0] d IH]; simpl; [easy|].
  intros [Hne Hd] Hk. destruct (bool_decide (k0 = k)); simpl; [easy|].
  split; [exact Hne | now apply IH].
Qed.

Lemma distinct_keys_dict_set d k v :
  distinct_keys d -> distinct_keys (dict_set d k v).
Proof.
  induction d as [|[k0 v0] d IH]; simpl; [easy|].
  intros [Hfresh Hd]. destruct (bool_decide_reflect (k0 = k)) as [->|Hne]; simpl.
  - easy.
  - split; [apply fresh_dict_set; [exact Hfresh | congruence] | now apply IH].
Qed.

Lemma distinct_keys_snoc d k v :
  distinct_keys d -> fresh k d -> distinct_keys (d ++ [(k, v)]).
Proof.
  induction d as [|[k0 v0] d IH]; simpl; [easy|].
  intros [Hfresh Hd] [Hne Hk]. split; [|now apply IH].
  apply fresh_app. split; [exact Hfresh|]. simpl. split; [congruence | exact I].
Qed.

Lemma distinct_keys_middle a k vs d :
  distinct_keys (a ++ (k, vs) :: d) -> fresh k a.
Proof.
  induction a as [|[k0 v0] a IH]; simpl; [easy|].
  intros [Hfresh Hrest]. apply fresh_app in Hfresh as [_ [Hne _]].
  split; [congruence | now apply IH].
Qed.

Lemma dict_get_set d k v : dict_get (dict_set d k v) k = Some v.
Proof.
  induction d as [|[k0 v0] d IH]; simpl.
  - now rewrite bool_decide_eq_true_2.
  - destruct (bool_decide_reflect (k0 = k)) as [->|Hne]; simpl.
    + now rewrite bool_decide_eq_true_2.
    + now rewrite bool_decide_eq_false_2.
Qed.

Lemma dict_get_set_other d k k' v :
  k <> k' -> dict_get (dict_set d k v) k' = dict_get d k'.
Proof.
  intros Hk. induction d as [|[k0 v0] d IH]; simpl.
  - now rewrite bool_decide_eq_false_2.
  - destruct (bool_decide_reflect (k0 = k)) as [Heq|Hne]; simpl.
    + subst k0. now rewrite !bool_decide_eq_false_2 by exact Hk.
    + now rewrite IH.
Qed.

Lemma dict_set_In d k v : In (k, v) (dict_set d k v).
Proof.
  induction d as [|[k0 v0] d IH]; simpl; [now left|].
  destruct (bool_decide (k0 = k)); simpl; [now left | now right].
Qed.

Lemma Forall_dict_set (P : str * list str -> Prop) d k v :
  Forall P d -> P (k, v) -> Forall P (dict_set d k v).
Proof.
  intros Hd Hkv. induction Hd as [|[k0 v0] d H0 Hd IH]; simpl.
  - constructor; [exact Hkv | constructor].
  - destruct (bool_decide (k0 = k)); constructor; assumption.
Qed.

Lemma dict_get_Forall (P : str * list str -> Prop) d k vs :
  Forall P d -> dict_get d k = Some vs -> P (k, vs).
Proof.
  induction 1 as [|[k0 v0] d H0 _ IH]; simpl; [discriminate|].
  destruct (bool_decide_reflect (k0 = k)) as [->|Hne]; [now intros [= <-] | exact IH].
Qed.

(** Adding the values of one key, then of all keys. *)
Lemma parse_qs_add_more k vs :
  forall acc l,
    fresh k acc ->
    fold_left parse_qs_add (map (pair k) vs) (acc ++ [(k, l)]) =
    acc ++ [(k, l ++ vs)].
Proof.
  induction vs as [|v vs IH]; intros acc l Hacc; simpl.
  - now rewrite app_nil_r.
  - unfold parse_qs_add at 2. cbn [fst snd].
    rewrite (dict_get_app_fresh acc _ k Hacc). simpl.
    rewrite bool_decide_eq_true_2 by reflexivity.
    rewrite (dict_set_app_fresh acc _ k _ Hacc). simpl.
    rewrite bool_decide_eq_true_2 by reflexivity.
    rewrite (IH acc (l ++ [v]) Hacc), <- app_assoc. reflexivity.
Qed.

Lemma parse_qs_add_pairs d :
  forall acc,
    distinct_keys (acc ++ d) -> Forall (fun kv => snd kv <> []) d ->
    fold_left parse_qs_add (pairs d) acc = acc ++ d.
Proof.
  induction d as [|[k vs] d IH]; intros acc Hkeys Hvals.
  - simpl. now rewrite app_nil_r.
  - unfold pairs. cbn [flat_map fst snd]. rewrite fold_left_app.
    pose proof (distinct_keys_middle acc k vs d Hkeys) as Hfresh.
    destruct vs as [|v vs]; [exfalso; exact (Forall_inv Hvals eq_refl)|].
    cbn [map fold_left].
    assert (Hfirst : parse_qs_add acc (k, v) = acc ++ [(k, [v])]).
    { unfold parse_qs_add. cbn [fst snd].
      now rewrite (proj1 (dict_get_fresh acc k) Hfresh). }
    rewrite Hfirst, (parse_qs_add_more k vs acc [v] Hfresh).
    change (fold_left parse_qs_add (pairs d) (acc ++ [(k, [v] ++ vs)]) =
            acc ++ (k, v :: vs) :: d).
    rewrite IH.
    + now rewrite <- app_assoc.
    + now rewrite <- app_assoc.
    + exact (Forall_inv_tail Hvals).
Qed.

(** What [parse_qs] returns: distinct keys, each with at least one value,
    all strings valid and no value blank. *)
Definition entry_ok (kv : str * list str) : Prop :=
  valid (fst kv) /\ snd kv <> []
  /\ Forall (fun v => valid v /\ v <> []) (snd kv).

Definition dict_ok (d : dict) : Prop := distinct_keys d /\ Forall entry_ok d.

Lemma pairs_ok d : Forall entry_ok d -> Forall pair_ok (pairs d).
Proof.
  induction 1 as [|[k vs] d (Hk & _ & Hvs) _ IH]; [constructor|].
  unfold pairs. cbn [flat_map fst snd]. apply Forall_app. split; [|exact IH].
  simpl in Hk, Hvs. induction Hvs as [|v vs [Hv Hne] _ IHvs]; simpl; constructor.
  - now repeat split.
  - exact IHvs.
Qed.

Lemma parse_qs_urlencode d : dict_ok d -> parse_qs (urlencode d) = d.
Proof.
  intros [Hkeys Hvals]. unfold parse_qs, parse_qs_with.
  rewrite urlencode_pairs, (parse_qsl_encoded _ (pairs_ok d Hvals)).
  rewrite (parse_qs_add_pairs d []); [reflexivity | exact Hkeys|].
  eapply Forall_impl; [exact Hvals|]. now intros kv (_ & Hne & _).
Qed.

Lemma parse_qs_add_ok d nv : dict_ok d -> pair_ok nv -> dict_ok (parse_qs_add d nv).
Proof.
  intros [Hkeys Hvals] (Hn & Hv & Hne). unfold parse_qs_add.
  destruct (dict_get d (fst nv)) as [vs|] eqn:Hget.
  - split; [now apply distinct_keys_dict_set|].
    apply Forall_dict_set; [exact Hvals|].
    destruct (dict_get_Forall entry_ok d _ vs Hvals Hget) as (_ & _ & Hvs).
    split; [exact Hn|]. split; [destruct vs; discriminate|].
    apply Forall_app. split; [exact Hvs | now repeat constructor].
  - split.
    + apply distinct_keys_snoc; [exact Hkeys | now apply dict_get_fresh].
    + apply Forall_app. split; [exact Hvals|].
      constructor; [|constructor]. split; [exact Hn|].
      split; [discriminate | now repeat constructor].
Qed.

(** *** What [parse_qs] returns *)

Lemma unquote_to_bytes_nil s : unquote_to_bytes s = [] -> s = [].
Proof.
  destruct s as [|c r]; [reflexivity|]. cbn [unquote_to_bytes].
  destruct (is_chr "%" c); [|discriminate].
  destruct r as [|h [|l r']]; try discriminate.
  destruct (hex_value h); [destruct (hex_value l)|]; discriminate.
Qed.

Lemma unquote_runs_nil s : forall run, unquote_runs s run = [] -> s = [] /\ run = [].
Proof.
  induction s as [|c s IH]; intros run; cbn [unquote_runs].
  - intros H%utf8_decode_nil%unquote_to_bytes_nil. easy.
  - destruct (c <? 128)%N.
    + intros [_ H]%IH. destruct run; discriminate H.
    + intros H. apply app_eq_nil in H as [_ H]. discriminate H.
Qed.

Lemma unquote_nonempty s : s <> [] -> unquote s <> [].
Proof.
  intros Hs. unfold unquote. destruct (contains "%" s); simpl; [|exact Hs].
  intros [H _]%unquote_runs_nil. contradiction.
Qed.

Lemma unquote_runs_valid s :
  valid s -> forall run, valid (unquote_runs s run).
Proof.
  induction 1 as [|c s Hc _ IH]; intros run; cbn [unquote_runs].
  - apply utf8_decode_valid.
  - destruct (c <? 128)%N; [apply IH|].
    apply Forall_app. split; [apply utf8_decode_valid|].
    constructor; [exact Hc | apply IH].
Qed.

Lemma unquote_valid s : valid s -> valid (unquote s).
Proof.
  intros Hs. unfold unquote. destruct (contains "%" s); simpl; [|exact Hs].
  now apply unquote_runs_valid.
Qed.

Lemma scalar_ascii a : scalar (N_of_ascii a).
Proof. left. pose proof (N_ascii_bounded a). lia. Qed.

Lemma replace_chr_valid a b s : valid s -> valid (replace_chr a b s).
Proof.
  unfold replace_chr. induction 1 as [|c s Hc _ IH]; simpl; constructor; [|exact IH].
  destruct (is_chr a c); [apply scalar_ascii | exact Hc].
Qed.

Lemma replace_chr_nonempty a b s : s <> [] -> replace_chr a b s <> [].
Proof. destruct s; [contradiction | discriminate]. Qed.

Lemma nonempty_inv s : nonempty s = true -> s <> [].
Proof. destruct s; [discriminate | discriminate]. Qed.

Lemma parse_field_ok name_value :
  valid name_value -> Forall pair_ok (parse_field false name_value).
Proof.
  intros Hnv. unfold parse_field.
  destruct (nonempty name_value); cbn [negb]; [|constructor].
  rewrite andb_true_r.
  destruct (contains "=" name_value); cbn [negb]; [|constructor].
  unfold split1. rewrite orb_false_r.
  destruct (nonempty (tail (drop_until (is_chr "=") name_value))) eqn:Hv;
    [|constructor].
  constructor; [|constructor]. repeat split; cbn [fst snd].
  - apply unquote_valid, replace_chr_valid, Forall_take_until, Hnv.
  - apply unquote_valid, replace_chr_valid, Forall_tail, Forall_drop_until, Hnv.
  - apply unquote_nonempty, replace_chr_nonempty, nonempty_inv, Hv.
Qed.

Lemma split_valid a s : valid s -> Forall valid (split a s).
Proof.
  induction 1 as [|c s Hc _ IH]; cbn [split].
  - repeat constructor.
  - destruct (is_chr a c).
    + constructor; [constructor | exact IH].
    + destruct (split a s) as [|f fs];
        [constructor; [constructor; [exact Hc | constructor] | constructor]|].
      constructor; [|exact (Forall_inv_tail IH)].
      constructor; [exact Hc | exact (Forall_inv IH)].
Qed.

Lemma parse_qsl_ok qs : valid qs -> Forall pair_ok (parse_qsl false qs).
Proof.
  intros Hqs. rewrite parse_qsl_fields.
  assert (Hfields : Forall valid (if nonempty qs then split "&" qs else [])).
  { destruct (nonempty qs); [now apply split_valid | constructor]. }
  induction Hfields as [|f fs Hf _ IH]; cbn [flat_map]; [constructor|].
  apply Forall_app. split; [now apply parse_field_ok | exact IH].
Qed.

Lemma parse_qs_ok qs : valid qs -> dict_ok (parse_qs qs).
Proof.
  intros Hqs. unfold parse_qs, parse_qs_with.
  pose proof (parse_qsl_ok qs Hqs) as Hps.
  assert (Hacc : dict_ok []) by (split; [exact I | constructor]).
  revert Hacc. generalize (@nil (str * list str)) as acc.
  induction Hps as [|p ps Hp _ IH]; intros acc Hacc; cbn [fold_left]; [exact Hacc|].
  apply IH. now apply parse_qs_add_ok.
Qed.

(** *** The text of a number *)

Definition numeral_chr (c : N) : bool := ascii_digit c || is_chr "-" c.

Lemma string_of_uint_digits u :
  Forall (fun c => ascii_digit c = true) (py (NilEmpty.string_of_uint u)).
Proof.
  induction u as [|u IH|u IH|u IH|u IH|u IH|u IH|u IH|u IH|u IH|u IH];
    cbn [NilEmpty.string_of_uint]; try constructor; try reflexivity; exact IH.
Qed.

Lemma str_of_int_chars n :
  Forall (fun c => numeral_chr c = true) (str_of_int n) /\ str_of_int n <> [].
Proof.
  unfold str_of_int.
  assert (Huint : forall u,
             Forall (fun c => numeral_chr c = true) (py (NilZero.string_of_uint u))
             /\ py (NilZero.string_of_uint u) <> []).
  { intros u. split.
    - destruct u; try (repeat constructor; fail);
        (eapply Forall_impl; [apply string_of_uint_digits|]);
        intros c Hc; unfold numeral_chr; now rewrite Hc.
    - destruct u; discriminate. }
  destruct (Z.to_int n) as [u|u]; cbn [NilZero.string_of_int].
  - apply Huint.
  - split; [|discriminate]. constructor; [reflexivity | apply Huint].
Qed.

Lemma numeral_safe c : numeral_chr c = true -> always_safe c = true.
Proof.
  unfold numeral_chr, always_safe. intros [->| ->]%orb_true_iff.
  - now rewrite orb_true_r.
  - now rewrite !orb_true_r.
Qed.

Lemma valid_safe s : Forall (fun c => always_safe c = true) s -> valid s.
Proof.
  intros Hs. eapply Forall_impl; [exact Hs|]. intros c Hc%always_safe_ascii.
  left. lia.
Qed.

Lemma quote_plus_safe s :
  Forall (fun c => always_safe c = true) s -> quote_plus s = s.
Proof.
  intros Hs. rewrite quote_plus_bytes. unfold utf8_encode.
  induction Hs as [|c s Hc _ IH]; [reflexivity|]. cbn [flat_map].
  unfold utf8_encode_chr at 1.
  destruct (N.ltb_spec c 128) as [_|Hge];
    [|apply always_safe_ascii in Hc; lia].
  cbn [app flat_map]. unfold plus_quoter at 1. rewrite Hc.
  cbn [app]. f_equal. exact IH.
Qed.

(** ** Splitting a URL that was just put together *)

(** *** Path parameters *)

(** The choice [urlparse] makes between [_splitparams] and no parameters,
    and the way [urlunparse] puts the parameters back. *)
Definition split_params (scheme sp : str) : str * str :=
  if bool_decide (scheme ∈ uses_params) && contains ";" sp
  then splitparams sp
  else (sp, []).

Definition join_params (path params : str) : str :=
  if nonempty params then path ++ py ";" ++ params else path.

Lemma urlparse_split url :
  urlparse url =
  let s := urlsplit url in
  let pp := split_params (split_scheme s) (split_path s) in
  {| scheme := split_scheme s; netloc := split_netloc s; path := fst pp;
     params := snd pp; query := split_query s; fragment := split_fragment s |}.
Proof.
  unfold urlparse, split_params. cbv zeta.
  destruct (bool_decide _ && contains ";" _); [|reflexivity].
  now destruct (splitparams _).
Qed.

Lemma urlunparse_join p :
  urlunparse p =
  urlunsplit (scheme p) (netloc p) (join_params (path p) (params p)) (query p)
    (fragment p).
Proof. reflexivity. Qed.

Definition slash_free (s : str) : Prop := Forall (fun c => is_chr "/" c = false) s.

Definition ends_with_slash (s : str) : Prop :=
  s = [] \/ exists b, s = b ++ [N_of_ascii "/"].

Lemma last_segment s :
  exists before seg,
    s = before ++ seg /\ slash_free seg /\ ends_with_slash before
    /\ rev (take_until (is_chr "/") (rev s)) = seg
    /\ rev (drop_until (is_chr "/") (rev s)) = before.
Proof.
  exists (rev (drop_until (is_chr "/") (rev s))),
         (rev (take_until (is_chr "/") (rev s))).
  split; [|split; [|split; [|split; reflexivity]]].
  - rewrite <- rev_app_distr, take_drop_until. symmetry. apply rev_involutive.
  - apply Forall_rev, Forall_take_until_false.
  - destruct (drop_until_head (is_chr "/") (rev s)) as [-> | (c & r & -> & Hc)].
    + now left.
    + right. exists (rev r). cbn [rev]. now rewrite (is_chr_eq "/" c Hc).
Qed.

Lemma last_segment_of before seg :
  slash_free seg -> ends_with_slash before ->
  rev (take_until (is_chr "/") (rev (before ++ seg))) = seg
  /\ rev (drop_until (is_chr "/") (rev (before ++ seg))) = before.
Proof.
  intros Hseg Hbefore. rewrite rev_app_distr.
  apply Forall_rev in Hseg.
  destruct Hbefore as [-> | (b & ->)].
  - simpl. rewrite app_nil_r.
    destruct (take_until_all _ _ Hseg) as [-> ->].
    split; [apply rev_involutive | reflexivity].
  - rewrite rev_app_distr. cbn [rev app].
    destruct (take_until_stop (is_chr "/") (rev seg) (N_of_ascii "/") (rev b)
                Hseg eq_refl) as [-> ->].
    split; [apply rev_involutive|]. cbn [rev]. now rewrite rev_involutive.
Qed.

Lemma splitparams_of before seg :
  slash_free seg -> ends_with_slash before ->
  splitparams (before ++ seg) =
  if contains ";" seg
  then (before ++ take_until (is_chr ";") seg,
        tail (drop_until (is_chr ";") seg))
  else (before ++ seg, []).
Proof.
  intros Hseg Hbefore. unfold splitparams.
  destruct (last_segment_of before seg Hseg Hbefore) as [-> ->]. reflexivity.
Qed.

Lemma contains_true_split a s :
  contains a s = true ->
  s = take_until (is_chr a) s ++ N_of_ascii a :: tail (drop_until (is_chr a) s).
Proof.
  intros Hs. rewrite <- (take_drop_until (is_chr a) s) at 1. f_equal.
  destruct (drop_until_head (is_chr a) s) as [Hnil | (c & r & Hdrop & Hc)].
  - exfalso. pose proof (take_drop_until (is_chr a) s) as Heq.
    rewrite Hnil, app_nil_r in Heq.
    assert (Hno : contains a s = false)
      by (apply contains_false; rewrite <- Heq; apply Forall_take_until_false).
    congruence.
  - rewrite Hdrop. simpl. now rewrite (is_chr_eq a c Hc).
Qed.

(** Putting the parameters back gives the path that was split, or that
    path without a final [;], and it splits in the same way. *)
Lemma split_join_params scheme sp path params :
  split_params scheme sp = (path, params) ->
  (join_params path params = sp
   \/ sp = join_params path params ++ [N_of_ascii ";"])
  /\ split_params scheme (join_params path params) = (path, params).
Proof.
  intros Hpp. pose proof Hpp as Hsplit0. unfold split_params in Hpp.
  destruct (bool_decide (scheme ∈ uses_params) && contains ";" sp) eqn:Hcond.
  2:{ injection Hpp as <- <-. unfold join_params. cbn [nonempty].
      split; [now left | exact Hsplit0]. }
  destruct (last_segment sp) as (before & seg & -> & Hseg & Hbefore & _).
  rewrite (splitparams_of before seg Hseg Hbefore) in Hpp.
  destruct (contains ";" seg) eqn:Hsemi.
  2:{ injection Hpp as <- <-. unfold join_params. cbn [nonempty].
      split; [now left | exact Hsplit0]. }
  pose proof (contains_true_split ";" seg Hsemi) as Hseg_eq.
  injection Hpp as <- <-.
  set (x := take_until (is_chr ";") seg) in *.
  destruct (tail (drop_until (is_chr ";") seg)) as [|c y] eqn:Hy;
    unfold join_params; cbn [nonempty].
  - split.
    + right. rewrite <- app_assoc. f_equal. exact Hseg_eq.
    + assert (Hx : slash_free x) by (unfold x; now apply Forall_take_until).
      unfold split_params.
      destruct (bool_decide (scheme ∈ uses_params) && contains ";" (before ++ x));
        [|reflexivity].
      rewrite (splitparams_of before x Hx Hbefore).
      replace (contains ";" x) with false; [reflexivity|].
      symmetry. apply contains_false. unfold x. apply Forall_take_until_false.
  - assert (Hsame : (before ++ x) ++ py ";" ++ c :: y = before ++ seg).
    { rewrite <- app_assoc. f_equal. symmetry. exact Hseg_eq. }
    rewrite Hsame. split; [now left | exact Hsplit0].
Qed.

(** *** The five components *)

(** [urlsplit] in two steps: the scheme, then the rest. *)
Definition split_scheme_part (u : str) : str * str :=
  let head := take_until (is_chr ":") u in
  if contains ":" u && negb (bool_decide (head = []))
     && match u with c :: _ => ascii_alpha c | [] => false end
     && forallb scheme_char head
  then (map lower_chr head, tail (drop_until (is_chr ":") u))
  else ([], u).

Definition split_rest (scheme u : str) : SplitResult :=
  let has_netloc := starts_with (py "//") u in
  let netloc := if has_netloc then take_until netloc_delim (drop 2 u) else [] in
  let u := if has_netloc then drop_until netloc_delim (drop 2 u) else u in
  let v := take_until (is_chr "#") u in
  {| split_scheme := scheme; split_netloc := netloc;
     split_path := take_until (is_chr "?") v;
     split_query := tail (drop_until (is_chr "?") v);
     split_fragment := tail (drop_until (is_chr "#") u) |}.

Definition url_text (url : str) : str :=
  List.filter (fun c => negb (unsafe_url_byte c)) (lstrip_by c0_control_or_space url).

Lemma urlsplit_parts url :
  urlsplit url =
  split_rest (fst (split_scheme_part (url_text url)))
             (snd (split_scheme_part (url_text url))).
Proof.
  unfold urlsplit, split_scheme_part, split_rest, url_text. cbv zeta.
  match goal with |- context [if ?c then (map lower_chr _, _) else _] =>
    destruct c end; cbn [fst snd];
  match goal with |- context [starts_with ?a ?b] =>
    destruct (starts_with a b) end;
  rewrite !split1_or_whole; reflexivity.
Qed.

Definition clean (s : str) : Prop := Forall (fun c => unsafe_url_byte c = false) s.

Definition scheme_ok (s : str) : Prop :=
  Forall (fun c => scheme_char c = true) s
  /\ map lower_chr s = s
  /\ match s with c :: _ => ascii_alpha c = true | [] => True end.

(** Empty, or starting with a slash. *)
Definition rooted (s : str) : Prop := s = [] \/ exists r, s = N_of_ascii "/" :: r.

Lemma lower_chr_idem c : lower_chr (lower_chr c) = lower_chr c.
Proof.
  unfold lower_chr. destruct (in_range "A" "Z" c) eqn:Hup; [|now rewrite Hup].
  replace (in_range "A" "Z" (c + 32)) with false; [reflexivity|].
  revert Hup. unfold in_range. char_codes. intros [H1 H2]%andb_true_iff.
  apply N.leb_le in H1, H2. symmetry. apply andb_false_iff. right.
  apply N.leb_gt. lia.
Qed.

Lemma scheme_char_lower c : scheme_char c = true -> scheme_char (lower_chr c) = true.
Proof.
  unfold lower_chr. destruct (in_range "A" "Z" c) eqn:Hup; [|easy].
  intros _. unfold scheme_char, ascii_alpha.
  replace (in_range "a" "z" (c + 32)) with true; [reflexivity|].
  revert Hup. unfold in_range. char_codes. intros [H1 H2]%andb_true_iff.
  apply N.leb_le in H1, H2. symmetry. apply andb_true_iff.
  split; apply N.leb_le; lia.
Qed.

Lemma ascii_alpha_lower c : ascii_alpha c = true -> ascii_alpha (lower_chr c) = true.
Proof.
  unfold lower_chr. destruct (in_range "A" "Z" c) eqn:Hup; [|easy].
  intros _. unfold ascii_alpha.
  replace (in_range "a" "z" (c + 32)) with true; [reflexivity|].
  revert Hup. unfold in_range. char_codes. intros [H1 H2]%andb_true_iff.
  apply N.leb_le in H1, H2. symmetry. apply andb_true_iff.
  split; apply N.leb_le; lia.
Qed.

Lemma in_range_bounds lo hi c :
  in_range lo hi c = true -> (N_of_ascii lo <= c <= N_of_ascii hi)%N.
Proof.
  unfold in_range. intros [H1 H2]%andb_true_iff. apply N.leb_le in H1, H2. lia.
Qed.

Lemma scheme_char_bounds c :
  scheme_char c = true -> (43 <= c <= 122)%N /\ c <> 58%N.
Proof.
  unfold scheme_char, ascii_alpha, ascii_digit.
  rewrite !orb_true_iff.
  intros [[[[[H|H]|H]|H]|H]|H];
    first [apply in_range_bounds in H | apply is_chr_eq in H];
    revert H; char_codes; lia.
Qed.

Lemma scheme_char_class c :
  scheme_char c = true ->
  is_chr ":" c = false /\ unsafe_url_byte c = false
  /\ c0_control_or_space c = false.
Proof.
  intros [Hc Hne]%scheme_char_bounds.
  unfold is_chr, unsafe_url_byte, c0_control_or_space. char_codes.
  rewrite !orb_false_iff.
  repeat split; first [apply N.eqb_neq | apply N.leb_gt]; lia.
Qed.

Lemma url_text_clean url : clean (url_text url).
Proof.
  apply List.Forall_forall. intros c [_ Hc]%filter_In.
  now apply negb_true_iff in Hc.
Qed.

Lemma take_until_first p c s :
  take_until p (c :: s) <> [] -> exists r, take_until p (c :: s) = c :: r.
Proof. simpl. destruct (p c); [contradiction | eauto]. Qed.

Lemma split_scheme_part_ok u :
  clean u ->
  scheme_ok (fst (split_scheme_part u)) /\ clean (snd (split_scheme_part u)).
Proof.
  intros Hu. unfold split_scheme_part. cbv zeta.
  match goal with |- context [if ?c then (map lower_chr _, _) else _] =>
    destruct c eqn:Hcond end; cbn [fst snd].
  2:{ split; [|exact Hu]. repeat split. constructor. }
  apply andb_true_iff in Hcond as [Hcond Hall].
  apply andb_true_iff in Hcond as [Hcond Halpha].
  apply andb_true_iff in Hcond as [_ Hne].
  apply negb_true_iff, bool_decide_eq_false in Hne.
  split; [|apply Forall_tail, Forall_drop_until, Hu].
  rewrite forallb_forall in Hall.
  split; [|split].
  - apply List.Forall_forall. intros c (x & <- & Hx)%in_map_iff.
    apply scheme_char_lower, Hall, Hx.
  - rewrite map_map. apply map_ext. intros c. apply lower_chr_idem.
  - destruct u as [|c u]; [discriminate Halpha|].
    destruct (take_until_first _ c u Hne) as (r & ->). simpl.
    now apply ascii_alpha_lower.
Qed.

Lemma split_rest_ok scheme u :
  clean u ->
  Forall (fun c => netloc_delim c = false) (split_netloc (split_rest scheme u))
  /\ clean (split_netloc (split_rest scheme u))
  /\ Forall (fun c => is_chr "?" c = false) (split_path (split_rest scheme u))
  /\ Forall (fun c => is_chr "#" c = false) (split_path (split_rest scheme u))
  /\ clean (split_path (split_rest scheme u))
  /\ clean (split_fragment (split_rest scheme u))
  /\ (split_netloc (split_rest scheme u) <> [] ->
      rooted (split_path (split_rest scheme u))).
Proof.
  intros Hu. unfold split_rest. cbv zeta. cbn [split_netloc split_path split_fragment].
  destruct (starts_with (py "//") u).
  - assert (Hrest : clean (drop_until netloc_delim (drop 2 u))).
    { apply Forall_drop_until. unfold clean. now apply Forall_drop. }
    split; [apply Forall_take_until_false|].
    split; [apply Forall_take_until; unfold clean; now apply Forall_drop|].
    split; [apply Forall_take_until_false|].
    split; [apply Forall_take_until, Forall_take_until_false|].
    split; [apply Forall_take_until, Forall_take_until, Hrest|].
    split; [apply Forall_tail, Forall_drop_until, Hrest|].
    intros _.
    destruct (drop_until_head netloc_delim (drop 2 u)) as [-> | (c & r & -> & Hc)];
      [now left|].
    unfold netloc_delim in Hc.
    apply orb_true_iff in Hc as [Hc|Hc]; [apply orb_true_iff in Hc as [Hc|Hc]|].
    + apply is_chr_eq in Hc as ->. right. cbn. eauto.
    + apply is_chr_eq in Hc as ->. left. reflexivity.
    + apply is_chr_eq in Hc as ->. left. reflexivity.
  - split; [constructor|]. split; [constructor|].
    split; [apply Forall_take_until_false|].
    split; [apply Forall_take_until, Forall_take_until_false|].
    split; [apply Forall_take_until, Forall_take_until, Hu|].
    split; [apply Forall_tail, Forall_drop_until, Hu|].
    intros H. contradiction.
Qed.

(** *** Putting the components together and splitting again *)

Lemma filter_clean s :
  clean s -> List.filter (fun c => negb (unsafe_url_byte c)) s = s.
Proof.
  induction 1 as [|c s Hc _ IH]; simpl; [reflexivity|]. now rewrite Hc, IH.
Qed.

Lemma url_text_id c s :
  c0_control_or_space c = false -> clean (c :: s) -> url_text (c :: s) = c :: s.
Proof.
  intros Hc Hs. unfold url_text. cbn [lstrip_by]. rewrite Hc.
  now apply filter_clean.
Qed.

Lemma clean_app a b : clean a -> clean b -> clean (a ++ b).
Proof. intros Ha Hb. apply Forall_app. now split. Qed.

Lemma clean_cons c s : unsafe_url_byte c = false -> clean s -> clean (c :: s).
Proof. now constructor. Qed.

(** The text after the scheme: [//netloc path ?query #fragment]. *)
Definition after_scheme (netloc path query fragment : str) : str :=
  py "//" ++ netloc ++ path ++ py "?" ++ query
  ++ (if nonempty fragment then py "#" ++ fragment else []).

Lemma urlunsplit_shape scheme netloc path query fragment :
  netloc <> [] -> rooted path -> query <> [] ->
  urlunsplit scheme netloc path query fragment =
  (if nonempty scheme then scheme ++ py ":" else [])
  ++ after_scheme netloc path query fragment.
Proof.
  intros Hnetloc Hpath Hquery. unfold urlunsplit, after_scheme.
  rewrite (nonempty_true netloc Hnetloc), (nonempty_true query Hquery).
  cbn [orb].
  assert (Hroot : nonempty path && negb (starts_with (py "/") path) = false).
  { destruct Hpath as [-> | (r & ->)]; reflexivity. }
  rewrite Hroot.
  destruct (nonempty scheme); destruct (nonempty fragment);
    repeat rewrite <- app_assoc; rewrite ?app_nil_r; reflexivity.
Qed.

Lemma clean_after_scheme netloc path query fragment :
  clean netloc -> clean path -> clean query -> clean fragment ->
  clean (after_scheme netloc path query fragment).
Proof.
  intros Hn Hp Hq Hf. unfold after_scheme.
  apply clean_cons; [reflexivity|]. apply clean_cons; [reflexivity|].
  apply clean_app; [exact Hn|]. apply clean_app; [exact Hp|].
  apply clean_cons; [reflexivity|]. apply clean_app; [exact Hq|].
  destruct (nonempty fragment); [|constructor].
  apply clean_cons; [reflexivity | exact Hf].
Qed.

Lemma split_rest_after_scheme scheme netloc path query fragment :
  Forall (fun c => netloc_delim c = false) netloc ->
  rooted path ->
  Forall (fun c => is_chr "?" c = false) path ->
  Forall (fun c => is_chr "#" c = false) path ->
  Forall (fun c => is_chr "#" c = false) query ->
  split_rest scheme (after_scheme netloc path query fragment) =
  {| split_scheme := scheme; split_netloc := netloc; split_path := path;
     split_query := query; split_fragment := fragment |}.
Proof.
  intros Hnetloc Hroot Hpath_q Hpath_f Hquery.
  unfold after_scheme.
  set (fs := if nonempty fragment then py "#" ++ fragment else []).
  set (X := netloc ++ path ++ py "?" ++ query ++ fs).
  change (py "//" ++ X) with (N_of_ascii "/" :: N_of_ascii "/" :: X).
  unfold split_rest. cbv zeta.
  replace (starts_with (py "//") (N_of_ascii "/" :: N_of_ascii "/" :: X))
    with true by reflexivity.
  change (drop 2 (N_of_ascii "/" :: N_of_ascii "/" :: X)) with X.
  assert (Hdelim : exists c b, path ++ py "?" ++ query ++ fs = c :: b
                               /\ netloc_delim c = true).
  { destruct Hroot as [-> | (r & ->)]; eexists; eexists; split;
      try reflexivity; reflexivity. }
  destruct Hdelim as (c & b & Heq & Hc).
  unfold X. rewrite Heq.
  destruct (take_until_stop netloc_delim netloc c b Hnetloc Hc) as [-> ->].
  rewrite <- Heq.
  assert (Hfrag :
    take_until (is_chr "#") (path ++ py "?" ++ query ++ fs) = path ++ py "?" ++ query
    /\ tail (drop_until (is_chr "#") (path ++ py "?" ++ query ++ fs)) = fragment).
  { assert (Hno : Forall (fun c => is_chr "#" c = false) (path ++ py "?" ++ query)).
    { apply Forall_app. split; [exact Hpath_f|]. constructor; [reflexivity | exact Hquery]. }
    unfold fs. destruct fragment as [|f fragment]; cbn [nonempty].
    - rewrite !app_nil_r.
      destruct (take_until_all _ _ Hno) as [-> ->]. now split.
    - replace (path ++ py "?" ++ query ++ py "#" ++ f :: fragment)
        with ((path ++ py "?" ++ query) ++ N_of_ascii "#" :: f :: fragment)
        by (now rewrite <- !app_assoc).
      destruct (take_until_stop (is_chr "#") _ (N_of_ascii "#") (f :: fragment)
                  Hno eq_refl) as [-> ->]. now split. }
  destruct Hfrag as [-> ->].
  destruct (take_until_stop (is_chr "?") path (N_of_ascii "?") query
              Hpath_q eq_refl) as [Htake Hdrop].
  change (path ++ py "?" ++ query) with (path ++ N_of_ascii "?" :: query).
  now rewrite Htake, Hdrop.
Qed.

Lemma split_scheme_part_none c s :
  ascii_alpha c = false -> split_scheme_part (c :: s) = ([], c :: s).
Proof.
  intros Hc. unfold split_scheme_part. cbv zeta. rewrite Hc.
  now rewrite andb_false_r.
Qed.

Lemma split_scheme_part_some scheme rest :
  scheme_ok scheme -> scheme <> [] ->
  split_scheme_part (scheme ++ py ":" ++ rest) = (scheme, rest).
Proof.
  intros (Hchars & Hlower & Hfirst) Hne. unfold split_scheme_part. cbv zeta.
  assert (Hcolon : Forall (fun c => is_chr ":" c = false) scheme).
  { eapply Forall_impl; [exact Hchars|]. now intros c (H & _)%scheme_char_class. }
  destruct (take_until_stop (is_chr ":") scheme (N_of_ascii ":") rest Hcolon eq_refl)
    as [Htake Hdrop].
  change (scheme ++ py ":" ++ rest) with (scheme ++ N_of_ascii ":" :: rest).
  rewrite Htake, Hdrop, Hlower.
  rewrite contains_app. cbn [contains existsb].
  replace (is_chr ":" (N_of_ascii ":")) with true by reflexivity.
  rewrite orb_true_l, orb_true_r.
  rewrite bool_decide_eq_false_2 by exact Hne. cbn [andb negb].
  destruct scheme as [|c scheme]; [contradiction|].
  cbn [app]. rewrite Hfirst.
  replace (forallb scheme_char (c :: scheme)) with true; [reflexivity|].
  symmetry. apply forallb_forall. intros x Hx.
  rewrite List.Forall_forall in Hchars. now apply Hchars.
Qed.

(** [urlsplit] undoes [urlunsplit] on components such as [urlsplit]
    returns, when there is a host and a query. *)
Lemma urlsplit_urlunsplit scheme netloc path query fragment :
  scheme_ok scheme ->
  netloc <> [] -> Forall (fun c => netloc_delim c = false) netloc -> clean netloc ->
  rooted path -> Forall (fun c => is_chr "?" c = false) path ->
  Forall (fun c => is_chr "#" c = false) path -> clean path ->
  query <> [] -> Forall (fun c => is_chr "#" c = false) query -> clean query ->
  clean fragment ->
  urlsplit (urlunsplit scheme netloc path query fragment) =
  {| split_scheme := scheme; split_netloc := netloc; split_path := path;
     split_query := query; split_fragment := fragment |}.
Proof.
  intros Hscheme Hnetloc Hdelim Hcn Hroot Hpq Hpf Hcp Hquery Hqf Hcq Hcf.
  rewrite (urlunsplit_shape _ _ _ _ _ Hnetloc Hroot Hquery), urlsplit_parts.
  pose proof (clean_after_scheme netloc path query fragment Hcn Hcp Hcq Hcf) as Hrest.
  destruct scheme as [|c sch]; cbn [nonempty].
  - cbn [app].
    set (X := netloc ++ path ++ py "?" ++ query
              ++ (if nonempty fragment then py "#" ++ fragment else [])).
    replace (url_text (after_scheme netloc path query fragment))
      with (after_scheme netloc path query fragment)
      by (symmetry;
          exact (url_text_id (N_of_ascii "/") (N_of_ascii "/" :: X) eq_refl Hrest)).
    replace (split_scheme_part (after_scheme netloc path query fragment))
      with (@nil N, after_scheme netloc path query fragment)
      by (symmetry;
          exact (split_scheme_part_none (N_of_ascii "/") (N_of_ascii "/" :: X)
                   eq_refl)).
    cbn [fst snd].
    now apply (split_rest_after_scheme [] netloc path query fragment).
  - pose proof Hscheme as (Hchars & _).
    assert (Hc0 : c0_control_or_space c = false)
      by (now apply Forall_inv, scheme_char_class in Hchars).
    assert (Hclean : clean ((c :: sch) ++ py ":"
                            ++ after_scheme netloc path query fragment)).
    { apply clean_app; [|apply clean_cons; [reflexivity | exact Hrest]].
      eapply Forall_impl; [exact Hchars|].
      now intros y (_ & H & _)%scheme_char_class. }
    rewrite <- app_assoc.
    replace (url_text ((c :: sch) ++ py ":"
                       ++ after_scheme netloc path query fragment))
      with ((c :: sch) ++ py ":" ++ after_scheme netloc path query fragment)
      by (symmetry; exact (url_text_id c _ Hc0 Hclean)).
    rewrite (split_scheme_part_some (c :: sch) _ Hscheme) by discriminate.
    cbn [fst snd].
    now apply (split_rest_after_scheme (c :: sch) netloc path query fragment).
Qed.

(** *** The encoded query *)

Lemma quoted_chr_clean c : quoted_chr c = true -> unsafe_url_byte c = false.
Proof.
  intros Hc. unfold unsafe_url_byte.
  destruct (N.eqb_spec c 9) as [->|_]; [discriminate Hc|].
  destruct (N.eqb_spec c 13) as [->|_]; [discriminate Hc|].
  destruct (N.eqb_spec c 10) as [->|_]; [discriminate Hc|].
  reflexivity.
Qed.

(** What a character of an encoded query is not. *)
Definition query_chr (c : N) : Prop :=
  is_chr "#" c = false /\ unsafe_url_byte c = false.

Lemma quoted_query_chr c : quoted_chr c = true -> query_chr c.
Proof.
  intros Hc. split; [exact (quoted_chr_not "#" c eq_refl Hc)|].
  now apply quoted_chr_clean.
Qed.

Lemma field_query_chr kv : pair_ok kv -> Forall query_chr (field kv).
Proof.
  intros (Hk & Hv & _). unfold field. apply Forall_app. split.
  - eapply Forall_impl; [exact (quote_plus_chars _ Hk)|]. apply quoted_query_chr.
  - constructor; [now split|].
    eapply Forall_impl; [exact (quote_plus_chars _ Hv)|]. apply quoted_query_chr.
Qed.

Lemma Forall_join (P : N -> Prop) a fields :
  P (N_of_ascii a) -> Forall (Forall P) fields -> Forall P (join a fields).
Proof.
  intros Ha. induction 1 as [|x fields Hx Hrest IH]; [constructor|].
  destruct fields as [|y fields]; [exact Hx|].
  change (join a (x :: y :: fields)) with (x ++ N_of_ascii a :: join a (y :: fields)).
  apply Forall_app. split; [exact Hx | now constructor].
Qed.

Lemma urlencode_query_chr d : Forall entry_ok d -> Forall query_chr (urlencode d).
Proof.
  intros Hd. rewrite urlencode_pairs. apply Forall_join; [now split|].
  pose proof (pairs_ok d Hd) as Hps.
  induction Hps as [|kv ps Hkv _ IH]; cbn [map]; constructor;
    [now apply field_query_chr | exact IH].
Qed.

Lemma pairs_In d k v vs : In (k, vs) d -> In v vs -> In (k, v) (pairs d).
Proof.
  intros Hd Hv. unfold pairs. apply in_flat_map. exists (k, vs).
  split; [exact Hd|]. cbn [fst snd]. now apply in_map.
Qed.

Lemma split_urlencode d :
  Forall entry_ok d -> d <> [] -> split "&" (urlencode d) = map field (pairs d).
Proof.
  intros Hd Hne. rewrite urlencode_pairs. apply split_join.
  - destruct d as [|[k vs] d]; [contradiction|].
    destruct (Forall_inv Hd) as (_ & Hvs & _). cbn [snd] in Hvs.
    destruct vs as [|v vs]; [contradiction|]. discriminate.
  - pose proof (pairs_ok d Hd) as Hps.
    induction Hps as [|kv ps Hkv _ IH]; cbn [map]; constructor;
      [now apply field_without_amp | exact IH].
Qed.

Lemma urlencode_nonempty d : Forall entry_ok d -> d <> [] -> urlencode d <> [].
Proof.
  intros Hd Hne Hnil. pose proof (split_urlencode d Hd Hne) as Hsplit.
  rewrite Hnil in Hsplit. cbn in Hsplit.
  destruct (pairs d) as [|kv ps]; [discriminate Hsplit|].
  cbn [map] in Hsplit. injection Hsplit as Hfield _.
  symmetry in Hfield. exact (field_nonempty kv Hfield).
Qed.

(** *** Validity through [urlsplit] *)

Lemma urlsplit_query_Forall (P : N -> Prop) url :
  Forall P url -> Forall P (split_query (urlsplit url)).
Proof.
  intros Hurl. rewrite urlsplit_parts.
  assert (Htext : Forall P (url_text url)).
  { unfold url_text. apply List.Forall_forall. intros c [Hc _]%filter_In.
    pose proof (Forall_lstrip_by P c0_control_or_space url Hurl) as Hs.
    rewrite List.Forall_forall in Hs. now apply Hs. }
  assert (Hrest : Forall P (snd (split_scheme_part (url_text url)))).
  { unfold split_scheme_part. cbv zeta.
    match goal with |- context [if ?c then (map lower_chr _, _) else _] =>
      destruct c end; cbn [snd];
      [apply Forall_tail, Forall_drop_until, Htext | exact Htext]. }
  unfold split_rest. cbv zeta. cbn [split_query].
  apply Forall_tail, Forall_drop_until, Forall_take_until.
  destruct (starts_with _ _); [|exact Hrest].
  apply Forall_drop_until. now apply Forall_drop.
Qed.

Lemma page_entry_ok n : entry_ok (py "page", [str_of_int n]).
Proof.
  destruct (str_of_int_chars n) as [Hchars Hne].
  assert (Hvalid : valid (str_of_int n)).
  { apply valid_safe. eapply Forall_impl; [exact Hchars|]. apply numeral_safe. }
  split; [|split]; cbn [fst snd].
  - apply valid_safe. repeat constructor.
  - discriminate.
  - constructor; [now split | constructor].
Qed.

Lemma page_field n : field (py "page", str_of_int n) = py "page=" ++ str_of_int n.
Proof.
  unfold field. cbn [fst snd].
  rewrite (quote_plus_safe (py "page")) by (repeat constructor).
  rewrite quote_plus_safe; [reflexivity|].
  eapply Forall_impl; [exact (proj1 (str_of_int_chars n))|]. apply numeral_safe.
Qed.

(** ** Rewriting the page parameter *)

Lemma Forall_without_last (P : N -> Prop) j sp :
  j = sp \/ sp = j ++ [N_of_ascii ";"] -> Forall P sp -> Forall P j.
Proof.
  intros [-> | ->] Hsp; [exact Hsp|]. now apply Forall_app in Hsp as [Hj _].
Qed.

Lemma rooted_without_last j sp :
  j = sp \/ sp = j ++ [N_of_ascii ";"] -> rooted sp -> rooted j.
Proof.
  intros [-> | ->] Hsp; [exact Hsp|].
  destruct j as [|c j]; [now left|]. right.
  destruct Hsp as [Hnil | (r & Hr)]; [discriminate Hnil|].
  injection Hr as -> _. eauto.
Qed.

Lemma set_page_param_parsed (url : str) (n : Z)
    (Hhost : netloc (urlparse url) <> []) (Hvalid : valid url) :
  scheme (urlparse (set_page_param url n)) = scheme (urlparse url)
  /\ netloc (urlparse (set_page_param url n)) = netloc (urlparse url)
  /\ path (urlparse (set_page_param url n)) = path (urlparse url)
  /\ params (urlparse (set_page_param url n)) = params (urlparse url)
  /\ fragment (urlparse (set_page_param url n)) = fragment (urlparse url)
  /\ parse_qs (query (urlparse (set_page_param url n))) =
     dict_set (parse_qs (query (urlparse url))) (py "page") [str_of_int n]
  /\ dict_get (parse_qs (query (urlparse (set_page_param url n)))) (py "page")
     = Some [str_of_int n]
  /\ (forall k, k <> py "page" ->
        dict_get (parse_qs (query (urlparse (set_page_param url n)))) k
        = dict_get (parse_qs (query (urlparse url))) k)
  /\ In (py "page=" ++ str_of_int n)
        (split "&" (query (urlparse (set_page_param url n)))).
Proof.
  unfold set_page_param. rewrite urlunparse_join. cbn [scheme netloc path params
                                                        query fragment].
  rewrite (urlparse_split url) in *. cbv zeta in *.
  cbn [scheme netloc path params query fragment] in *.
  set (s := urlsplit url) in *.
  destruct (split_params (split_scheme s) (split_path s)) as [pth prm] eqn:Hpp.
  cbn [fst snd].
  set (d := dict_set (parse_qs (split_query s)) (py "page") [str_of_int n]).
  (* the components that [urlsplit] returned *)
  assert (Hs : s = split_rest (fst (split_scheme_part (url_text url)))
                              (snd (split_scheme_part (url_text url))))
    by apply urlsplit_parts.
  destruct (split_scheme_part_ok (url_text url) (url_text_clean url))
    as [Hscheme Hclean].
  destruct (split_rest_ok (fst (split_scheme_part (url_text url))) _ Hclean)
    as (Hdelim & Hcn & Hpq & Hpf & Hcp & Hcf & Hroot).
  rewrite <- Hs in Hdelim, Hcn, Hpq, Hpf, Hcp, Hcf, Hroot.
  assert (Hsch : split_scheme s = fst (split_scheme_part (url_text url)))
    by (rewrite Hs; reflexivity).
  rewrite <- Hsch in Hscheme.
  specialize (Hroot Hhost).
  (* the path with its parameters put back *)
  destruct (split_join_params _ _ _ _ Hpp) as [Hjoin Hagain].
  (* the new query *)
  assert (Hd : dict_ok d).
  { destruct (parse_qs_ok (split_query s)) as [Hkeys Hvals];
      [now apply urlsplit_query_Forall|].
    split; [now apply distinct_keys_dict_set|].
    apply Forall_dict_set; [exact Hvals | apply page_entry_ok]. }
  assert (Hin : In (py "page", [str_of_int n]) d) by apply dict_set_In.
  assert (Hne : d <> []) by (intros Hnil; rewrite Hnil in Hin; exact Hin).
  pose proof (urlencode_query_chr d (proj2 Hd)) as Hq.
  assert (Hsplit :
    urlsplit (urlunsplit (split_scheme s) (split_netloc s) (join_params pth prm)
                (urlencode d) (split_fragment s)) =
    {| split_scheme := split_scheme s; split_netloc := split_netloc s;
       split_path := join_params pth prm; split_query := urlencode d;
       split_fragment := split_fragment s |}).
  { apply urlsplit_urlunsplit; try assumption.
    - exact (rooted_without_last _ _ Hjoin Hroot).
    - exact (Forall_without_last _ _ _ Hjoin Hpq).
    - exact (Forall_without_last _ _ _ Hjoin Hpf).
    - exact (Forall_without_last _ _ _ Hjoin Hcp).
    - now apply urlencode_nonempty; [apply Hd|].
    - eapply Forall_impl; [exact Hq|]. now intros c [H _].
    - eapply Forall_impl; [exact Hq|]. now intros c [_ H]. }
  rewrite urlparse_split. cbv zeta. rewrite Hsplit.
  cbn [split_scheme split_netloc split_path split_query split_fragment
       scheme netloc path params query fragment].
  rewrite Hagain. cbn [fst snd].
  rewrite (parse_qs_urlencode d Hd).
  repeat (split; [reflexivity|]).
  split; [apply dict_get_set|].
  split; [intros k Hk; apply dict_get_set_other; congruence|].
  rewrite (split_urlencode d (proj2 Hd) Hne), <- page_field.
  apply in_map. apply (pairs_In d _ _ [str_of_int n] Hin). now left.
Qed.

Lemma urlparse_query_valid url : valid url -> valid (query (urlparse url)).
Proof.
  intros Hurl. rewrite urlparse_split. cbv zeta. cbn [query].
  now apply urlsplit_query_Forall.
Qed.

(** The dictionary that [set_page_param] encodes. *)
Definition paged (url : str) (n : Z) : dict :=
  dict_set (parse_qs (query (urlparse url))) (py "page") [str_of_int n].


Lemma paged_ok url n : valid url -> dict_ok (paged url n) /\ paged url n <> [].
Proof.
  intros Hurl. unfold paged.
  destruct (parse_qs_ok _ (urlparse_query_valid url Hurl)) as [Hkeys Hvals].
  split.
  - split; [now apply distinct_keys_dict_set|].
    apply Forall_dict_set; [exact Hvals | apply page_entry_ok].
  - intros Hnil.
    pose proof (dict_set_In (parse_qs (query (urlparse url))) (py "page")
                  [str_of_int n]) as Hin.
    rewrite Hnil in Hin. exact Hin.
Qed.

Lemma scalar_not_surrogate c : scalar c -> surrogate c = false.
Proof.
  unfold scalar, surrogate. intros Hc.
  destruct (N.leb_spec 55296 c); destruct (N.ltb_spec c 57344);
    try reflexivity; lia.
Qed.

Lemma quote_returns s : valid s -> quote_raises s = false.
Proof.
  unfold quote_raises. induction 1 as [|c s Hc _ IH]; [reflexivity|].
  cbn [existsb]. now rewrite (scalar_not_surrogate c Hc).
Qed.

Lemma urlencode_returns d : Forall entry_ok d -> urlencode_raises d = false.
Proof.
  unfold urlencode_raises.
  induction 1 as [|[k vs] d (Hk & _ & Hvs) _ IH]; [reflexivity|].
  cbn [existsb fst snd] in *. rewrite (quote_returns k Hk), IH.
  cbn [orb]. rewrite orb_false_r.
  induction Hvs as [|v vs [Hv _] _ IHv]; [reflexivity|].
  cbn [existsb]. now rewrite (quote_returns v Hv).
Qed.

Lemma urlparse_netloc url : netloc (urlparse url) = split_netloc (urlsplit url).
Proof. now rewrite urlparse_split. Qed.

(** Whether [urlsplit] raises is decided by the netloc it splits off. *)
Lemma urlparse_raises_netloc {U : UnicodeDB} u v :
  netloc (urlparse u) = netloc (urlparse v) ->
  urlparse_raises u = urlparse_raises v.
Proof.
  rewrite !urlparse_netloc. unfold urlparse_raises, urlsplit_raises.
  now intros ->.
Qed.

Lemma urlsplit_raises_netloc {U : UnicodeDB} u v :
  split_netloc (urlsplit u) = split_netloc (urlsplit v) ->
  urlsplit_raises u = urlsplit_raises v.
Proof. unfold urlsplit_raises. now intros ->. Qed.

Lemma normalize_detail_url_returns {U : UnicodeDB} u :
  valid u -> urlsplit_raises u = false ->
  normalize_detail_url_raises (Some u) = false.
Proof.
  intros Hvalid Haccepted. unfold normalize_detail_url_raises.
  change (default [] (Some u)) with u. rewrite Haccepted. cbn [orb].
  rewrite (urlencode_returns _
             (proj2 (parse_qs_ok _ (urlsplit_query_Forall _ u Hvalid)))).
  apply andb_false_r.
Qed.

Lemma set_page_param_returns {U : UnicodeDB} url n :
  valid url -> urlparse_raises url = false -> str_of_int_raises n = false ->
  set_page_param_raises url n = false.
Proof.
  intros Hvalid Haccepted Hdigits. unfold set_page_param_raises.
  rewrite Haccepted, Hdigits. cbn [orb]. fold (paged url n).
  apply urlencode_returns. exact (proj2 (proj1 (paged_ok url n Hvalid))).
Qed.

(** C10.  Rewriting the page parameter of a URL that has a host, is made
    of Unicode scalar values and is one on which [urlparse] returns, to a
    page [n] that [str] writes, one of at most 4300 digits: the call
    returns, and [urlparse] returns on its result; parsed again, the
    result has the scheme, host, path, path parameters and fragment of the
    original; its query parameters, as [parse_qs] reads them, are those of
    the original with [page] set to the single value [n], so every other
    parameter keeps its non-blank values in order; and [page=n] is one of
    the fields of its query, whether the original had a page parameter or
    not. *)
Theorem set_page_param_frame {U : UnicodeDB} (url : str) (n : Z)
    (Hhost : netloc (urlparse url) <> []) (Hvalid : valid url)
    (Haccepted : urlparse_raises url = false)
    (Hdigits : str_of_int_raises n = false) :
  set_page_param_raises url n = false
  /\ urlparse_raises (set_page_param url n) = false
  /\ scheme (urlparse (set_page_param url n)) = scheme (urlparse url)
  /\ netloc (urlparse (set_page_param url n)) = netloc (urlparse url)
  /\ path (urlparse (set_page_param url n)) = path (urlparse url)
  /\ params (urlparse (set_page_param url n)) = params (urlparse url)
  /\ fragment (urlparse (set_page_param url n)) = fragment (urlparse url)
  /\ parse_qs (query (urlparse (set_page_param url n))) =
     dict_set (parse_qs (query (urlparse url))) (py "page") [str_of_int n]
  /\ dict_get (parse_qs (query (urlparse (set_page_param url n)))) (py "page")
     = Some [str_of_int n]
  /\ (forall k, k <> py "page" ->
        dict_get (parse_qs (query (urlparse (set_page_param url n)))) k
        = dict_get (parse_qs (query (urlparse url))) k)
  /\ In (py "page=" ++ str_of_int n)
        (split "&" (query (urlparse (set_page_param url n)))).
Proof.
  pose proof (set_page_param_parsed url n Hhost Hvalid) as Hparsed.
  split; [now apply set_page_param_returns|].
  split; [|exact Hparsed].
  rewrite (urlparse_raises_netloc (set_page_param url n) url);
    [exact Haccepted | exact (proj1 (proj2 Hparsed))].
Qed.

(** The frame property as the specification words it: every other parameter of the
    query, blank or not, is a parameter of the result. *)
Definition keeps_other_parameters (url : str) (n : Z) : Prop :=
  forall k v,
    k <> py "page" ->
    In (k, v) (parse_qsl true (query (urlparse url))) ->
    In (k, v) (parse_qsl true (query (urlparse (set_page_param url n)))).

(** C10, counterexample: the blank parameter [sort] of
    [https://shop.example/list?sort=&page=1] is not a parameter of the
    result, whose query is [page=2]. *)
Lemma blank_parameter_dropped :
  ~ (forall url n, keeps_other_parameters url n).
Proof.
  intros H.
  specialize (H (py "https://shop.example/list?sort=&page=1") 2%Z (py "sort") []).
  assert (Hne : py "sort" <> py "page") by (vm_compute; discriminate).
  assert (Hold : In (py "sort", @nil N)
                   (parse_qsl true (query (urlparse
                      (py "https://shop.example/list?sort=&page=1")))))
    by (vm_compute; now left).
  specialize (H Hne Hold). vm_compute in H.
  destruct H as [H | []]. discriminate H.
Qed.

Lemma set_page_param_frame_witness :
  netloc (urlparse scenario_url) <> [] /\ valid scenario_url
  /\ urlparse_raises (U := latin1_db) scenario_url = false
  /\ str_of_int_raises 5 = false
  /\ urlparse_raises (U := latin1_db) (set_page_param scenario_url 5) = false
  /\ parse_qs (query (urlparse (set_page_param scenario_url 5))) =
     dict_set (parse_qs (query (urlparse scenario_url))) (py "page")
       [str_of_int 5].
Proof.
  assert (Hhost : netloc (urlparse scenario_url) <> [])
    by (vm_compute; discriminate).
  assert (Hvalid : valid scenario_url)
    by (unfold valid, scenario_url; cbn [py map list_ascii_of_string];
        repeat (constructor; [left; reflexivity|]); constructor).
  assert (Haccepted : urlparse_raises (U := latin1_db) scenario_url = false)
    by reflexivity.
  assert (Hdigits : str_of_int_raises 5 = false) by reflexivity.
  split; [exact Hhost|]. split; [exact Hvalid|].
  split; [exact Haccepted|]. split; [exact Hdigits|].
  pose proof (set_page_param_frame (U := latin1_db) scenario_url 5 Hhost Hvalid
                Haccepted Hdigits) as H.
  split; [exact (proj1 (proj2 H))|].
  exact (proj1 (proj2 (proj2 (proj2 (proj2 (proj2 (proj2 (proj2 H)))))))).
Defined.

(** * Further properties of the helpers and of the loop *)

(** ** Numerals: [int] undoes [str] *)

Section Numerals.
Context {U : UnicodeDB}.

Lemma omap_digit a s d :
  ascii_decimal (N_of_ascii a) = Some d ->
  omap ascii_decimal (py (String a s)) = d :: omap ascii_decimal (py s).
Proof.
  intros Hd. change (py (String a s)) with (N_of_ascii a :: py s).
  cbn [omap list_omap]. now rewrite Hd.
Qed.

Lemma spelled_uint_acc u :
  forall acc,
    spelled_from (Z.pos acc) (omap ascii_decimal (py (NilEmpty.string_of_uint u)))
    = Z.pos (Pos.of_uint_acc u acc).
Proof.
  induction u as [|u IH|u IH|u IH|u IH|u IH|u IH|u IH|u IH|u IH|u IH];
    intros acc; [reflexivity|..];
    cbn [NilEmpty.string_of_uint Pos.of_uint_acc];
    rewrite <- IH; erewrite omap_digit by reflexivity;
    unfold spelled_from; cbn [fold_left]; f_equal; char_codes; lia.
Qed.

Lemma spelled_uint u :
  spelled (omap ascii_decimal (py (NilEmpty.string_of_uint u)))
  = Z.of_N (Pos.of_uint u).
Proof.
  unfold spelled.
  induction u as [|u IH|u IH|u IH|u IH|u IH|u IH|u IH|u IH|u IH|u IH];
    [reflexivity|..];
    cbn [NilEmpty.string_of_uint Pos.of_uint];
    erewrite omap_digit by reflexivity;
    [exact IH|..];
    change (Z.of_N (N.pos ?p)) with (Z.pos p);
    rewrite <- spelled_uint_acc; reflexivity.
Qed.

Lemma spelled_numeral u :
  spelled (omap ascii_decimal (py (NilZero.string_of_uint u))) = Z.of_uint u.
Proof.
  unfold Z.of_uint. destruct u; try apply spelled_uint. reflexivity.
Qed.

Lemma numeral_digits u :
  Forall (fun c => ascii_digit c = true) (py (NilZero.string_of_uint u))
  /\ py (NilZero.string_of_uint u) <> [].
Proof.
  split.
  - destruct u; try apply string_of_uint_digits. repeat constructor.
  - destruct u; discriminate.
Qed.

Lemma ascii_digit_latin1 s : Forall (fun c => ascii_digit c = true) s -> latin1 s.
Proof.
  intros Hs. eapply Forall_impl; [exact Hs|]. intros c Hc.
  apply in_range_bounds in Hc. revert Hc. char_codes. lia.
Qed.

Lemma ascii_digit_decimal c : ascii_digit c = true -> is_decimal c = true.
Proof.
  intros Hc. unfold is_decimal.
  pose proof (in_range_bounds _ _ _ Hc) as Hb. revert Hb. char_codes. intros Hb.
  rewrite todecimal_latin1 by lia. unfold ascii_decimal.
  destruct (N.leb_spec 48 c); [|lia]. destruct (N.leb_spec c 57); [|lia].
  reflexivity.
Qed.

Lemma ascii_digit_not_int_space c : ascii_digit c = true -> int_space c = false.
Proof.
  intros Hc. apply ascii_digit_decimal in Hc.
  apply is_decimal_true in Hc as [d Hd]. exact (decimal_not_int_space c d Hd).
Qed.

(** [int(str(n)) == n], for an [n] that [str] writes. *)
Lemma int_str_of_int n :
  str_of_int_raises n = false -> int (str_of_int n) = Returned n.
Proof.
  intros Hn. unfold str_of_int_raises in Hn.
  pose proof (DecimalZ.of_to n) as Hof.
  destruct n as [|p|p]; [reflexivity|..];
    destruct (numeral_digits (Pos.to_uint p)) as [Hd Hne].
  - change (Z.of_uint (Pos.to_uint p) = Z.pos p) in Hof.
    change (exceeds_max_str_digits
              (length (py (NilZero.string_of_uint (Pos.to_uint p)))) = false) in Hn.
    change (str_of_int (Z.pos p))
      with (py (NilZero.string_of_uint (Pos.to_uint p))).
    rewrite (int_decimal_latin1 _ (ascii_digit_latin1 _ Hd) Hne Hd), Hn.
    now rewrite spelled_numeral, Hof.
  - change ((- Z.of_uint (Pos.to_uint p))%Z = Z.neg p) in Hof.
    change (exceeds_max_str_digits
              (length (py (NilZero.string_of_uint (Pos.to_uint p)))) = false) in Hn.
    change (str_of_int (Z.neg p))
      with (N_of_ascii "-" :: py (NilZero.string_of_uint (Pos.to_uint p))).
    unfold int. rewrite strip_by_id.
    2:{ constructor; [reflexivity|].
        eapply Forall_impl; [exact Hd|]. apply ascii_digit_not_int_space. }
    replace (is_chr "-" (N_of_ascii "-")) with true by reflexivity.
    assert (Hdec : Forall (fun c => is_decimal c = true)
                     (py (NilZero.string_of_uint (Pos.to_uint p))))
      by (eapply Forall_impl; [exact Hd|]; apply ascii_digit_decimal).
    rewrite (int_digits_decimal _ Hdec) by (left; exact Hne).
    rewrite (int_digit_count_decimal _ Hdec), Hn.
    rewrite (decimals_latin1 _ (ascii_digit_latin1 _ Hd)).
    unfold spelled in *. now rewrite spelled_numeral, Hof.
Qed.

(** The decimal characters of [str(n)] spell the absolute value of [n]. *)
Lemma decimals_str_of_int n :
  decimals (str_of_int n) <> [] /\ spelled (decimals (str_of_int n)) = Z.abs n.
Proof.
  rewrite <- (DecimalZ.of_to n) at 3. unfold str_of_int.
  assert (Hu : forall u,
    decimals (py (NilZero.string_of_uint u)) <> []
    /\ spelled (decimals (py (NilZero.string_of_uint u))) = Z.of_uint u).
  { intros u. destruct (numeral_digits u) as [Hd Hne].
    rewrite (decimals_latin1 _ (ascii_digit_latin1 _ Hd)).
    split; [|apply spelled_numeral].
    destruct (py (NilZero.string_of_uint u)) as [|c s]; [contradiction|].
    apply Forall_inv in Hd. cbn [omap list_omap]. unfold ascii_decimal at 1.
    apply in_range_bounds in Hd. revert Hd. char_codes. intros Hb.
    destruct (N.leb_spec 48 c); [|lia]. destruct (N.leb_spec c 57); [|lia].
    discriminate. }
  assert (Hnonneg : forall u, (0 <= Z.of_uint u)%Z)
    by (intros u; unfold Z.of_uint; lia).
  destruct (Z.to_int n) as [u|u]; cbn [NilZero.string_of_int Z.of_int].
  - destruct (Hu u) as [Hne ->]. split; [exact Hne|].
    specialize (Hnonneg u). lia.
  - change (py (String "-" (NilZero.string_of_uint u)))
      with (N_of_ascii "-" :: py (NilZero.string_of_uint u)).
    assert (Hsign : decimals (N_of_ascii "-" :: py (NilZero.string_of_uint u))
                    = decimals (py (NilZero.string_of_uint u))).
    { unfold decimals. cbn [omap list_omap].
      now rewrite (todecimal_latin1 (N_of_ascii "-")) by (vm_compute; reflexivity). }
    rewrite Hsign. destruct (Hu u) as [Hne ->]. split; [exact Hne|].
    specialize (Hnonneg u). lia.
Qed.

End Numerals.

(** ** URLs put together again *)

(** What [urlsplit] returns, for any text. *)
Record split_ok (s : SplitResult) : Prop := {
  split_ok_scheme : scheme_ok (split_scheme s);
  split_ok_netloc : Forall (fun c => netloc_delim c = false) (split_netloc s);
  split_ok_netloc_clean : clean (split_netloc s);
  split_ok_path_query : Forall (fun c => is_chr "?" c = false) (split_path s);
  split_ok_path_fragment : Forall (fun c => is_chr "#" c = false) (split_path s);
  split_ok_path_clean : clean (split_path s);
  split_ok_fragment : clean (split_fragment s);
  split_ok_rooted : split_netloc s <> [] -> rooted (split_path s)
}.

Lemma urlsplit_ok url : split_ok (urlsplit url).
Proof.
  rewrite urlsplit_parts.
  destruct (split_scheme_part_ok (url_text url) (url_text_clean url))
    as [Hscheme Hclean].
  destruct (split_rest_ok (fst (split_scheme_part (url_text url))) _ Hclean)
    as (Hdelim & Hcn & Hpq & Hpf & Hcp & Hcf & Hroot).
  split; try assumption.
Qed.

(** The query that the helpers write: the encoding of a dictionary such
    as [parse_qs] returns. *)
Lemma urlencode_ok d :
  Forall entry_ok d ->
  Forall (fun c => is_chr "#" c = false) (urlencode d) /\ clean (urlencode d).
Proof.
  intros Hd. pose proof (urlencode_query_chr d Hd) as Hq. split.
  - eapply Forall_impl; [exact Hq|]. now intros c [H _].
  - eapply Forall_impl; [exact Hq|]. now intros c [_ H].
Qed.

(** [urlparse] of what [urlunparse] makes of the components of a URL with
    a host, the query replaced by a non-empty encoded dictionary. *)
Lemma urlparse_requery url d :
  netloc (urlparse url) <> [] -> dict_ok d -> d <> [] ->
  urlparse
    (urlunparse
       {| scheme := scheme (urlparse url); netloc := netloc (urlparse url);
          path := path (urlparse url); params := params (urlparse url);
          query := urlencode d; fragment := fragment (urlparse url) |})
  = {| scheme := scheme (urlparse url); netloc := netloc (urlparse url);
       path := path (urlparse url); params := params (urlparse url);
       query := urlencode d; fragment := fragment (urlparse url) |}.
Proof.
  intros Hhost Hd Hne. rewrite urlunparse_join.
  cbn [scheme netloc path params query fragment].
  rewrite (urlparse_split url) in *. cbv zeta in *.
  cbn [scheme netloc path params query fragment] in *.
  set (s := urlsplit url) in *.
  destruct (split_params (split_scheme s) (split_path s)) as [pth prm] eqn:Hpp.
  cbn [fst snd].
  destruct (urlsplit_ok url) as [Hscheme Hdelim Hcn Hpq Hpf Hcp Hcf Hroot].
  fold s in Hscheme, Hdelim, Hcn, Hpq, Hpf, Hcp, Hcf, Hroot.
  specialize (Hroot Hhost).
  destruct (split_join_params _ _ _ _ Hpp) as [Hjoin Hagain].
  destruct (urlencode_ok d (proj2 Hd)) as [Hqf Hqc].
  assert (Hsplit :
    urlsplit (urlunsplit (split_scheme s) (split_netloc s) (join_params pth prm)
                (urlencode d) (split_fragment s)) =
    {| split_scheme := split_scheme s; split_netloc := split_netloc s;
       split_path := join_params pth prm; split_query := urlencode d;
       split_fragment := split_fragment s |}).
  { apply urlsplit_urlunsplit; try assumption.
    - exact (rooted_without_last _ _ Hjoin Hroot).
    - exact (Forall_without_last _ _ _ Hjoin Hpq).
    - exact (Forall_without_last _ _ _ Hjoin Hpf).
    - exact (Forall_without_last _ _ _ Hjoin Hcp).
    - now apply urlencode_nonempty; [apply Hd|]. }
  rewrite urlparse_split. cbv zeta. rewrite Hsplit.
  cbn [split_scheme split_netloc split_path split_query split_fragment].
  rewrite Hagain. reflexivity.
Qed.


Lemma urlparse_set_page_param url n :
  netloc (urlparse url) <> [] -> valid url ->
  urlparse (set_page_param url n)
  = {| scheme := scheme (urlparse url); netloc := netloc (urlparse url);
       path := path (urlparse url); params := params (urlparse url);
       query := urlencode (paged url n); fragment := fragment (urlparse url) |}.
Proof.
  intros Hhost Hurl. destruct (paged_ok url n Hurl) as [Hd Hne].
  exact (urlparse_requery url (paged url n) Hhost Hd Hne).
Qed.

Lemma dict_set_set d k v w : dict_set (dict_set d k v) k w = dict_set d k w.
Proof.
  induction d as [|[k' v'] d IH]; cbn [dict_set].
  - now rewrite bool_decide_eq_true_2.
  - destruct (bool_decide (k' = k)) eqn:Hk; cbn [dict_set].
    + now rewrite bool_decide_eq_true_2.
    + now rewrite Hk, IH.
Qed.

(** X4.  Rewriting the page parameter twice is rewriting it once, with the
    last page: for a URL with a host on which [urlparse] returns, and
    pages that [str] writes, both calls return, [set_page_param] applied
    to its own result gives the same text as applied to the original, and
    a page set again is left as it is. *)
Theorem set_page_param_last_wins {U : UnicodeDB} (url : str) (m n : Z)
    (Hhost : netloc (urlparse url) <> []) (Hvalid : valid url)
    (Haccepted : urlparse_raises url = false)
    (Hm : str_of_int_raises m = false) (Hn : str_of_int_raises n = false) :
  set_page_param_raises url m = false
  /\ set_page_param_raises (set_page_param url m) n = false
  /\ set_page_param (set_page_param url m) n = set_page_param url n
  /\ set_page_param (set_page_param url n) n = set_page_param url n.
Proof.
  assert (Hlast : forall a b,
    set_page_param (set_page_param url a) b = set_page_param url b).
  { intros a b. unfold set_page_param at 1.
    rewrite (urlparse_set_page_param url a Hhost Hvalid).
    cbn [scheme netloc path params query fragment].
    rewrite (parse_qs_urlencode _ (proj1 (paged_ok url a Hvalid))).
    unfold paged. rewrite dict_set_set. reflexivity. }
  split; [now apply set_page_param_returns|].
  split; [|split; apply Hlast].
  unfold set_page_param_raises.
  rewrite (urlparse_raises_netloc (set_page_param url m) url)
    by now rewrite (urlparse_set_page_param url m Hhost Hvalid).
  rewrite Haccepted, Hn. cbn [orb].
  rewrite (urlparse_set_page_param url m Hhost Hvalid). cbn [query].
  rewrite (parse_qs_urlencode _ (proj1 (paged_ok url m Hvalid))).
  unfold paged. rewrite dict_set_set. fold (paged url n).
  apply urlencode_returns. exact (proj2 (proj1 (paged_ok url n Hvalid))).
Qed.

(** ** The de-duplication key of a detail URL *)

Lemma take_until_app_stop p a c b :
  p c = true ->
  take_until p (a ++ c :: b) = take_until p a
  /\ drop_until p (a ++ c :: b) = drop_until p a ++ c :: b.
Proof.
  intros Hc. induction a as [|x a [IHt IHd]]; cbn [app take_until drop_until].
  - now rewrite Hc.
  - destruct (p x); [easy|]. now rewrite IHt, IHd.
Qed.

Lemma split_rest_bare scheme netloc path :
  Forall (fun c => netloc_delim c = false) netloc ->
  rooted path ->
  Forall (fun c => is_chr "?" c = false) path ->
  Forall (fun c => is_chr "#" c = false) path ->
  split_rest scheme (py "//" ++ netloc ++ path) =
  {| split_scheme := scheme; split_netloc := netloc; split_path := path;
     split_query := []; split_fragment := [] |}.
Proof.
  intros Hnetloc Hroot Hpq Hpf.
  change (py "//" ++ netloc ++ path)
    with (N_of_ascii "/" :: N_of_ascii "/" :: netloc ++ path).
  unfold split_rest. cbv zeta.
  replace (starts_with (py "//") (N_of_ascii "/" :: N_of_ascii "/" :: netloc ++ path))
    with true by reflexivity.
  change (drop 2 (N_of_ascii "/" :: N_of_ascii "/" :: netloc ++ path))
    with (netloc ++ path).
  assert (Hsplit : take_until netloc_delim (netloc ++ path) = netloc
                   /\ drop_until netloc_delim (netloc ++ path) = path).
  { destruct Hroot as [-> | (r & ->)].
    - rewrite app_nil_r. destruct (take_until_all _ _ Hnetloc) as [-> ->]. easy.
    - exact (take_until_stop netloc_delim netloc (N_of_ascii "/") r Hnetloc eq_refl). }
  destruct Hsplit as [-> ->].
  destruct (take_until_all _ _ Hpf) as [-> ->].
  destruct (take_until_all _ _ Hpq) as [-> ->].
  reflexivity.
Qed.

(** [urlsplit] undoes [urlunsplit] on components such as [urlsplit]
    returns, when there is a host and neither query nor fragment. *)
Lemma urlsplit_urlunsplit_bare scheme netloc path :
  scheme_ok scheme ->
  netloc <> [] -> Forall (fun c => netloc_delim c = false) netloc -> clean netloc ->
  rooted path -> Forall (fun c => is_chr "?" c = false) path ->
  Forall (fun c => is_chr "#" c = false) path -> clean path ->
  urlsplit (urlunsplit scheme netloc path [] []) =
  {| split_scheme := scheme; split_netloc := netloc; split_path := path;
     split_query := []; split_fragment := [] |}.
Proof.
  intros Hscheme Hnetloc Hdelim Hcn Hroot Hpq Hpf Hcp.
  assert (Hshape : urlunsplit scheme netloc path [] [] =
                   (if nonempty scheme then scheme ++ py ":" else [])
                   ++ py "//" ++ netloc ++ path).
  { unfold urlunsplit. rewrite (nonempty_true netloc Hnetloc). cbn [orb nonempty].
    assert (Hr : nonempty path && negb (starts_with (py "/") path) = false)
      by (destruct Hroot as [-> | (r & ->)]; reflexivity).
    rewrite Hr. destruct (nonempty scheme); [|reflexivity].
    now rewrite <- !app_assoc. }
  rewrite Hshape, urlsplit_parts.
  assert (Hrest : clean (py "//" ++ netloc ++ path)).
  { apply clean_cons; [reflexivity|]. apply clean_cons; [reflexivity|].
    now apply clean_app. }
  destruct scheme as [|c sch]; cbn [nonempty].
  - cbn [app].
    replace (url_text (py "//" ++ netloc ++ path)) with (py "//" ++ netloc ++ path)
      by (symmetry;
          exact (url_text_id (N_of_ascii "/") (N_of_ascii "/" :: netloc ++ path)
                   eq_refl Hrest)).
    replace (split_scheme_part (py "//" ++ netloc ++ path))
      with (@nil N, py "//" ++ netloc ++ path)
      by (symmetry;
          exact (split_scheme_part_none (N_of_ascii "/")
                   (N_of_ascii "/" :: netloc ++ path) eq_refl)).
    cbn [fst snd]. now apply split_rest_bare.
  - pose proof Hscheme as (Hchars & _).
    assert (Hc0 : c0_control_or_space c = false)
      by (now apply Forall_inv, scheme_char_class in Hchars).
    assert (Hclean : clean ((c :: sch) ++ py ":" ++ py "//" ++ netloc ++ path)).
    { apply clean_app; [|apply clean_cons; [reflexivity | exact Hrest]].
      eapply Forall_impl; [exact Hchars|].
      now intros y (_ & H & _)%scheme_char_class. }
    rewrite <- app_assoc.
    replace (url_text ((c :: sch) ++ py ":" ++ py "//" ++ netloc ++ path))
      with ((c :: sch) ++ py ":" ++ py "//" ++ netloc ++ path)
      by (symmetry; exact (url_text_id c _ Hc0 Hclean)).
    rewrite (split_scheme_part_some (c :: sch) _ Hscheme) by discriminate.
    cbn [fst snd]. now apply split_rest_bare.
Qed.

(** The key of a URL with a host, split again. *)
Lemma urlsplit_normalized u :
  split_netloc (urlsplit u) <> [] -> valid u ->
  urlsplit (urlunsplit (split_scheme (urlsplit u)) (split_netloc (urlsplit u))
              (split_path (urlsplit u))
              (urlencode (parse_qs (split_query (urlsplit u)))) [])
  = {| split_scheme := split_scheme (urlsplit u);
       split_netloc := split_netloc (urlsplit u);
       split_path := split_path (urlsplit u);
       split_query := urlencode (parse_qs (split_query (urlsplit u)));
       split_fragment := [] |}.
Proof.
  intros Hhost Hvalid.
  destruct (urlsplit_ok u) as [Hscheme Hdelim Hcn Hpq Hpf Hcp Hcf Hroot].
  specialize (Hroot Hhost).
  pose proof (parse_qs_ok _ (urlsplit_query_Forall _ u Hvalid)) as Hd.
  destruct (parse_qs (split_query (urlsplit u))) as [|e d] eqn:Hq.
  - change (urlencode []) with (@nil N).
    now apply urlsplit_urlunsplit_bare.
  - destruct (urlencode_ok _ (proj2 Hd)) as [Hqf Hqc].
    apply urlsplit_urlunsplit; try assumption.
    + now apply urlencode_nonempty; [apply Hd|].
    + constructor.
Qed.

Lemma urlunsplit_host_nonempty scheme netloc path query fragment :
  netloc <> [] -> urlunsplit scheme netloc path query fragment <> [].
Proof.
  intros Hnetloc. unfold urlunsplit. rewrite (nonempty_true netloc Hnetloc).
  cbn [orb].
  destruct (nonempty path && negb (starts_with (py "/") path));
    destruct (nonempty scheme) eqn:Hs; destruct (nonempty query);
    destruct (nonempty fragment);
    try (destruct scheme; [discriminate Hs|]); discriminate.
Qed.

(** The key of a truthy URL. *)
Definition key_of (u : str) : str :=
  urlunsplit (split_scheme (urlsplit u)) (split_netloc (urlsplit u))
    (split_path (urlsplit u)) (urlencode (parse_qs (split_query (urlsplit u)))) [].

Lemma normalize_detail_url_key u :
  u <> [] -> normalize_detail_url (Some u) = Some (key_of u).
Proof. destruct u; [contradiction | reflexivity]. Qed.

(** X6.  Normalizing a detail URL that has a host and on which
    [urlsplit] returns is idempotent: the call returns, and so does the
    call on the key; the key of a key is the key itself, so registering a
    key and looking a normalized URL up go through the same text; the key
    has the scheme, host and path of the URL, no fragment, and the
    parameters of the URL as [parse_qs] reads them. *)
Theorem normalize_detail_url_idempotent {U : UnicodeDB} (u key : str)
    (Hhost : split_netloc (urlsplit u) <> []) (Hvalid : valid u)
    (Haccepted : urlsplit_raises u = false)
    (Hkey : normalize_detail_url (Some u) = Some key) :
  normalize_detail_url_raises (Some u) = false
  /\ normalize_detail_url_raises (Some key) = false
  /\ normalize_detail_url (Some key) = Some key
  /\ key <> []
  /\ split_scheme (urlsplit key) = split_scheme (urlsplit u)
  /\ split_netloc (urlsplit key) = split_netloc (urlsplit u)
  /\ split_path (urlsplit key) = split_path (urlsplit u)
  /\ split_fragment (urlsplit key) = []
  /\ parse_qs (split_query (urlsplit key)) = parse_qs (split_query (urlsplit u)).
Proof.
  assert (Hu : u <> []).
  { intros ->. apply Hhost. reflexivity. }
  rewrite (normalize_detail_url_key u Hu) in Hkey. injection Hkey as <-.
  pose proof (urlsplit_normalized u Hhost Hvalid) as Hsplit.
  pose proof (parse_qs_ok _ (urlsplit_query_Forall _ u Hvalid)) as Hd.
  assert (Hne : key_of u <> []) by (now apply urlunsplit_host_nonempty).
  fold (key_of u) in Hsplit.
  split; [now apply normalize_detail_url_returns|].
  split.
  { unfold normalize_detail_url_raises.
    change (default [] (Some (key_of u))) with (key_of u).
    rewrite (urlsplit_raises_netloc (key_of u) u) by now rewrite Hsplit.
    rewrite Haccepted, Hsplit. cbn [orb split_query].
    rewrite (parse_qs_urlencode _ Hd), (urlencode_returns _ (proj2 Hd)).
    apply andb_false_r. }
  split.
  - rewrite (normalize_detail_url_key _ Hne). f_equal.
    unfold key_of at 1. rewrite Hsplit.
    cbn [split_scheme split_netloc split_path split_query].
    now rewrite (parse_qs_urlencode _ Hd).
  - split; [exact Hne|]. rewrite Hsplit.
    cbn [split_scheme split_netloc split_path split_query split_fragment].
    repeat (split; [reflexivity|]). exact (parse_qs_urlencode _ Hd).
Qed.

(** *** The fragment *)

Lemma lstrip_by_app_stop p u c f :
  p c = false -> lstrip_by p (u ++ c :: f) = lstrip_by p u ++ c :: f.
Proof.
  intros Hc. induction u as [|x u IH]; cbn [app lstrip_by].
  - now rewrite Hc.
  - destruct (p x); [exact IH | reflexivity].
Qed.

Lemma url_text_fragment u f :
  url_text (u ++ py "#" ++ f) =
  url_text u ++ py "#" ++ List.filter (fun c => negb (unsafe_url_byte c)) f.
Proof.
  unfold url_text. change (py "#" ++ f) with (N_of_ascii "#" :: f).
  rewrite (lstrip_by_app_stop c0_control_or_space u (N_of_ascii "#") f eq_refl).
  now rewrite List.filter_app.
Qed.

Lemma url_text_Forall (P : N -> Prop) u : Forall P u -> Forall P (url_text u).
Proof.
  intros Hu. unfold url_text. apply List.Forall_forall. intros c [Hc _]%filter_In.
  pose proof (Forall_lstrip_by P c0_control_or_space u Hu) as Hs.
  rewrite List.Forall_forall in Hs. now apply Hs.
Qed.

Definition hash_free (s : str) : Prop := Forall (fun c => is_chr "#" c = false) s.

Lemma contains_true_In a s : contains a s = true -> In (N_of_ascii a) s.
Proof.
  unfold contains. intros (c & Hc & Heq)%existsb_exists.
  now rewrite <- (is_chr_eq a c Heq).
Qed.

(** The scheme of a text does not depend on a fragment put after it. *)
Lemma split_scheme_part_fragment t f :
  hash_free t ->
  split_scheme_part (t ++ py "#" ++ f) =
  (fst (split_scheme_part t), snd (split_scheme_part t) ++ py "#" ++ f).
Proof.
  intros Ht. change (py "#" ++ f) with (N_of_ascii "#" :: f).
  unfold split_scheme_part. cbv zeta.
  destruct (contains ":" t) eqn:Hcolon.
  - (* the first colon is in [t] *)
    pose proof (contains_true_split ":" t Hcolon) as Hsplit.
    set (h := take_until (is_chr ":") t) in *.
    set (r := tail (drop_until (is_chr ":") t)) in *.
    assert (Hh : Forall (fun c => is_chr ":" c = false) h)
      by apply Forall_take_until_false.
    assert (Hparts :
      take_until (is_chr ":") (t ++ N_of_ascii "#" :: f) = h
      /\ tail (drop_until (is_chr ":") (t ++ N_of_ascii "#" :: f))
         = r ++ N_of_ascii "#" :: f).
    { rewrite Hsplit at 1 2. rewrite <- app_assoc. cbn [app].
      destruct (take_until_stop (is_chr ":") h (N_of_ascii ":")
                  (r ++ N_of_ascii "#" :: f) Hh eq_refl) as [-> ->].
      easy. }
    destruct Hparts as [-> ->].
    rewrite contains_app, Hcolon. cbn [orb andb].
    assert (Hfirst :
      match t ++ N_of_ascii "#" :: f with c :: _ => ascii_alpha c | [] => false end
      = match t with c :: _ => ascii_alpha c | [] => false end).
    { destruct t as [|c t]; [discriminate Hcolon | reflexivity]. }
    rewrite Hfirst.
    destruct (negb (bool_decide (h = []))
              && match t with c :: _ => ascii_alpha c | [] => false end
              && forallb scheme_char h); reflexivity.
  - (* no colon in [t]: a colon of the fragment comes after the [#] *)
    cbn [andb fst snd].
    assert (Hnone : Forall (fun c => is_chr ":" c = false) t).
    { apply List.Forall_forall. intros c Hc.
      destruct (is_chr ":" c) eqn:Hcc; [|reflexivity].
      assert (Hin : contains ":" t = true)
        by (apply existsb_exists; exists c; now split).
      congruence. }
    assert (Hhead : exists h, take_until (is_chr ":") (t ++ N_of_ascii "#" :: f)
                              = t ++ N_of_ascii "#" :: h).
    { clear Ht Hcolon. induction Hnone as [|c t Hc _ IH]; cbn [app take_until].
      - replace (is_chr ":" (N_of_ascii "#")) with false by reflexivity. eauto.
      - rewrite Hc. destruct IH as (h & ->). eauto. }
    destruct Hhead as (h & ->).
    replace (forallb scheme_char (t ++ N_of_ascii "#" :: h)) with false;
      [now rewrite andb_false_r|].
    symmetry. rewrite forallb_app. cbn [forallb].
    replace (scheme_char (N_of_ascii "#")) with false by reflexivity.
    cbn [andb]. apply andb_false_r.
Qed.

Lemma starts_with_fragment t f :
  hash_free t ->
  starts_with (py "//") (t ++ py "#" ++ f) = starts_with (py "//") t.
Proof.
  intros Ht. unfold starts_with. change (py "#" ++ f) with (N_of_ascii "#" :: f).
  destruct t as [|a [|b t]]; [| |reflexivity].
  - transitivity false;
      [apply bool_decide_eq_false_2 | symmetry; apply bool_decide_eq_false_2];
      [destruct f|]; discriminate.
  - transitivity false;
      [apply bool_decide_eq_false_2 | symmetry; apply bool_decide_eq_false_2];
      discriminate.
Qed.

(** The components of a text with a fragment put after it. *)
Lemma split_rest_fragment scheme t f :
  hash_free t ->
  split_rest scheme (t ++ py "#" ++ f) =
  {| split_scheme := scheme;
     split_netloc := split_netloc (split_rest scheme t);
     split_path := split_path (split_rest scheme t);
     split_query := split_query (split_rest scheme t);
     split_fragment := f |}.
Proof.
  intros Ht. unfold split_rest. cbv zeta.
  cbn [split_netloc split_path split_query].
  rewrite (starts_with_fragment t f Ht).
  change (py "#" ++ f) with (N_of_ascii "#" :: f).
  assert (Hcut : forall v, hash_free v ->
    take_until (is_chr "#") (v ++ N_of_ascii "#" :: f) = v
    /\ tail (drop_until (is_chr "#") (v ++ N_of_ascii "#" :: f)) = f
    /\ take_until (is_chr "#") v = v).
  { intros v Hv.
    destruct (take_until_stop (is_chr "#") v (N_of_ascii "#") f Hv eq_refl)
      as [-> ->].
    destruct (take_until_all _ _ Hv) as [-> _]. easy. }
  destruct (starts_with (py "//") t) eqn:Hnet.
  - assert (Hdrop : drop 2 (t ++ N_of_ascii "#" :: f)
                    = drop 2 t ++ N_of_ascii "#" :: f).
    { unfold starts_with in Hnet. apply bool_decide_eq_true in Hnet.
      destruct t as [|a [|b t]]; [discriminate Hnet..|reflexivity]. }
    rewrite Hdrop.
    destruct (take_until_app_stop netloc_delim (drop 2 t) (N_of_ascii "#") f eq_refl)
      as [-> ->].
    assert (Hv : hash_free (drop_until netloc_delim (drop 2 t)))
      by (apply Forall_drop_until; unfold hash_free; now apply Forall_drop).
    destruct (Hcut _ Hv) as (-> & -> & ->). reflexivity.
  - destruct (Hcut _ Ht) as (-> & -> & ->). reflexivity.
Qed.

Lemma hash_free_contains s : contains "#" s = false -> hash_free s.
Proof.
  intros Hs. apply List.Forall_forall. intros c Hc.
  destruct (is_chr "#" c) eqn:Hcc; [|reflexivity].
  assert (Hin : contains "#" s = true)
    by (apply existsb_exists; exists c; now split).
  congruence.
Qed.

Lemma split_scheme_part_Forall (P : N -> Prop) t :
  Forall P t -> Forall P (snd (split_scheme_part t)).
Proof.
  intros Ht. unfold split_scheme_part. cbv zeta.
  match goal with |- context [if ?c then (map lower_chr _, _) else _] =>
    destruct c end; cbn [snd];
    [apply Forall_tail, Forall_drop_until, Ht | exact Ht].
Qed.

Lemma urlsplit_fragment u f :
  contains "#" u = false ->
  urlsplit (u ++ py "#" ++ f) =
  {| split_scheme := split_scheme (urlsplit u);
     split_netloc := split_netloc (urlsplit u);
     split_path := split_path (urlsplit u);
     split_query := split_query (urlsplit u);
     split_fragment := List.filter (fun c => negb (unsafe_url_byte c)) f |}.
Proof.
  intros Hu%hash_free_contains.
  rewrite !urlsplit_parts, url_text_fragment.
  pose proof (url_text_Forall _ u Hu) as Ht.
  rewrite (split_scheme_part_fragment _ _ Ht). cbn [fst snd].
  rewrite (split_rest_fragment _ _ _ (split_scheme_part_Forall _ _ Ht)).
  f_equal.
Qed.

(** The characters of the key of a valid URL. *)
Lemma scheme_char_not_hash c : scheme_char c = true -> is_chr "#" c = false.
Proof.
  intros [Hc _]%scheme_char_bounds. unfold is_chr. char_codes.
  apply N.eqb_neq. lia.
Qed.

Lemma key_of_hash_free u : valid u -> hash_free (key_of u).
Proof.
  intros Hvalid.
  destruct (urlsplit_ok u) as [[Hscheme _] Hdelim _ _ Hpf _ _ _].
  pose proof (parse_qs_ok _ (urlsplit_query_Forall _ u Hvalid)) as Hd.
  destruct (urlencode_ok _ (proj2 Hd)) as [Hqf _].
  assert (Hs : hash_free (split_scheme (urlsplit u))).
  { eapply Forall_impl; [exact Hscheme|]. apply scheme_char_not_hash. }
  assert (Hn : hash_free (split_netloc (urlsplit u))).
  { eapply Forall_impl; [exact Hdelim|]. intros c Hc. unfold netloc_delim in Hc.
    now apply orb_false_iff in Hc as [_ Hc]. }
  unfold key_of, urlunsplit, hash_free. cbn [nonempty]. rewrite ?app_nil_r.
  repeat match goal with
         | |- Forall _ (if ?c then _ else _) => destruct c
         | |- Forall _ (_ ++ _) => apply Forall_app; split
         | |- Forall _ (py _) => repeat constructor
         end; assumption.
Qed.

(** X7.  The key of a detail URL made of Unicode scalar values on which
    [urlsplit] returns does not depend on its fragment: with a fragment
    added after a [#], whatever it is, [urlsplit] still returns, the
    normalization returns, and the key is the key of the URL without the
    fragment, which contains no [#]. *)
Theorem normalize_detail_url_drops_fragment {U : UnicodeDB} (u f : str)
    (Hu : u <> []) (Hhash : contains "#" u = false) (Hvalid : valid u)
    (Haccepted : urlsplit_raises u = false) :
  urlsplit_raises (u ++ py "#" ++ f) = false
  /\ normalize_detail_url_raises (Some (u ++ py "#" ++ f)) = false
  /\ normalize_detail_url_raises (Some u) = false
  /\ normalize_detail_url (Some (u ++ py "#" ++ f)) = normalize_detail_url (Some u)
  /\ exists key, normalize_detail_url (Some u) = Some key
                 /\ contains "#" key = false.
Proof.
  assert (Hagain : urlsplit_raises (u ++ py "#" ++ f) = false).
  { rewrite (urlsplit_raises_netloc (u ++ py "#" ++ f) u); [exact Haccepted|].
    now rewrite (urlsplit_fragment u f Hhash). }
  pose proof (normalize_detail_url_returns u Hvalid Haccepted) as Hreturns.
  split; [exact Hagain|]. split; [|split; [exact Hreturns|split]].
  - unfold normalize_detail_url_raises in *.
    change (default [] (Some (u ++ py "#" ++ f))) with (u ++ py "#" ++ f).
    change (default [] (Some u)) with u in Hreturns.
    rewrite Hagain, (urlsplit_fragment u f Hhash). cbn [orb split_query].
    rewrite Haccepted in Hreturns. cbn [orb] in Hreturns.
    destruct u; [contradiction|]. cbn [truthy_str andb] in Hreturns.
    rewrite Hreturns. apply andb_false_r.
  - rewrite !normalize_detail_url_key; [|exact Hu|now destruct u].
    f_equal. unfold key_of. now rewrite (urlsplit_fragment u f Hhash).
  - exists (key_of u).
    split; [now apply normalize_detail_url_key|].
    apply contains_false. exact (key_of_hash_free u Hvalid).
Qed.

(** ** The identifier of a link *)

(** The values of the fields named [k], in the order of the query. *)
Definition values_of (k : str) (ps : list (str * str)) : list str :=
  map snd (List.filter (fun nv => bool_decide (fst nv = k)) ps).

Lemma dict_get_app a b k :
  dict_get (a ++ b) k =
  match dict_get a k with
  | Some v => Some v
  | None => dict_get b k
  end.
Proof.
  induction a as [|[k' v'] a IH]; cbn [app dict_get]; [reflexivity|].
  destruct (bool_decide (k' = k)); [reflexivity | exact IH].
Qed.

Lemma dict_get_parse_qs_add d nv k :
  dict_get (parse_qs_add d nv) k =
  if bool_decide (fst nv = k)
  then Some (default [] (dict_get d k) ++ [snd nv])
  else dict_get d k.
Proof.
  unfold parse_qs_add.
  destruct (bool_decide_reflect (fst nv = k)) as [<- | Hne].
  - destruct (dict_get d (fst nv)) as [vs|] eqn:Hget.
    + now rewrite dict_get_set.
    + rewrite dict_get_app, Hget. cbn [dict_get].
      now rewrite bool_decide_eq_true_2.
  - destruct (dict_get d (fst nv)) as [vs|] eqn:Hget.
    + now apply dict_get_set_other.
    + rewrite dict_get_app. cbn [dict_get].
      rewrite bool_decide_eq_false_2 by exact Hne.
      now destruct (dict_get d k).
Qed.

Lemma dict_get_parse_qs_fold ps :
  forall d k,
    dict_get (fold_left parse_qs_add ps d) k =
    match values_of k ps with
    | [] => dict_get d k
    | vs => Some (default [] (dict_get d k) ++ vs)
    end.
Proof.
  unfold values_of.
  induction ps as [|nv ps IH]; intros d k; cbn [fold_left List.filter map];
    [reflexivity|].
  rewrite IH, dict_get_parse_qs_add.
  destruct (bool_decide (fst nv = k)); cbn [map default].
  - destruct (map snd (List.filter _ ps)) as [|v vs]; [reflexivity|].
    unfold id. now rewrite <- app_assoc.
  - reflexivity.
Qed.

(** What [parse_qs] gives for a key: all its values, in order, and no
    entry when it has none. *)
Lemma dict_get_parse_qs qs k :
  dict_get (parse_qs qs) k =
  match values_of k (parse_qsl false qs) with
  | [] => None
  | vs => Some vs
  end.
Proof.
  unfold parse_qs, parse_qs_with. rewrite dict_get_parse_qs_fold.
  cbn [dict_get default app]. reflexivity.
Qed.

Lemma parse_field_not_blank name_value :
  Forall (fun nv => snd nv <> []) (parse_field false name_value).
Proof.
  unfold parse_field.
  destruct (nonempty name_value); cbn [negb]; [|constructor].
  rewrite andb_true_r.
  destruct (contains "=" name_value); cbn [negb]; [|constructor].
  unfold split1. rewrite orb_false_r.
  destruct (nonempty (tail (drop_until (is_chr "=") name_value))) eqn:Hv;
    [|constructor].
  constructor; [|constructor]. cbn [snd].
  apply unquote_nonempty, replace_chr_nonempty, nonempty_inv, Hv.
Qed.

Lemma parse_qsl_not_blank qs :
  Forall (fun nv => snd nv <> []) (parse_qsl false qs).
Proof.
  rewrite parse_qsl_fields.
  induction (if nonempty qs then split "&" qs else []) as [|f fs IH];
    cbn [flat_map]; [constructor|].
  apply Forall_app. split; [apply parse_field_not_blank | exact IH].
Qed.

Lemma values_of_not_blank k qs :
  Forall (fun v => v <> []) (values_of k (parse_qsl false qs)).
Proof.
  unfold values_of. apply List.Forall_forall.
  intros v (nv & <- & [Hnv _]%filter_In)%in_map_iff.
  pose proof (parse_qsl_not_blank qs) as Hall.
  rewrite List.Forall_forall in Hall. now apply Hall.
Qed.

Lemma extract_item_id_value {U : UnicodeDB} href :
  extract_item_id href =
  if truthy_str href && negb (urlparse_raises (default [] href))
  then head (values_of (py "id")
               (parse_qsl false (query (urlparse (default [] href)))))
  else None.
Proof.
  unfold extract_item_id. destruct (truthy_str href); cbn [negb andb]; [|reflexivity].
  destruct (urlparse_raises (default [] href)); cbn [negb]; [reflexivity|].
  rewrite dict_get_parse_qs.
  now destruct (values_of _ _).
Qed.

Lemma extract_item_id_not_blank {U : UnicodeDB} href i :
  extract_item_id href = Some i -> i <> [].
Proof.
  rewrite extract_item_id_value. destruct (_ && _); [|discriminate].
  pose proof (values_of_not_blank (py "id")
                (query (urlparse (default [] href)))) as Hall.
  destruct (values_of _ _) as [|v vs]; [discriminate|].
  intros [= <-]. exact (Forall_inv Hall).
Qed.

(** X1.  The identifier of a link on which [urlparse] returns is the
    first non-blank value of the [id] fields of its query, in the order of
    the query and percent-decoded; there is none when the link is missing
    or empty, when [urlparse] raises on it, the exception being caught, or
    when its query has no [id] field with a value; and an identifier is
    never the empty string.  In [/item?id=&id=A%20B&id=C] the blank field
    is passed over and the identifier is [A B]; the link
    [//[bad/item?id=3], whose host has an unmatched bracket, has no
    identifier. *)
Theorem extract_item_id_first_value {U : UnicodeDB} (href : option str) :
  extract_item_id href =
    (if truthy_str href && negb (urlparse_raises (default [] href))
     then head (values_of (py "id")
                  (parse_qsl false (query (urlparse (default [] href)))))
     else None)
  /\ (forall i, extract_item_id href = Some i -> i <> [])
  /\ (extract_item_id href = None <->
      truthy_str href = false
      \/ urlparse_raises (default [] href) = true
      \/ values_of (py "id")
           (parse_qsl false (query (urlparse (default [] href)))) = [])
  /\ extract_item_id (Some (py "/item?id=&id=A%20B&id=C")) = Some (py "A B")
  /\ urlparse_raises (py "//[bad/item?id=3") = true
  /\ extract_item_id (Some (py "//[bad/item?id=3")) = None.
Proof.
  split; [apply extract_item_id_value|]. split; [|split; [|split; [|split]]].
  - intros i. apply extract_item_id_not_blank.
  - rewrite extract_item_id_value. destruct (truthy_str href); cbn [andb].
    + destruct (urlparse_raises (default [] href)); cbn [negb].
      * split; [intros _; right; now left | reflexivity].
      * destruct (values_of _ _) as [|v vs]; split; try discriminate.
        -- now right; right.
        -- reflexivity.
        -- intros [H | [H | H]]; discriminate H.
    + split; [now left | reflexivity].
  - vm_compute. reflexivity.
  - vm_compute. reflexivity.
  - vm_compute. reflexivity.
Qed.

(** ** The items of a page *)

Section Page.
Context {U : UnicodeDB}.
Variable urljoin : str -> str -> outcome str.
Variable fetch : str -> outcome (list block).

Lemma scrape_block_raises_iff page_url b :
  scrape_block urljoin page_url b = Raised <->
  block_raises urljoin page_url b = true.
Proof.
  split; [|apply scrape_block_raises].
  destruct (block_raises urljoin page_url b) eqn:Hb; [reflexivity|].
  destruct (scrape_block_usable urljoin page_url b Hb) as (found & _ & _ & -> & _).
  discriminate.
Qed.

Lemma scrape_blocks_raises page_url blocks :
  scrape_blocks urljoin page_url blocks = Raised <->
  Exists (fun b => block_raises urljoin page_url b = true) blocks.
Proof.
  induction blocks as [|b blocks IH]; cbn [scrape_blocks].
  - split; [discriminate | intros H; inversion H].
  - rewrite List.Exists_cons, <- IH, <- scrape_block_raises_iff.
    destruct (scrape_block urljoin page_url b) as [found|];
      cbn [mbind outcome_bind]; [|split; [now left | reflexivity]].
    destruct (scrape_blocks urljoin page_url blocks) as [items|];
      cbn [mbind outcome_bind].
    + split; [discriminate | intros [H | H]; discriminate H].
    + split; [now right | reflexivity].
Qed.

Lemma scrape_blocks_kept page_url blocks :
  forall items,
    scrape_blocks urljoin page_url blocks = Returned items ->
    exists kept,
      kept `sublist_of` blocks
      /\ Forall2 (fun i b => scrape_block urljoin page_url b = Returned (Some i))
           items kept
      /\ length items = length (List.filter (usable urljoin page_url) blocks).
Proof.
  induction blocks as [|b blocks IH]; intros items; cbn [scrape_blocks].
  - intros [= <-]. exists []. repeat split; constructor.
  - destruct (scrape_block urljoin page_url b) as [found|] eqn:Hb;
      cbn [mbind outcome_bind]; [|discriminate].
    destruct (scrape_blocks urljoin page_url blocks) as [rest|];
      cbn [mbind outcome_bind]; [|discriminate].
    destruct (IH rest eq_refl) as (kept & Hsub & Hall & Hlen).
    assert (Hno : block_raises urljoin page_url b = false).
    { destruct (block_raises urljoin page_url b) eqn:Hr; [|reflexivity].
      apply scrape_block_raises in Hr. congruence. }
    destruct (scrape_block_usable urljoin page_url b Hno)
      as (found' & _ & _ & Hb' & _ & _ & Hiff & _).
    rewrite Hb in Hb'. injection Hb' as <-.
    intros [= <-]. cbn [List.filter]. destruct found as [i|].
    + exists (b :: kept).
      split; [now constructor|]. split; [now constructor|].
      rewrite (proj1 Hiff) by (eexists; reflexivity). cbn [length]. now rewrite Hlen.
    + exists kept.
      split; [now constructor|]. split; [exact Hall|].
      destruct (usable urljoin page_url b) eqn:Hu; [|exact Hlen].
      destruct (proj2 Hiff eq_refl) as [? [=]].
Qed.

(** X2.  [scrape_page] raises exactly when the request or the parser
    does, or when the extraction of one of the blocks of the page does:
    [clean_price] on a price text, which it does on more than 4300
    digits, or [urljoin] on a link or on an image address.  When it
    returns, its items are the extractions of the usable blocks, in the
    order of the page, one per block, so there are never more items than
    blocks. *)
Theorem scrape_page_raises_exactly (page_url : str) :
  (scrape_page urljoin fetch page_url = Raised <->
   fetch page_url = Raised
   \/ exists blocks b,
        fetch page_url = Returned blocks /\ In b blocks
        /\ (clean_price (price_tag b) = Raised
            \/ clean_price (buyout_tag b) = Raised
            \/ resolved_detail_url urljoin page_url b = Raised
            \/ resolved_image_url urljoin page_url b = Raised))
  /\ forall items,
       scrape_page urljoin fetch page_url = Returned items ->
       exists blocks kept,
         fetch page_url = Returned blocks
         /\ kept `sublist_of` blocks
         /\ Forall2 (fun i b => scrape_block urljoin page_url b = Returned (Some i))
              items kept
         /\ length items = length (List.filter (usable urljoin page_url) blocks)
         /\ (length items <= length blocks)%nat.
Proof.
  unfold scrape_page. split.
  - destruct (fetch page_url) as [blocks|]; cbn [mbind outcome_bind].
    + rewrite scrape_blocks_raises, List.Exists_exists. split.
      * intros (b & Hin & Hb%block_raises_cases). right. exists blocks, b. auto.
      * intros [H | (blocks' & b & [= <-] & Hin & Hb)]; [discriminate H|].
        exists b. split; [exact Hin|]. now apply block_raises_cases.
    + split; [now left | reflexivity].
  - intros items. destruct (fetch page_url) as [blocks|];
      cbn [mbind outcome_bind]; [|discriminate].
    intros Hrun.
    destruct (scrape_blocks_kept page_url blocks items Hrun)
      as (kept & Hsub & Hall & Hlen).
    exists blocks, kept. split; [reflexivity|].
    repeat (split; [assumption|]).
    rewrite Hlen. apply List.filter_length_le.
Qed.

(** What [main] may rely on in an item of a page. *)
Record item_ok (page_url : str) (i : item) : Prop := {
  item_source : source_page i = page_url;
  item_usable :
    truthy_str (title i) || truthy_int (price_jpy i)
    || truthy_int (buyout_jpy i) || truthy_str (detail_url i) = true;
  item_price : forall n, price_jpy i = Some n -> (0 <= n)%Z;
  item_buyout : forall n, buyout_jpy i = Some n -> (0 <= n)%Z;
  item_linked : item_id i <> None -> detail_url i <> None;
  item_id_not_blank : item_id i <> Some []
}.

Lemma price_of_nonneg text n : price_of text = Some n -> (0 <= n)%Z.
Proof.
  unfold price_of. destruct (decimals (default [] text)); intros [= <-].
  apply spelled_from_nonneg. lia.
Qed.

Lemma scrape_block_item_ok page_url b i :
  scrape_block urljoin page_url b = Returned (Some i) -> item_ok page_url i.
Proof.
  intros Hrun.
  assert (Hno : block_raises urljoin page_url b = false).
  { destruct (block_raises urljoin page_url b) eqn:Hr; [|reflexivity].
    apply scrape_block_raises in Hr. congruence. }
  destruct (scrape_block_usable urljoin page_url b Hno)
    as (found & detail & image & Hb & Hdetail & _ & Hiff & Hfields).
  rewrite Hrun in Hb. injection Hb as <-.
  destruct (Hfields i eq_refl) as (Ht & Hp & Hbo & Hd & _ & Hid & Hs).
  split.
  - exact Hs.
  - rewrite Ht, Hp, Hbo, Hd.
    assert (Hu : usable urljoin page_url b = true)
      by (apply Hiff; eexists; reflexivity).
    unfold usable in Hu. now rewrite Hdetail in Hu.
  - intros n. rewrite Hp. apply price_of_nonneg.
  - intros n. rewrite Hbo. apply price_of_nonneg.
  - rewrite Hid, Hd. unfold extract_item_id.
    unfold resolved_detail_url, resolve in Hdetail.
    destruct (truthy_str (link_href b)); cbn [negb]; [|contradiction].
    intros _.
    destruct (urljoin page_url (default [] (link_href b)));
      cbn [mbind outcome_bind] in Hdetail; [|discriminate Hdetail].
    injection Hdetail as <-. discriminate.
  - rewrite Hid. intros Hblank.
    exact (extract_item_id_not_blank (link_href b) [] Hblank eq_refl).
Qed.

(** X3.  Every item of a page can be relied on: it names the page it
    comes from; one of its title, prices and detail URL is truthy; its
    prices are not negative; an item with an identifier has a detail URL,
    the identifier being read off the link; and its identifier is never
    the empty string. *)
Theorem scrape_page_items_ok (page_url : str) (items : list item)
    (Hpage : scrape_page urljoin fetch page_url = Returned items) :
  Forall (item_ok page_url) items.
Proof.
  unfold scrape_page in Hpage.
  destruct (fetch page_url) as [blocks|]; cbn [mbind outcome_bind] in Hpage;
    [|discriminate Hpage].
  destruct (scrape_blocks_kept page_url blocks items Hpage) as (kept & _ & Hall & _).
  clear Hpage.
  induction Hall as [|i b items kept Hi _ IH]; [constructor|].
  constructor; [exact (scrape_block_item_ok page_url b i Hi) | exact IH].
Qed.

End Page.

(** ** The URL set of the ledger *)

Section Keys.
Context {U : UnicodeDB}.

(** The key under which a row is registered in the URL set: a row with an
    identifier registers none, and an empty key is not registered. *)
Definition url_key (r : item) : option str :=
  match dedupe_id r with
  | Some _ => None
  | None => if truthy_str (dedupe_url r) then dedupe_url r else None
  end.

(** The URL keys of the rows written so far, in order. *)
Definition written_urls (st : state) : list str :=
  omap (fun w => url_key (row w)) (csv st).

Record urls_ok (st : state) : Prop := {
  seen_url_iff_written : forall u, u ∈ seen_detail_urls st <-> u ∈ written_urls st;
  written_url_once : NoDup (written_urls st)
}.

Lemma url_key_Some r u :
  url_key r = Some u <-> dedupe_id r = None /\ dedupe_url r = Some u /\ u <> [].
Proof.
  unfold url_key. destruct (dedupe_id r) as [i|].
  - split; [discriminate | intros [H _]; discriminate H].
  - destruct (dedupe_url r) as [[|c v]|]; cbn [truthy_str].
    + split; [discriminate | intros (_ & [= <-] & Hne); contradiction].
    + split; [intros [= <-]; repeat split; discriminate
             | intros (_ & [= <-] & _); reflexivity].
    + split; [discriminate | intros (_ & H & _); discriminate H].
Qed.

Lemma duplicate_url st r u :
  url_key r = Some u -> duplicate st r = bool_decide (u ∈ seen_detail_urls st).
Proof.
  intros (Hid & Hurl & Hne)%url_key_Some. unfold duplicate. rewrite Hid, Hurl.
  destruct u; [contradiction | reflexivity].
Qed.

Lemma duplicate_no_key st r :
  dedupe_id r = None -> url_key r = None -> duplicate st r = false.
Proof.
  unfold url_key, duplicate. intros ->.
  destruct (truthy_str (dedupe_url r)) eqn:Ht; [|reflexivity].
  intros Hnone. rewrite Hnone in Ht. discriminate Ht.
Qed.

Lemma mark_seen_url st r u :
  url_key r = Some u ->
  seen_detail_urls (mark_seen st r) = {[ u ]} ∪ seen_detail_urls st
  /\ seen_item_ids (mark_seen st r) = seen_item_ids st.
Proof.
  intros (Hid & Hurl & Hne)%url_key_Some. unfold mark_seen. rewrite Hid, Hurl.
  destruct u; [contradiction | easy].
Qed.

Lemma mark_seen_no_url st r :
  url_key r = None -> seen_detail_urls (mark_seen st r) = seen_detail_urls st.
Proof.
  unfold url_key, mark_seen. destruct (dedupe_id r); [reflexivity|].
  destruct (truthy_str (dedupe_url r)) eqn:Ht; [|reflexivity].
  intros Hnone. rewrite Hnone in Ht. discriminate Ht.
Qed.

Lemma written_urls_write st r :
  written_urls (write_row (mark_seen st r) r) =
  written_urls st ++ match url_key r with Some u => [u] | None => [] end.
Proof.
  unfold written_urls. simpl.
  destruct (mark_seen_rows st r) as [-> _].
  rewrite omap_app. simpl. now destruct (url_key r).
Qed.

Lemma urls_ok_process_row st r : urls_ok st -> urls_ok (process_row st r).
Proof.
  intros [Hiff Honce]. unfold process_row.
  destruct (duplicate st r) eqn:Hdup; [now split|].
  split.
  - intros u. rewrite written_urls_write. simpl.
    destruct (url_key r) as [v|] eqn:Hv.
    + destruct (mark_seen_url st r v Hv) as [-> _].
      rewrite elem_of_union, elem_of_singleton, elem_of_app, list_elem_of_singleton.
      rewrite Hiff. tauto.
    + rewrite (mark_seen_no_url st r Hv), app_nil_r. apply Hiff.
  - rewrite written_urls_write.
    destruct (url_key r) as [v|] eqn:Hv; [|now rewrite app_nil_r].
    rewrite (duplicate_url st r v Hv) in Hdup.
    apply bool_decide_eq_false in Hdup.
    apply NoDup_app. split; [exact Honce|]. split.
    + intros x Hx ->%list_elem_of_singleton. apply Hdup. now apply Hiff.
    + apply NoDup_singleton.
Qed.

Lemma urls_ok_main scrape start_url pages until_empty out_xlsx fuel final :
  main scrape start_url pages until_empty out_xlsx fuel = Some final ->
  urls_ok final.
Proof.
  apply loop_invariant.
  - intros st r. apply urls_ok_process_row.
  - intros st u [Hiff Honce]. now split.
  - intros st [Hiff Honce]. now split.
  - split; simpl.
    + intros u. unfold written_urls. simpl. set_solver.
    + constructor.
Qed.

Lemma seen_urls_grow st r :
  seen_detail_urls st ⊆ seen_detail_urls (process_row st r).
Proof.
  unfold process_row. destruct (duplicate st r); [done|]. simpl.
  destruct (url_key r) as [u|] eqn:Hu.
  - destruct (mark_seen_url st r u Hu) as [-> _].
    intros x Hx. now apply elem_of_union_r.
  - now rewrite mark_seen_no_url.
Qed.

Lemma seen_urls_grow_rows rows :
  forall st, seen_detail_urls st ⊆ seen_detail_urls (fold_left process_row rows st).
Proof.
  induction rows as [|r rows IH]; intros st; simpl; [done|].
  etrans; [apply (seen_urls_grow st r) | apply IH].
Qed.

(** X8.  De-duplication by URL: for a candidate without identifier whose
    normalized detail URL [u] is not empty, presenting it twice is the
    same as presenting it once; when [u] has not been registered the
    candidate is written and [u] joins the URL set, the identifier set
    staying as it was; from then on every candidate without identifier
    whose key is [u] is a duplicate and changes nothing; and in a whole run
    no URL key is written twice, the keys written being those of the URL
    set. *)
Theorem url_dedup_idempotence (r : item) (u : str)
    (Hid : dedupe_id r = None) (Hurl : dedupe_url r = Some u) (Hne : u <> []) :
  (forall st, process_row (process_row st r) r = process_row st r)
  /\ (forall st, u ∉ seen_detail_urls st ->
        duplicate st r = false
        /\ seen_detail_urls (process_row st r) = {[ u ]} ∪ seen_detail_urls st
        /\ seen_item_ids (process_row st r) = seen_item_ids st
        /\ exists w, csv (process_row st r) = csv st ++ [w] /\ row w = r)
  /\ (forall st rows r', u ∈ seen_detail_urls st ->
        dedupe_id r' = None -> dedupe_url r' = Some u ->
        duplicate (fold_left process_row rows st) r' = true
        /\ process_row (fold_left process_row rows st) r' =
           fold_left process_row rows st)
  /\ (forall scrape start_url pages until_empty out_xlsx fuel final,
        main scrape start_url pages until_empty out_xlsx fuel = Some final ->
        NoDup (written_urls final)
        /\ (u ∈ seen_detail_urls final <-> u ∈ written_urls final)).
Proof.
  assert (Hkey : forall x, dedupe_id x = None -> dedupe_url x = Some u ->
                           url_key x = Some u).
  { intros x Hx Hxu. now apply url_key_Some. }
  assert (Hlater : forall st r', u ∈ seen_detail_urls st ->
            dedupe_id r' = None -> dedupe_url r' = Some u ->
            duplicate st r' = true).
  { intros st r' Hin Hr' Hu'. rewrite (duplicate_url st r' u (Hkey r' Hr' Hu')).
    now apply bool_decide_eq_true. }
  assert (Hfirst : forall st, u ∉ seen_detail_urls st ->
            duplicate st r = false
            /\ seen_detail_urls (process_row st r) = {[ u ]} ∪ seen_detail_urls st
            /\ seen_item_ids (process_row st r) = seen_item_ids st
            /\ exists w, csv (process_row st r) = csv st ++ [w] /\ row w = r).
  { intros st Hnew.
    assert (Hdup : duplicate st r = false).
    { rewrite (duplicate_url st r u (Hkey r Hid Hurl)).
      now apply bool_decide_eq_false. }
    split; [exact Hdup|]. rewrite (process_row_novel st r Hdup). simpl.
    destruct (mark_seen_url st r u (Hkey r Hid Hurl)) as [-> ->].
    destruct (mark_seen_rows st r) as (-> & _).
    split; [reflexivity|]. split; [reflexivity|]. eexists. split; reflexivity. }
  split; [|split; [exact Hfirst|split]].
  - intros st. destruct (decide (u ∈ seen_detail_urls st)) as [Hin|Hnew].
    + now rewrite !(process_row_duplicate st r (Hlater st r Hin Hid Hurl)).
    + apply process_row_duplicate, Hlater; [|exact Hid|exact Hurl].
      destruct (Hfirst st Hnew) as (_ & Hseen & _). rewrite Hseen.
      apply elem_of_union_l, elem_of_singleton. reflexivity.
  - intros st rows r' Hin Hr' Hu'.
    assert (Hdup : duplicate (fold_left process_row rows st) r' = true).
    { apply Hlater; [|exact Hr'|exact Hu']. now apply (seen_urls_grow_rows rows st). }
    split; [exact Hdup | now apply process_row_duplicate].
  - intros scrape start_url pages until_empty out_xlsx fuel final
      [Hiff Honce]%urls_ok_main.
    split; [exact Honce | apply Hiff].
Qed.

(** X9.  A candidate with neither a trimmed identifier nor a non-empty
    normalized detail URL is never a duplicate: it is written every time
    it is presented, and it registers nothing, so presenting it twice
    writes two rows. *)
Theorem keyless_rows_always_written (r : item)
    (Hid : dedupe_id r = None) (Hurl : truthy_str (dedupe_url r) = false) :
  forall st,
    duplicate st r = false
    /\ seen_item_ids (process_row st r) = seen_item_ids st
    /\ seen_detail_urls (process_row st r) = seen_detail_urls st
    /\ (exists w, csv (process_row st r) = csv st ++ [w] /\ row w = r)
    /\ exists w w',
         csv (process_row (process_row st r) r) = csv st ++ [w; w']
         /\ row w = r /\ row w' = r.
Proof.
  assert (Hkey : url_key r = None) by (unfold url_key; now rewrite Hid, Hurl).
  assert (Hstep : forall st,
    duplicate st r = false
    /\ seen_item_ids (process_row st r) = seen_item_ids st
    /\ seen_detail_urls (process_row st r) = seen_detail_urls st
    /\ exists w, csv (process_row st r) = csv st ++ [w] /\ row w = r).
  { intros st. pose proof (duplicate_no_key st r Hid Hkey) as Hdup.
    split; [exact Hdup|]. rewrite (process_row_novel st r Hdup). simpl.
    rewrite (mark_seen_no_id st r Hid), (mark_seen_no_url st r Hkey).
    destruct (mark_seen_rows st r) as (-> & _).
    split; [reflexivity|]. split; [reflexivity|]. eexists. split; reflexivity. }
  intros st. destruct (Hstep st) as (Hdup & Hids & Hurls & w & Hw & Hrow).
  repeat (split; [assumption|]). split; [eauto|].
  destruct (Hstep (process_row st r)) as (_ & _ & _ & w' & Hw' & Hrow').
  exists w, w'. rewrite Hw', Hw, <- app_assoc. easy.
Qed.

End Keys.

(** ** Whole runs *)

(** The items of a page, none when the request failed. *)
Definition items_of (o : outcome (list item)) : list item :=
  match o with
  | Returned items => items
  | Raised => []
  end.

(** A state with another page counter and another log of requests. *)
Definition with_cursor (st : state) (p : Z) (log : list (Z * str)) : state :=
  {| page := p; seen_item_ids := seen_item_ids st;
     seen_detail_urls := seen_detail_urls st; excel_row := excel_row st;
     xlsx_row0 := xlsx_row0 st; total_written := total_written st;
     csv := csv st; worksheet := worksheet st; fetched := log |}.

Section Trace.
Context {U : UnicodeDB}.
Variable scrape : str -> outcome (list item).
Variable start_url : str.
Variable pages : option Z.
Variable until_empty : bool.
Variable out_xlsx : bool.

#[local] Abbreviation turn := (iteration scrape start_url pages until_empty).
#[local] Abbreviation walk := (loop scrape start_url pages until_empty).
#[local] Abbreviation run := (main scrape start_url pages until_empty out_xlsx).

(** The request of page [k]: the page and its URL, as they are logged. *)
Definition request (k : Z) : Z * str := (k, set_page_param start_url k).

(** The candidates of the pages of a log, in the order of the requests. *)
Definition candidates (log : list (Z * str)) : list item :=
  flat_map (fun e => items_of (scrape (snd e))) log.

Lemma with_cursor_same st : with_cursor st (page st) (fetched st) = st.
Proof. now destruct st. Qed.

Lemma with_cursor_again st p log p' log' :
  with_cursor (with_cursor st p log) p' log' = with_cursor st p' log'.
Proof. reflexivity. Qed.

Lemma process_row_cursor st p log r :
  process_row (with_cursor st p log) r = with_cursor (process_row st r) p log.
Proof.
  unfold process_row.
  change (duplicate (with_cursor st p log) r) with (duplicate st r).
  destruct (duplicate st r); [reflexivity|].
  unfold mark_seen. destruct (dedupe_id r); [reflexivity|].
  destruct (truthy_str (dedupe_url r)); reflexivity.
Qed.

Lemma process_rows_cursor rows :
  forall st p log,
    fold_left process_row rows (with_cursor st p log) =
    with_cursor (fold_left process_row rows st) p log.
Proof.
  induction rows as [|r rows IH]; intros st p log; cbn [fold_left]; [reflexivity|].
  now rewrite process_row_cursor, IH.
Qed.

(** One turn of the loop: the page is logged, its candidates are
    processed, and the loop goes on to the next page or stops; it goes on
    only from a page that was scraped, within the budget. *)
Lemma turn_trace st :
  exists stop : bool,
    turn st =
    (with_cursor
       (fold_left process_row
          (items_of (scrape (set_page_param start_url (page st)))) st)
       (if stop then page st else page st + 1)%Z
       (fetched st ++ [request (page st)]),
     if stop then Break else Continue)
    /\ if stop
       then budget_spent start_url pages st = true
            \/ scrape (set_page_param start_url (page st)) = Raised
            \/ (until_empty = true
                /\ scrape (set_page_param start_url (page st)) = Returned [])
       else budget_spent start_url pages st = false
            /\ exists items,
                 scrape (set_page_param start_url (page st)) = Returned items
                 /\ (until_empty = false \/ items <> []).
Proof.
  unfold iteration.
  change (log_fetch st (set_page_param start_url (page st)))
    with (with_cursor st (page st) (fetched st ++ [request (page st)])).
  destruct (scrape (set_page_param start_url (page st))) as [items|];
    cbn [items_of fold_left]; [|exists true; split; [reflexivity | now right; left]].
  destruct (negb (nonempty_list items) && until_empty) eqn:Hstop.
  - exists true. destruct items; [|discriminate Hstop].
    split; [reflexivity|]. right; right. now destruct until_empty.
  - rewrite process_rows_cursor.
    change (budget_spent start_url pages (with_cursor ?x (page st) ?l))
      with (budget_spent start_url pages st).
    destruct (budget_spent start_url pages st) eqn:Hspent.
    + exists true. split; [reflexivity | now left].
    + exists false. split; [reflexivity|]. split; [reflexivity|].
      exists items. split; [reflexivity|].
      destruct items; [|now right]. left. now destruct until_empty.
Qed.

(** What a finished loop has done: it requested [n >= 1] consecutive
    pages and processed their candidates in order. *)
Lemma walk_trace fuel :
  forall st final,
    walk fuel st = Some final ->
    exists n : nat,
      (1 <= n <= fuel)%nat
      /\ fetched final = fetched st ++ map request
                                         (seqZ (page st) (Z.of_nat n))
      /\ page final = (page st + Z.of_nat n - 1)%Z
      /\ final =
         with_cursor
           (fold_left process_row
              (candidates (map request (seqZ (page st) (Z.of_nat n))))
              st)
           (page final) (fetched final).
Proof.
  induction fuel as [|fuel IH]; intros st final; cbn [loop]; [discriminate|].
  destruct (turn_trace st) as ([|] & -> & _).
  - intros [= <-]. exists 1%nat. cbn [with_cursor page fetched].
    split; [lia|]. split; [reflexivity|]. split; [lia|].
    unfold candidates.
    change (map request (seqZ (page st) (Z.of_nat 1))) with [request (page st)].
    cbn [flat_map request snd]. now rewrite app_nil_r.
  - intros Hrun. apply IH in Hrun as (n & Hn & Hlog & Hpage & Hfinal).
    cbn [with_cursor page fetched] in Hlog, Hpage.
    exists (S n). split; [lia|].
    assert (Hseq : seqZ (page st) (Z.of_nat (S n)) =
                   page st :: seqZ (page st + 1) (Z.of_nat n)).
    { rewrite seqZ_cons by lia. do 2 f_equal. lia. }
    rewrite Hseq. cbn [map].
    split; [rewrite Hlog, <- app_assoc; reflexivity|].
    split; [lia|].
    rewrite Hfinal at 1. cbn [with_cursor page].
    rewrite process_rows_cursor, with_cursor_again.
    unfold candidates at 2. cbn [flat_map request snd]. rewrite fold_left_app.
    reflexivity.
Qed.

Lemma main_trace fuel final :
  run fuel = Some final ->
  exists n : nat,
    (1 <= n <= fuel)%nat
    /\ fetched final = map request
                         (seqZ (start_page start_url) (Z.of_nat n))
    /\ page final = (start_page start_url + Z.of_nat n - 1)%Z
    /\ final =
       with_cursor
         (fold_left process_row (candidates (fetched final))
            (initial start_url out_xlsx))
         (page final) (fetched final).
Proof.
  intros (n & Hn & Hlog & Hpage & Hfinal)%walk_trace.
  cbn [initial page fetched app] in Hlog, Hpage.
  exists n. repeat (split; [assumption|]).
  rewrite Hlog at 1. exact Hfinal.
Qed.

(** The rows written for a list of candidates are some of them, in
    order. *)
Lemma process_rows_sublist rows :
  forall st,
    exists kept,
      map row (csv (fold_left process_row rows st)) = map row (csv st) ++ kept
      /\ kept `sublist_of` rows.
Proof.
  induction rows as [|r rows IH]; intros st; cbn [fold_left].
  - exists []. split; [now rewrite app_nil_r | constructor].
  - destruct (IH (process_row st r)) as (kept & -> & Hsub).
    unfold process_row. destruct (duplicate st r).
    + exists kept. split; [reflexivity | now constructor].
    + exists (r :: kept). cbn [write_row csv].
      destruct (mark_seen_rows st r) as (-> & _).
      rewrite map_app, <- app_assoc. split; [reflexivity | now constructor].
Qed.

(** X10.  De-duplication runs across pages: the output of a finished
    run is what one pass over the candidates of all the pages requested,
    in the order of the requests, writes from the initial state: the same
    rows, worksheet, sets and count; and the rows written are candidates,
    in that order. *)
Theorem run_is_one_pass (fuel : nat) (final : state)
    (Hrun : run fuel = Some final) :
  let once :=
    fold_left process_row (candidates (fetched final))
      (initial start_url out_xlsx) in
  csv final = csv once
  /\ worksheet final = worksheet once
  /\ seen_item_ids final = seen_item_ids once
  /\ seen_detail_urls final = seen_detail_urls once
  /\ total_written final = total_written once
  /\ map row (csv final) `sublist_of` candidates (fetched final).
Proof.
  destruct (main_trace fuel final Hrun) as (n & _ & _ & _ & Hfinal).
  cbv zeta.
  set (once := fold_left process_row (candidates (fetched final))
                 (initial start_url out_xlsx)) in *.
  assert (Hcsv : csv final = csv once) by (now rewrite Hfinal at 1).
  split; [exact Hcsv|].
  split; [now rewrite Hfinal at 1|]. split; [now rewrite Hfinal at 1|].
  split; [now rewrite Hfinal at 1|]. split; [now rewrite Hfinal at 1|].
  rewrite Hcsv.
  destruct (process_rows_sublist (candidates (fetched final))
              (initial start_url out_xlsx)) as (kept & Hkept & Hsub).
  fold once in Hkept. rewrite Hkept. exact Hsub.
Qed.

(** X11.  The pages of a run: a finished run has requested the start
    page and the pages after it, one by one, each exactly once and with
    the URL that [set_page_param] writes for it; there is at least one
    request, and the page counter ends on the last page requested. *)
Theorem requests_are_consecutive (fuel : nat) (final : state)
    (Hrun : run fuel = Some final) :
  exists n : nat,
    (1 <= n <= fuel)%nat
    /\ map fst (fetched final) = seqZ (start_page start_url) (Z.of_nat n)
    /\ Forall (fun e => snd e = set_page_param start_url (fst e)) (fetched final)
    /\ NoDup (map fst (fetched final))
    /\ page final = (start_page start_url + Z.of_nat n - 1)%Z.
Proof.
  destruct (main_trace fuel final Hrun) as (n & Hn & Hlog & Hpage & _).
  exists n. split; [exact Hn|].
  assert (Hfst : map fst (fetched final) = seqZ (start_page start_url) (Z.of_nat n)).
  { rewrite Hlog, map_map. apply map_id. }
  split; [exact Hfst|]. split; [|split; [|exact Hpage]].
  - rewrite Hlog. apply Forall_forall. intros e (k & -> & _)%list_elem_of_fmap.
    reflexivity.
  - rewrite Hfst. apply NoDup_seqZ.
Qed.

(** *** The budget bounds every run *)





(** *** Runs without a budget *)







(** *** No candidate is lost *)

(** A candidate is registered: its identifier or its URL key is in the
    set it belongs to, or, when it has no key, it is one of the rows. *)
Definition registered (st : state) (r : item) : Prop :=
  match dedupe_id r, url_key r with
  | Some i, _ => i ∈ seen_item_ids st
  | None, Some u => u ∈ seen_detail_urls st
  | None, None => In r (map row (csv st))
  end.

Lemma csv_grows_rows rows :
  forall st, csv st `prefix_of` csv (fold_left process_row rows st).
Proof.
  induction rows as [|r rows IH]; intros st; cbn [fold_left]; [done|].
  etrans; [apply csv_grows_process_row | apply IH].
Qed.

Lemma registered_grows st r x :
  registered st x -> registered (process_row st r) x.
Proof.
  unfold registered. destruct (dedupe_id x) as [i|]; [|destruct (url_key x) as [u|]].
  - apply seen_ids_grow.
  - apply seen_urls_grow.
  - intros Hin. destruct (csv_grows_process_row st r) as [more ->].
    rewrite map_app. apply in_or_app. now left.
Qed.

Lemma registered_process_row st r : registered (process_row st r) r.
Proof.
  unfold registered, process_row.
  destruct (dedupe_id r) as [i|] eqn:Hi; [|destruct (url_key r) as [u|] eqn:Hu].
  - rewrite (duplicate_id st r i Hi).
    destruct (bool_decide_reflect (i ∈ seen_item_ids st)) as [Hin|_]; [exact Hin|].
    cbn [write_row seen_item_ids].
    destruct (mark_seen_id st r i Hi) as [-> _].
    apply elem_of_union_l, elem_of_singleton. reflexivity.
  - rewrite (duplicate_url st r u Hu).
    destruct (bool_decide_reflect (u ∈ seen_detail_urls st)) as [Hin|_]; [exact Hin|].
    cbn [write_row seen_detail_urls].
    destruct (mark_seen_url st r u Hu) as [-> _].
    apply elem_of_union_l, elem_of_singleton. reflexivity.
  - rewrite (duplicate_no_key st r Hi Hu). cbn [write_row csv].
    rewrite map_app. apply in_or_app. right. now left.
Qed.

Lemma registered_rows rows :
  forall st, Forall (registered (fold_left process_row rows st)) rows.
Proof.
  induction rows as [|r rows IH]; intros st; cbn [fold_left]; constructor.
  - assert (Hkeep : forall more s,
              registered s r -> registered (fold_left process_row more s) r).
    { induction more as [|x more IHm]; intros s Hs; cbn [fold_left]; [exact Hs|].
      apply IHm, registered_grows, Hs. }
    apply Hkeep, registered_process_row.
  - apply IH.
Qed.

(** X15.  No candidate is lost: in a finished run, every candidate of a
    requested page that has a trimmed identifier has a row with that
    identifier in the output; every candidate without identifier that has
    a URL key has a row with that key; and every candidate with neither is
    itself a row. *)
Theorem every_candidate_is_written (fuel : nat) (final : state)
    (Hrun : run fuel = Some final) (r : item)
    (Hin : In r (candidates (fetched final))) :
  (forall i, dedupe_id r = Some i ->
     exists w, In w (csv final) /\ dedupe_id (row w) = Some i)
  /\ (forall u, url_key r = Some u ->
        exists w, In w (csv final) /\ url_key (row w) = Some u)
  /\ (dedupe_id r = None -> url_key r = None -> In r (map row (csv final))).
Proof.
  destruct (main_trace fuel final Hrun) as (n & _ & _ & _ & Hfinal).
  pose proof (registered_rows (candidates (fetched final))
                (initial start_url out_xlsx)) as Hall.
  rewrite List.Forall_forall in Hall. specialize (Hall r Hin).
  set (once := fold_left process_row (candidates (fetched final))
                 (initial start_url out_xlsx)) in *.
  assert (Hreg : registered final r).
  { rewrite Hfinal. exact Hall. }
  clear Hall Hfinal once.
  destruct (ledger_ok_main _ _ _ _ _ _ _ Hrun) as [Hids _].
  destruct (urls_ok_main _ _ _ _ _ _ _ Hrun) as [Hurls _].
  unfold registered in Hreg.
  split; [|split].
  - intros i Hi. rewrite Hi in Hreg. apply Hids in Hreg.
    unfold written_ids in Hreg.
    apply list_elem_of_omap in Hreg as (w & Hw & Hkey).
    exists w. split; [now apply list_elem_of_In | exact Hkey].
  - intros u Hu.
    assert (Hid : dedupe_id r = None) by (now apply url_key_Some in Hu).
    rewrite Hid, Hu in Hreg. apply Hurls in Hreg.
    unfold written_urls in Hreg.
    apply list_elem_of_omap in Hreg as (w & Hw & Hkey).
    exists w. split; [now apply list_elem_of_In | exact Hkey].
  - intros Hid Hu. now rewrite Hid, Hu in Hreg.
Qed.

(** *** The count *)

Definition keyless (w : csv_row) : bool :=
  match dedupe_id (row w), url_key (row w) with
  | None, None => true
  | _, _ => false
  end.

Lemma rows_by_key (rows : list csv_row) :
  length rows =
  (length (omap (fun w => dedupe_id (row w)) rows)
   + length (omap (fun w => url_key (row w)) rows)
   + length (List.filter keyless rows))%nat.
Proof.
  induction rows as [|w rows IH]; [reflexivity|].
  cbn [omap list_omap List.filter length]. unfold keyless at 1.
  destruct (dedupe_id (row w)) as [i|] eqn:Hi.
  - assert (Hu : url_key (row w) = None) by (unfold url_key; now rewrite Hi).
    rewrite Hu. cbn [length]. lia.
  - destruct (url_key (row w)); cbn [length]; lia.
Qed.

Lemma size_seen (X : gset str) (l : list str) :
  (forall x, x ∈ X <-> x ∈ l) -> NoDup l -> size X = length l.
Proof.
  intros Hiff Hnodup. rewrite <- (size_list_to_set (C := gset str) l Hnodup).
  f_equal. apply set_eq. intros x. rewrite elem_of_list_to_set. apply Hiff.
Qed.

Lemma total_written_process_row st r :
  total_written st = Z.of_nat (length (csv st)) ->
  total_written (process_row st r) = Z.of_nat (length (csv (process_row st r))).
Proof.
  intros Hst. unfold process_row. destruct (duplicate st r); [exact Hst|].
  cbn [write_row total_written csv].
  assert (Htotal : total_written (mark_seen st r) = total_written st).
  { unfold mark_seen. destruct (dedupe_id r); [reflexivity|].
    now destruct (truthy_str (dedupe_url r)). }
  destruct (mark_seen_rows st r) as (-> & _).
  rewrite Htotal, Hst, length_app. cbn [length]. lia.
Qed.

(** X16.  The count reported at the end of a run is the number of rows
    written, which is the number of distinct identifiers registered, plus
    the number of distinct URL keys registered, plus the number of rows
    that have no key; the worksheet, when there is one, has as many data
    rows. *)
Theorem total_written_counts_rows (fuel : nat) (final : state)
    (Hrun : run fuel = Some final) :
  total_written final = Z.of_nat (length (csv final))
  /\ length (csv final)
     = (size (seen_item_ids final) + size (seen_detail_urls final)
        + length (List.filter keyless (csv final)))%nat
  /\ (forall rows, worksheet final = Some rows -> length rows = length (csv final))
  /\ (worksheet final = None <-> out_xlsx = false).
Proof.
  split; [|split; [|split]].
  - apply (loop_invariant scrape start_url pages until_empty
             (fun s => total_written s = Z.of_nat (length (csv s))))
      with (fuel := fuel) (st := initial start_url out_xlsx);
      [| | | |exact Hrun]; try easy.
    intros st r. apply total_written_process_row.
  - destruct (ledger_ok_main _ _ _ _ _ _ _ Hrun) as [Hids Hid_once].
    destruct (urls_ok_main _ _ _ _ _ _ _ Hrun) as [Hurls Hurl_once].
    rewrite (size_seen _ _ Hids Hid_once), (size_seen _ _ Hurls Hurl_once).
    apply rows_by_key.
  - intros rows Hrows.
    destruct (rows_ok_main _ _ _ _ _ _ _ Hrun) as [_ _ _ Hsheet].
    now destruct (Hsheet rows Hrows).
  - apply (loop_invariant scrape start_url pages until_empty
             (fun s => worksheet s = None <-> out_xlsx = false))
      with (fuel := fuel) (st := initial start_url out_xlsx);
      [| | | |exact Hrun].
    + intros st r Hst. unfold process_row. destruct (duplicate st r); [exact Hst|].
      cbn [write_row worksheet].
      destruct (mark_seen_rows st r) as (_ & _ & _ & -> & _).
      destruct (worksheet st); [|exact Hst].
      cbn. split; [discriminate|]. intros H. apply Hst in H. discriminate H.
    + intros st u Hst. exact Hst.
    + intros st Hst. exact Hst.
    + cbn [initial worksheet]. destruct out_xlsx; split; congruence.
Qed.

End Trace.

(** ** Trimmed identifiers *)

Section Trim.
Context {U : UnicodeDB}.

Lemma lstrip_by_head p s :
  lstrip_by p s = [] \/ exists c r, lstrip_by p s = c :: r /\ p c = false.
Proof.
  induction s as [|c s IH]; cbn [lstrip_by]; [now left|].
  destruct (p c) eqn:Hc; [exact IH | right; eauto].
Qed.

Lemma lstrip_by_all p a x :
  Forall (fun c => p c = true) a -> lstrip_by p (a ++ x) = lstrip_by p x.
Proof.
  induction 1 as [|c a Hc _ IH]; cbn [app lstrip_by]; [reflexivity|].
  now rewrite Hc.
Qed.

Lemma lstrip_by_nil p s : lstrip_by p s = [] -> Forall (fun c => p c = true) s.
Proof.
  induction s as [|c s IH]; cbn [lstrip_by]; [constructor|].
  destruct (p c) eqn:Hc; [|discriminate]. intros H. constructor; auto.
Qed.

Lemma lstrip_by_keep p s b :
  lstrip_by p s <> [] -> lstrip_by p (s ++ b) = lstrip_by p s ++ b.
Proof.
  induction s as [|c s IH]; cbn [app lstrip_by]; [contradiction|].
  destruct (p c); [exact IH | reflexivity].
Qed.

Lemma lstrip_by_started p c r : p c = false -> lstrip_by p (c :: r) = c :: r.
Proof. intros Hc. cbn [lstrip_by]. now rewrite Hc. Qed.

(** White space around a text does not change what [strip] returns. *)
Lemma strip_by_padded p a s b :
  Forall (fun c => p c = true) a -> Forall (fun c => p c = true) b ->
  strip_by p (a ++ s ++ b) = strip_by p s.
Proof.
  intros Ha Hb. unfold strip_by. rewrite (lstrip_by_all p a _ Ha).
  destruct (lstrip_by p s) as [|c r] eqn:Hs.
  - assert (Hall : Forall (fun c => p c = true) (s ++ b))
      by (apply Forall_app; split; [now apply lstrip_by_nil | exact Hb]).
    replace (lstrip_by p (s ++ b)) with (@nil N); [reflexivity|].
    symmetry. rewrite <- (app_nil_r (s ++ b)).
    now rewrite (lstrip_by_all p (s ++ b) [] Hall).
  - rewrite lstrip_by_keep by (rewrite Hs; discriminate).
    rewrite Hs, rev_app_distr.
    now rewrite (lstrip_by_all p (rev b) _ (Forall_rev Hb)).
Qed.

Lemma last_rev_head (l : list N) : last (rev l) = head l.
Proof. destruct l as [|x l]; [reflexivity|]. cbn [rev]. apply last_snoc. Qed.

(** What [strip] returns neither starts nor ends with white space, and
    is left alone by [strip]. *)
Lemma strip_by_trimmed p s :
  (forall c, head (strip_by p s) = Some c -> p c = false)
  /\ (forall c, last (strip_by p s) = Some c -> p c = false)
  /\ strip_by p (strip_by p s) = strip_by p s.
Proof.
  unfold strip_by at 1 2 4.
  set (a := lstrip_by p s).
  set (b := lstrip_by p (rev a)).
  assert (Hlast : forall c, last (rev b) = Some c -> p c = false).
  { intros c. rewrite last_rev_head.
    destruct (lstrip_by_head p (rev a)) as [Hnil | (x & r & Hb & Hx)];
      fold b in Hnil || fold b in Hb.
    - rewrite Hnil. discriminate.
    - rewrite Hb. now intros [= <-]. }
  assert (Hhead : forall c, head (rev b) = Some c -> p c = false).
  { intros c Hc.
    destruct (lstrip_by_head p s) as [Hnil | (x & r & Ha & Hx)];
      fold a in Hnil || fold a in Ha.
    - unfold b in Hc. rewrite Hnil in Hc. discriminate Hc.
    - (* [rev a = d ++ b] with [d] white space: [a] starts as [rev b] does *)
      assert (Hsplit : exists d, rev a = d ++ b).
      { unfold b. generalize (rev a). intros l.
        induction l as [|y l (d & IH)]; cbn [lstrip_by]; [now exists []|].
        destruct (p y); [exists (y :: d); now rewrite IH at 1 | now exists []]. }
      destruct Hsplit as (d & Hd).
      assert (Ha' : a = rev b ++ rev d).
      { rewrite <- (rev_involutive a), Hd. apply rev_app_distr. }
      destruct (rev b) as [|z t]; [discriminate Hc|].
      injection Hc as ->. rewrite Ha in Ha'. injection Ha' as -> _. exact Hx. }
  split; [exact Hhead|]. split; [exact Hlast|].
  unfold strip_by.
  assert (Hkeep : lstrip_by p (rev b) = rev b).
  { destruct (rev b) as [|z t] eqn:Hb; [reflexivity|].
    apply lstrip_by_started, Hhead. reflexivity. }
  rewrite Hkeep, rev_involutive.
  assert (Hb : lstrip_by p b = b).
  { destruct (lstrip_by_head p (rev a)) as [Hnil | (x & r & Hb & Hx)];
      fold b in Hnil || fold b in Hb.
    - now rewrite Hnil.
    - rewrite Hb. now apply lstrip_by_started. }
  now rewrite Hb.
Qed.

(** X17.  The de-duplication identifier of a row is trimmed: it is not
    empty, it neither starts nor ends with white space, trimming it again
    changes nothing, and white space around the identifier of a row does
    not change its key, so two rows whose identifiers differ only in
    surrounding white space are duplicates of each other; every
    identifier of the identifier set of a run is such a trimmed text. *)
Theorem dedupe_id_trimmed (r : item) (i : str) (Hid : dedupe_id r = Some i) :
  i <> []
  /\ strip i = i
  /\ (forall c, head i = Some c -> Py_UNICODE_ISSPACE c = false)
  /\ (forall c, last i = Some c -> Py_UNICODE_ISSPACE c = false)
  /\ (forall r' a b,
        Forall (fun c => Py_UNICODE_ISSPACE c = true) a ->
        Forall (fun c => Py_UNICODE_ISSPACE c = true) b ->
        item_id r' = Some (a ++ default [] (item_id r) ++ b) ->
        dedupe_id r' = Some i
        /\ forall st, duplicate (process_row st r) r' = true)
  /\ (forall scrape start_url pages until_empty out_xlsx fuel final,
        main scrape start_url pages until_empty out_xlsx fuel = Some final ->
        forall j, j ∈ seen_item_ids final -> j <> [] /\ strip j = j).
Proof.
  assert (Htrim : forall x j, dedupe_id x = Some j -> j <> [] /\ strip j = j
            /\ (forall c, head j = Some c -> Py_UNICODE_ISSPACE c = false)
            /\ (forall c, last j = Some c -> Py_UNICODE_ISSPACE c = false)).
  { intros x j. unfold dedupe_id, strip.
    destruct (strip_by_trimmed Py_UNICODE_ISSPACE (default [] (item_id x)))
      as (Hh & Hl & Hs).
    destruct (strip_by Py_UNICODE_ISSPACE (default [] (item_id x))) as [|c s];
      cbn [nonempty]; [discriminate|].
    intros [= <-]. split; [discriminate|]. easy. }
  destruct (Htrim r i Hid) as (Hne & Hs & Hh & Hl).
  repeat (split; [assumption|]). split.
  - intros r' a b Ha Hb Hr'.
    assert (Hsame : dedupe_id r' = Some i).
    { rewrite <- Hid. unfold dedupe_id, strip. rewrite Hr'.
      change (default [] (Some (a ++ default [] (item_id r) ++ b)))
        with (a ++ default [] (item_id r) ++ b).
      now rewrite (strip_by_padded _ a _ b Ha Hb). }
    split; [exact Hsame|]. intros st.
    rewrite (duplicate_id _ r' i Hsame). apply bool_decide_eq_true.
    unfold process_row. rewrite (duplicate_id st r i Hid).
    destruct (bool_decide_reflect (i ∈ seen_item_ids st)) as [Hin|_]; [exact Hin|].
    cbn [write_row seen_item_ids]. destruct (mark_seen_id st r i Hid) as [-> _].
    apply elem_of_union_l, elem_of_singleton. reflexivity.
  - intros scrape start_url pages until_empty out_xlsx fuel final Hrun j Hj.
    destruct (ledger_ok_main _ _ _ _ _ _ _ Hrun) as [Hids _].
    apply Hids in Hj. unfold written_ids in Hj.
    apply list_elem_of_omap in Hj as (w & _ & Hw).
    destruct (Htrim (row w) j Hw) as (? & ? & _). easy.
Qed.

Lemma decimals_str_of_int_length n :
  length (decimals (str_of_int n)) = length (str_of_int (Z.abs n)).
Proof.
  assert (Hu : forall u,
            length (decimals (py (NilZero.string_of_uint u))) =
            length (py (NilZero.string_of_uint u))).
  { intros u. destruct (numeral_digits u) as [Hd _]. apply decimals_length.
    eapply Forall_impl; [exact Hd|]. apply ascii_digit_decimal. }
  destruct n as [|p|p].
  - apply (Hu (Decimal.D0 Decimal.Nil)).
  - apply (Hu (Pos.to_uint p)).
  - change (str_of_int (Z.neg p))
      with (N_of_ascii "-" :: py (NilZero.string_of_uint (Pos.to_uint p))).
    change (str_of_int (Z.abs (Z.neg p)))
      with (py (NilZero.string_of_uint (Pos.to_uint p))).
    rewrite <- Hu. unfold decimals. cbn [omap list_omap].
    now rewrite (todecimal_latin1 (N_of_ascii "-")) by (vm_compute; reflexivity).
Qed.

(** X18.  The price of the text of a number that [str] writes, one of at
    most 4300 digits, is its absolute value: [clean_price(str(n))] is [n]
    for a number that is not negative, and a minus sign is dropped like
    any other character that is not a digit. *)
Theorem clean_price_of_numeral (n : Z) (Hdigits : str_of_int_raises n = false) :
  clean_price (Some (str_of_int n)) = Returned (Some (Z.abs n))
  /\ ((0 <= n)%Z -> clean_price (Some (str_of_int n)) = Returned (Some n))
  /\ forall sign, is_decimal sign = false ->
       clean_price (Some (sign :: str_of_int n)) = Returned (Some (Z.abs n)).
Proof.
  unfold str_of_int_raises in Hdigits.
  assert (Habs : clean_price (Some (str_of_int n)) = Returned (Some (Z.abs n))).
  { rewrite clean_price_value. unfold long_price, price_of.
    change (default [] (Some (str_of_int n))) with (str_of_int n).
    rewrite decimals_str_of_int_length, Hdigits.
    destruct (decimals_str_of_int n) as [Hne <-].
    destruct (decimals (str_of_int n)); [contradiction | reflexivity]. }
  split; [exact Habs|]. split.
  - intros Hn. rewrite Habs. do 2 f_equal. lia.
  - intros sign Hsign. rewrite clean_price_value. unfold long_price, price_of.
    change (default [] (Some (sign :: str_of_int n))) with (sign :: str_of_int n).
    assert (Hskip : decimals (sign :: str_of_int n) = decimals (str_of_int n)).
    { unfold decimals. cbn [omap list_omap]. unfold is_decimal in Hsign.
      now destruct (Py_UNICODE_TODECIMAL sign). }
    rewrite Hskip, decimals_str_of_int_length, Hdigits.
    destruct (decimals_str_of_int n) as [Hne <-].
    destruct (decimals (str_of_int n)); [contradiction | reflexivity].
Qed.

End Trim.

(** ** The query of a rewritten URL, with or without a host *)

Definition query_free (s : str) : Prop := Forall (fun c => is_chr "?" c = false) s.

(** The scheme of a text does not depend on what follows a character
    that no scheme contains. *)
Lemma split_scheme_part_sep t c f :
  scheme_char c = false -> is_chr ":" c = false ->
  split_scheme_part (t ++ c :: f) =
  (fst (split_scheme_part t), snd (split_scheme_part t) ++ c :: f).
Proof.
  intros Hscheme Hcolon_c. unfold split_scheme_part. cbv zeta.
  destruct (contains ":" t) eqn:Hcolon.
  - pose proof (contains_true_split ":" t Hcolon) as Hsplit.
    set (h := take_until (is_chr ":") t) in *.
    set (r := tail (drop_until (is_chr ":") t)) in *.
    assert (Hh : Forall (fun c => is_chr ":" c = false) h)
      by apply Forall_take_until_false.
    assert (Hparts :
      take_until (is_chr ":") (t ++ c :: f) = h
      /\ tail (drop_until (is_chr ":") (t ++ c :: f)) = r ++ c :: f).
    { rewrite Hsplit at 1 2. rewrite <- app_assoc. cbn [app].
      destruct (take_until_stop (is_chr ":") h (N_of_ascii ":")
                  (r ++ c :: f) Hh eq_refl) as [-> ->].
      easy. }
    destruct Hparts as [-> ->].
    rewrite contains_app, Hcolon. cbn [orb andb].
    assert (Hfirst :
      match t ++ c :: f with x :: _ => ascii_alpha x | [] => false end
      = match t with x :: _ => ascii_alpha x | [] => false end).
    { destruct t as [|x t]; [discriminate Hcolon | reflexivity]. }
    rewrite Hfirst.
    destruct (negb (bool_decide (h = []))
              && match t with x :: _ => ascii_alpha x | [] => false end
              && forallb scheme_char h); reflexivity.
  - cbn [andb fst snd].
    assert (Hnone : Forall (fun x => is_chr ":" x = false) t).
    { apply List.Forall_forall. intros x Hx.
      destruct (is_chr ":" x) eqn:Hcx; [|reflexivity].
      assert (Hin : contains ":" t = true)
        by (apply existsb_exists; exists x; now split).
      congruence. }
    assert (Hhead : exists h, take_until (is_chr ":") (t ++ c :: f) = t ++ c :: h).
    { clear Hcolon. induction Hnone as [|x t Hx _ IH]; cbn [app take_until].
      - rewrite Hcolon_c. eauto.
      - rewrite Hx. destruct IH as (h & ->). eauto. }
    destruct Hhead as (h & ->).
    replace (forallb scheme_char (t ++ c :: h)) with false;
      [now rewrite andb_false_r|].
    symmetry. rewrite forallb_app. cbn [forallb]. rewrite Hscheme.
    cbn [andb]. apply andb_false_r.
Qed.

(** The query of a text: what stands between the first [?] and the
    fragment. *)
Lemma split_rest_query scheme t q F :
  query_free t -> hash_free t -> hash_free q ->
  F = [] \/ (exists f, F = N_of_ascii "#" :: f) ->
  split_query (split_rest scheme (t ++ N_of_ascii "?" :: q ++ F)) = q.
Proof.
  intros Htq Hth Hq HF. unfold split_rest. cbv zeta. cbn [split_query].
  assert (Hcut : forall v, query_free v -> hash_free v ->
    tail (drop_until (is_chr "?")
            (take_until (is_chr "#") (v ++ N_of_ascii "?" :: q ++ F))) = q).
  { intros v Hvq Hvh.
    assert (Hfrag : take_until (is_chr "#") (v ++ N_of_ascii "?" :: q ++ F)
                    = v ++ N_of_ascii "?" :: q).
    { assert (Hno : hash_free (v ++ N_of_ascii "?" :: q)).
      { apply Forall_app. split; [exact Hvh|]. constructor; [reflexivity | exact Hq]. }
      destruct HF as [-> | (f & ->)].
      - rewrite app_nil_r. now destruct (take_until_all _ _ Hno) as [-> _].
      - replace (v ++ N_of_ascii "?" :: q ++ N_of_ascii "#" :: f)
          with ((v ++ N_of_ascii "?" :: q) ++ N_of_ascii "#" :: f)
          by (now rewrite <- app_assoc).
        now destruct (take_until_stop (is_chr "#") _ (N_of_ascii "#") f Hno eq_refl)
          as [-> _]. }
    rewrite Hfrag.
    now destruct (take_until_stop (is_chr "?") v (N_of_ascii "?") q Hvq eq_refl)
      as [_ ->]. }
  destruct (starts_with (py "//") (t ++ N_of_ascii "?" :: q ++ F)) eqn:Hnet.
  - unfold starts_with in Hnet. apply bool_decide_eq_true in Hnet.
    destruct t as [|a [|b t]]; [discriminate Hnet..|].
    change (drop 2 ((a :: b :: t) ++ N_of_ascii "?" :: q ++ F))
      with (t ++ N_of_ascii "?" :: q ++ F).
    destruct (take_until_app_stop netloc_delim t (N_of_ascii "?") (q ++ F) eq_refl)
      as [_ ->].
    apply Hcut.
    + apply Forall_drop_until. exact (Forall_inv_tail (Forall_inv_tail Htq)).
    + apply Forall_drop_until. exact (Forall_inv_tail (Forall_inv_tail Hth)).
  - now apply Hcut.
Qed.

(** What [urlunsplit] writes before the query. *)
Definition before_query (scheme netloc url : str) : str :=
  let url :=
    if nonempty netloc
       || (nonempty scheme && bool_decide (scheme ∈ uses_netloc)
           && negb (starts_with (py "//") url))
    then
      let url :=
        if nonempty url && negb (starts_with (py "/") url)
        then py "/" ++ url else url in
      py "//" ++ netloc ++ url
    else url in
  if nonempty scheme then scheme ++ py ":" ++ url else url.

Lemma urlunsplit_before_query scheme netloc url query fragment :
  query <> [] ->
  urlunsplit scheme netloc url query fragment =
  before_query scheme netloc url ++ N_of_ascii "?" :: query
  ++ (if nonempty fragment then N_of_ascii "#" :: fragment else []).
Proof.
  intros Hq. unfold urlunsplit, before_query. cbv zeta.
  rewrite (nonempty_true query Hq).
  destruct (nonempty fragment); [|now rewrite app_nil_r].
  now rewrite <- !app_assoc.
Qed.

Lemma before_query_Forall (P : N -> Prop) scheme netloc url :
  P (N_of_ascii "/") -> P (N_of_ascii ":") ->
  Forall P scheme -> Forall P netloc -> Forall P url ->
  Forall P (before_query scheme netloc url).
Proof.
  intros Hslash Hcolon Hs Hn Hu. unfold before_query. cbv zeta.
  repeat match goal with
         | |- Forall _ (if ?c then _ else _) => destruct c
         | |- Forall _ (_ ++ _) => apply Forall_app; split
         | |- Forall _ (py _) => repeat constructor
         end; assumption.
Qed.

(** The text before the query does not start with a control character or
    a blank, when the path does not. *)
Lemma before_query_start scheme netloc url c r :
  Forall (fun x => scheme_char x = true) scheme ->
  (scheme = [] -> forall x s, url = x :: s -> c0_control_or_space x = false) ->
  before_query scheme netloc url = c :: r -> c0_control_or_space c = false.
Proof.
  intros Hscheme Hurl. unfold before_query. cbv zeta.
  destruct scheme as [|x scheme]; cbn [nonempty andb orb].
  - rewrite orb_false_r. destruct (nonempty netloc).
    + intros [= <- _]. reflexivity.
    + intros Heq. exact (Hurl eq_refl c r Heq).
  - intros [= <- _]. now apply Forall_inv, scheme_char_class in Hscheme.
Qed.

Lemma url_text_start url c r :
  url_text url = c :: r -> c0_control_or_space c = false.
Proof.
  unfold url_text.
  destruct (lstrip_by_head c0_control_or_space url) as [-> | (x & s & -> & Hx)];
    [discriminate|].
  cbn [List.filter].
  assert (Hsafe : unsafe_url_byte x = false).
  { revert Hx. unfold c0_control_or_space, unsafe_url_byte.
    intros Hx%N.leb_gt. rewrite !orb_false_iff.
    repeat split; apply N.eqb_neq; lia. }
  rewrite Hsafe. cbn [negb]. now intros [= <- _].
Qed.

(** Without a scheme, the path that [urlsplit] returns does not start
    with a control character or a blank. *)
Lemma urlsplit_path_start url c r :
  split_scheme (urlsplit url) = [] ->
  split_path (urlsplit url) = c :: r -> c0_control_or_space c = false.
Proof.
  rewrite urlsplit_parts.
  assert (Hrest : fst (split_scheme_part (url_text url)) = [] ->
                  snd (split_scheme_part (url_text url)) = url_text url).
  { unfold split_scheme_part. cbv zeta.
    destruct (contains ":" (url_text url)
              && negb (bool_decide (take_until (is_chr ":") (url_text url) = []))
              && match url_text url with x :: _ => ascii_alpha x | [] => false end
              && forallb scheme_char (take_until (is_chr ":") (url_text url)))
      eqn:Hcond; cbn [fst snd]; [|reflexivity].
    apply andb_true_iff in Hcond as [Hcond _].
    apply andb_true_iff in Hcond as [Hcond _].
    apply andb_true_iff in Hcond as [_ Hne].
    apply negb_true_iff, bool_decide_eq_false in Hne.
    intros Hnil. destruct (take_until _ _); [contradiction | discriminate Hnil]. }
  unfold split_rest at 1. cbn [split_scheme]. intros Hnone.
  rewrite (Hrest Hnone). unfold split_rest. cbv zeta. cbn [split_path].
  destruct (starts_with (py "//") (url_text url)).
  - destruct (drop_until_head netloc_delim (drop 2 (url_text url)))
      as [-> | (x & s & -> & Hx)]; [discriminate|].
    cbn [take_until].
    destruct (is_chr "#" x); [discriminate|]. cbn [take_until].
    destruct (is_chr "?" x); [discriminate|]. intros [= <- _].
    unfold netloc_delim in Hx.
    apply orb_true_iff in Hx as [Hx|Hx]; [apply orb_true_iff in Hx as [Hx|Hx]|];
      apply is_chr_eq in Hx; subst x; reflexivity.
  - destruct (url_text url) as [|x s] eqn:Htext; [discriminate|].
    cbn [take_until].
    destruct (is_chr "#" x); [discriminate|]. cbn [take_until].
    destruct (is_chr "?" x); [discriminate|]. intros [= <- _].
    exact (url_text_start url x s Htext).
Qed.

Lemma scheme_char_not_query c : scheme_char c = true -> is_chr "?" c = false.
Proof.
  intros Hc. destruct (is_chr "?" c) eqn:Hq; [|reflexivity].
  apply is_chr_eq in Hq. subst c. discriminate Hc.
Qed.

(** The query of what [set_page_param] returns is the one it wrote. *)
Lemma query_set_page_param url n :
  valid url ->
  query (urlparse (set_page_param url n)) = urlencode (paged url n).
Proof.
  intros Hvalid. destruct (paged_ok url n Hvalid) as [Hd Hne].
  unfold set_page_param. fold (paged url n). rewrite urlunparse_join.
  cbn [scheme netloc path params query fragment].
  rewrite (urlparse_split url). cbv zeta.
  cbn [scheme netloc path params query fragment].
  set (s := urlsplit url).
  destruct (split_params (split_scheme s) (split_path s)) as [pth prm] eqn:Hpp.
  cbn [fst snd].
  destruct (urlsplit_ok url) as [Hscheme Hdelim Hcn Hpq Hpf Hcp Hcf _].
  fold s in Hscheme, Hdelim, Hcn, Hpq, Hpf, Hcp, Hcf.
  destruct (split_join_params _ _ _ _ Hpp) as [Hjoin _].
  set (j := join_params pth prm) in *.
  destruct (urlencode_ok _ (proj2 Hd)) as [Hqf Hqc].
  pose proof (urlencode_nonempty _ (proj2 Hd) Hne) as Hq.
  rewrite urlparse_split. cbv zeta. cbn [query].
  rewrite (urlunsplit_before_query _ _ _ _ _ Hq).
  set (P := before_query (split_scheme s) (split_netloc s) j).
  set (F := if nonempty (split_fragment s)
            then N_of_ascii "#" :: split_fragment s else []).
  destruct Hscheme as (Hchars & _).
  assert (HPq : query_free P).
  { apply before_query_Forall; try reflexivity.
    - eapply Forall_impl; [exact Hchars|]. apply scheme_char_not_query.
    - eapply Forall_impl; [exact Hdelim|]. intros c Hc. unfold netloc_delim in Hc.
      apply orb_false_iff in Hc as [Hc _]. now apply orb_false_iff in Hc as [_ Hc].
    - exact (Forall_without_last _ _ _ Hjoin Hpq). }
  assert (HPh : hash_free P).
  { apply before_query_Forall; try reflexivity.
    - eapply Forall_impl; [exact Hchars|]. apply scheme_char_not_hash.
    - eapply Forall_impl; [exact Hdelim|]. intros c Hc. unfold netloc_delim in Hc.
      now apply orb_false_iff in Hc as [_ Hc].
    - exact (Forall_without_last _ _ _ Hjoin Hpf). }
  assert (HPc : clean P).
  { apply before_query_Forall; try reflexivity.
    - eapply Forall_impl; [exact Hchars|]. now intros c (_ & H & _)%scheme_char_class.
    - exact Hcn.
    - exact (Forall_without_last _ _ _ Hjoin Hcp). }
  assert (HFc : clean F).
  { unfold F. destruct (nonempty (split_fragment s)); [|constructor].
    apply clean_cons; [reflexivity | exact Hcf]. }
  assert (Hclean : clean (P ++ N_of_ascii "?" :: urlencode (paged url n) ++ F)).
  { apply clean_app; [exact HPc|]. apply clean_cons; [reflexivity|].
    now apply clean_app. }
  assert (Hstart : forall c r,
            P ++ N_of_ascii "?" :: urlencode (paged url n) ++ F = c :: r ->
            c0_control_or_space c = false).
  { intros c r. destruct P as [|x P'] eqn:HP; cbn [app].
    - intros [= <- _]. reflexivity.
    - intros [= <- _]. apply (before_query_start (split_scheme s) (split_netloc s) j x P').
      + exact Hchars.
      + intros Hnone y t Hj.
        assert (Hsp : exists t', split_path s = y :: t').
        { destruct Hjoin as [<- | ->]; rewrite Hj; cbn [app]; eauto. }
        destruct Hsp as (t' & Hsp).
        exact (urlsplit_path_start url y t' Hnone Hsp).
      + exact HP. }
  assert (Htext : url_text (P ++ N_of_ascii "?" :: urlencode (paged url n) ++ F)
                  = P ++ N_of_ascii "?" :: urlencode (paged url n) ++ F).
  { destruct (P ++ N_of_ascii "?" :: urlencode (paged url n) ++ F) as [|c r] eqn:HT.
    - reflexivity.
    - apply url_text_id; [exact (Hstart c r eq_refl) | exact Hclean]. }
  rewrite urlsplit_parts, Htext.
  rewrite (split_scheme_part_sep P (N_of_ascii "?") _ eq_refl eq_refl).
  cbn [fst snd].
  apply split_rest_query.
  - now apply split_scheme_part_Forall.
  - now apply split_scheme_part_Forall.
  - exact Hqf.
  - unfold F. destruct (nonempty (split_fragment s)); [right; eauto | now left].
Qed.

(** X5.  The start page read off a URL written by [set_page_param] is
    the page that was set, negative or not, for a URL with a host on
    which [urlparse] returns and a page that [str] writes: [urlparse]
    returns on the result, whose query holds the parameters of the
    original with [page] set to [n]; it has exactly one [page] field with
    a value, however many the original had, and the page loop of a run
    started from the URL of page [n] starts at [n]. *)
Theorem start_page_set_page_param {U : UnicodeDB} (url : str) (n : Z)
    (Hhost : netloc (urlparse url) <> []) (Hvalid : valid url)
    (Haccepted : urlparse_raises url = false)
    (Hdigits : str_of_int_raises n = false) :
  set_page_param_raises url n = false
  /\ urlparse_raises (set_page_param url n) = false
  /\ start_page (set_page_param url n) = n
  /\ parse_qs (query (urlparse (set_page_param url n))) =
     dict_set (parse_qs (query (urlparse url))) (py "page") [str_of_int n]
  /\ values_of (py "page")
       (parse_qsl false (query (urlparse (set_page_param url n))))
     = [str_of_int n]
  /\ forall out_xlsx, page (initial (set_page_param url n) out_xlsx) = n.
Proof.
  assert (Hquery : parse_qs (query (urlparse (set_page_param url n))) = paged url n).
  { rewrite (query_set_page_param url n Hvalid).
    exact (parse_qs_urlencode _ (proj1 (paged_ok url n Hvalid))). }
  assert (Hagain : urlparse_raises (set_page_param url n) = false).
  { rewrite (urlparse_raises_netloc (set_page_param url n) url);
      [exact Haccepted|].
    now rewrite (urlparse_set_page_param url n Hhost Hvalid). }
  assert (Hstart : start_page (set_page_param url n) = n).
  { unfold start_page. rewrite Hagain, Hquery. unfold paged. rewrite dict_get_set.
    change (default [] (head (default [py "1"] (Some [str_of_int n]))))
      with (str_of_int n).
    now rewrite (int_str_of_int n Hdigits). }
  split; [now apply set_page_param_returns|]. split; [exact Hagain|].
  split; [exact Hstart|]. split; [exact Hquery|]. split; [|intros ?; exact Hstart].
  pose proof (dict_get_parse_qs (query (urlparse (set_page_param url n)))
                (py "page")) as Hget.
  rewrite Hquery in Hget. unfold paged in Hget. rewrite dict_get_set in Hget.
  destruct (values_of _ _) as [|v vs]; [discriminate Hget|].
  congruence.
Qed.

(** ** When two detail URLs have the same key *)

(** X19.  Two detail URLs with a host, made of Unicode scalar values, on
    which [urlsplit] returns: their normalizations return, and they have
    the same key exactly when they have the same scheme, in lower case,
    the same host and path, and the same query parameters as [parse_qs]
    reads them, values and order included; fragments and blank parameters
    play no part. *)
Theorem normalize_detail_url_same_key {U : UnicodeDB} (u v : str)
    (Hu : split_netloc (urlsplit u) <> []) (Hv : split_netloc (urlsplit v) <> [])
    (Hvalid_u : valid u) (Hvalid_v : valid v)
    (Haccepted_u : urlsplit_raises u = false)
    (Haccepted_v : urlsplit_raises v = false) :
  normalize_detail_url_raises (Some u) = false
  /\ normalize_detail_url_raises (Some v) = false
  /\ (normalize_detail_url (Some u) = normalize_detail_url (Some v)
      <-> split_scheme (urlsplit u) = split_scheme (urlsplit v)
          /\ split_netloc (urlsplit u) = split_netloc (urlsplit v)
          /\ split_path (urlsplit u) = split_path (urlsplit v)
          /\ parse_qs (split_query (urlsplit u))
             = parse_qs (split_query (urlsplit v))).
Proof.
  split; [now apply normalize_detail_url_returns|].
  split; [now apply normalize_detail_url_returns|].
  assert (Hne : forall x, split_netloc (urlsplit x) <> [] -> x <> []).
  { intros x Hx ->. apply Hx. reflexivity. }
  rewrite (normalize_detail_url_key u (Hne u Hu)),
          (normalize_detail_url_key v (Hne v Hv)).
  split.
  - intros [= Hkey].
    pose proof (urlsplit_normalized u Hu Hvalid_u) as Hsu.
    pose proof (urlsplit_normalized v Hv Hvalid_v) as Hsv.
    fold (key_of u) in Hsu. fold (key_of v) in Hsv.
    rewrite Hkey, Hsv in Hsu. injection Hsu as Hs Hn Hp Hq.
    repeat (split; [congruence|]).
    rewrite <- (parse_qs_urlencode _
                  (parse_qs_ok _ (urlsplit_query_Forall _ u Hvalid_u))),
            <- (parse_qs_urlencode _
                  (parse_qs_ok _ (urlsplit_query_Forall _ v Hvalid_v))) at 1.
    now rewrite Hq.
  - intros (Hs & Hn & Hp & Hq). unfold key_of. now rewrite Hs, Hn, Hp, Hq.
Qed.

(** ** The rows of a run of the scraper *)

Section Provenance.
Context {U : UnicodeDB}.
Variable urljoin : str -> str -> outcome str.
Variable fetch : str -> outcome (list block).
Variable start_url : str.
Variable pages : option Z.
Variable until_empty : bool.
Variable out_xlsx : bool.

Lemma scrape_page_Forall_item_ok page_url items :
  scrape_page urljoin fetch page_url = Returned items ->
  Forall (item_ok page_url) items.
Proof.
  unfold scrape_page.
  destruct (fetch page_url) as [blocks|]; cbn [mbind outcome_bind]; [|discriminate].
  intros Hrun.
  destruct (scrape_blocks_kept urljoin page_url blocks items Hrun)
    as (kept & _ & Hall & _).
  clear Hrun.
  induction Hall as [|i b items kept Hi _ IH]; [constructor|].
  constructor; [exact (scrape_block_item_ok urljoin page_url b i Hi) | exact IH].
Qed.

(** X20.  Every row of a run of [main] over [scrape_page] records where
    it comes from: its source page is the URL of a page that the run
    requested, the one written by [set_page_param] for that page, the row
    is an item of that page, and it is an item such as [scrape_page]
    returns: usable, with prices that are not negative. *)
Theorem rows_come_from_requested_pages (fuel : nat) (final : state)
    (Hrun : main (scrape_page urljoin fetch) start_url pages until_empty out_xlsx
              fuel = Some final) :
  Forall
    (fun w =>
       item_ok (source_page (row w)) (row w)
       /\ exists k items,
            In (k, source_page (row w)) (fetched final)
            /\ source_page (row w) = set_page_param start_url k
            /\ scrape_page urljoin fetch (source_page (row w)) = Returned items
            /\ In (row w) items)
    (csv final).
Proof.
  destruct (main_trace _ _ _ _ _ fuel final Hrun) as (n & _ & Hlog & _ & Hfinal).
  destruct (process_rows_sublist
              (candidates (scrape_page urljoin fetch) (fetched final))
              (initial start_url out_xlsx)) as (kept & Hkept & Hsub).
  assert (Hcsv : map row (csv final) = kept).
  { rewrite Hfinal at 1. exact Hkept. }
  apply List.Forall_forall. intros w Hw.
  assert (Hin : In (row w)
                  (candidates (scrape_page urljoin fetch) (fetched final))).
  { apply list_elem_of_In. apply (elem_of_sublist kept); [|exact Hsub].
    rewrite <- Hcsv. apply list_elem_of_In. now apply in_map. }
  unfold candidates in Hin. apply in_flat_map in Hin as ([k u] & He & Hitem).
  cbn [snd] in Hitem.
  destruct (scrape_page urljoin fetch u) as [items|] eqn:Hpage;
    cbn [items_of] in Hitem; [|contradiction].
  pose proof (scrape_page_Forall_item_ok u items Hpage) as Hall.
  rewrite List.Forall_forall in Hall. specialize (Hall _ Hitem).
  assert (Hsource : source_page (row w) = u) by (now destruct Hall).
  assert (Hu : u = set_page_param start_url k).
  { rewrite Hlog in He. apply in_map_iff in He as (k' & [= <- <-] & _).
    reflexivity. }
  rewrite Hsource. split; [exact Hall|].
  exists k, items. split; [exact He|]. split; [exact Hu|].
  split; [exact Hpage | exact Hitem].
Qed.

End Provenance.

(** ** Concrete instances of the further properties *)

Lemma scenario_url_valid : valid scenario_url.
Proof.
  unfold valid, scenario_url; cbn [py map list_ascii_of_string];
    repeat (constructor; [left; reflexivity|]); constructor.
Qed.

(** A page with the single block A, and the item extracted from it. *)
Definition page_of_A (page_url : str) : outcome (list block) := Returned [block_A].

Lemma scrape_page_items_ok_witness :
  exists items,
    scrape_page (U := latin1_db) (fun _ href => Returned href) page_of_A scenario_url
    = Returned items
    /\ items <> []
    /\ Forall (item_ok scenario_url) items.
Proof.
  destruct (scrape_page (U := latin1_db) (fun _ href => Returned href) page_of_A scenario_url)
    as [items|] eqn:Hpage; [|vm_compute in Hpage; discriminate Hpage].
  exists items. split; [reflexivity|]. split.
  - intros ->. vm_compute in Hpage. discriminate Hpage.
  - exact (scrape_page_items_ok (U := latin1_db) (fun _ href => Returned href) page_of_A
             scenario_url items Hpage).
Defined.

Lemma set_page_param_last_wins_witness :
  netloc (urlparse scenario_url) <> [] /\ valid scenario_url
  /\ urlparse_raises (U := latin1_db) scenario_url = false
  /\ str_of_int_raises 7 = false /\ str_of_int_raises 3 = false
  /\ set_page_param_raises (U := latin1_db) (set_page_param scenario_url 7) 3
     = false
  /\ set_page_param (set_page_param scenario_url 7) 3 = set_page_param scenario_url 3.
Proof.
  assert (Hhost : netloc (urlparse scenario_url) <> [])
    by (vm_compute; discriminate).
  assert (Haccepted : urlparse_raises (U := latin1_db) scenario_url = false)
    by reflexivity.
  assert (H7 : str_of_int_raises 7 = false) by reflexivity.
  assert (H3 : str_of_int_raises 3 = false) by reflexivity.
  split; [exact Hhost|]. split; [exact scenario_url_valid|].
  split; [exact Haccepted|]. split; [exact H7|]. split; [exact H3|].
  pose proof (set_page_param_last_wins (U := latin1_db) scenario_url 7 3 Hhost
                scenario_url_valid Haccepted H7 H3) as H.
  split; [exact (proj1 (proj2 H)) | exact (proj1 (proj2 (proj2 H)))].
Defined.

Lemma start_page_set_page_param_witness :
  netloc (urlparse scenario_url) <> [] /\ valid scenario_url
  /\ urlparse_raises (U := latin1_db) scenario_url = false
  /\ str_of_int_raises 42 = false
  /\ start_page (U := latin1_db) (set_page_param scenario_url 42) = 42%Z.
Proof.
  assert (Hhost : netloc (urlparse scenario_url) <> [])
    by (vm_compute; discriminate).
  assert (Haccepted : urlparse_raises (U := latin1_db) scenario_url = false)
    by reflexivity.
  assert (Hdigits : str_of_int_raises 42 = false) by reflexivity.
  split; [exact Hhost|]. split; [exact scenario_url_valid|].
  split; [exact Haccepted|]. split; [exact Hdigits|].
  exact (proj1 (proj2 (proj2 (start_page_set_page_param (U := latin1_db)
                                scenario_url 42 Hhost scenario_url_valid
                                Haccepted Hdigits)))).
Defined.

(** The detail URL of item A with a fragment, and its key. *)
Definition detail_A : str := py "https://shop.example/item?id=A#photo".
Definition key_A : str := py "https://shop.example/item?id=A".

Lemma detail_A_valid : valid detail_A.
Proof.
  unfold valid, detail_A; cbn [py map list_ascii_of_string];
    repeat (constructor; [left; reflexivity|]); constructor.
Qed.

Lemma key_A_valid : valid key_A.
Proof.
  unfold valid, key_A; cbn [py map list_ascii_of_string];
    repeat (constructor; [left; reflexivity|]); constructor.
Qed.

Lemma normalize_detail_url_idempotent_witness :
  split_netloc (urlsplit detail_A) <> [] /\ valid detail_A
  /\ urlsplit_raises (U := latin1_db) detail_A = false
  /\ normalize_detail_url (Some detail_A) = Some key_A
  /\ normalize_detail_url_raises (U := latin1_db) (Some key_A) = false
  /\ normalize_detail_url (Some key_A) = Some key_A.
Proof.
  assert (Hhost : split_netloc (urlsplit detail_A) <> [])
    by (vm_compute; discriminate).
  assert (Haccepted : urlsplit_raises (U := latin1_db) detail_A = false)
    by reflexivity.
  assert (Hkey : normalize_detail_url (Some detail_A) = Some key_A)
    by (vm_compute; reflexivity).
  split; [exact Hhost|]. split; [exact detail_A_valid|].
  split; [exact Haccepted|]. split; [exact Hkey|].
  pose proof (normalize_detail_url_idempotent (U := latin1_db) detail_A key_A
                Hhost detail_A_valid Haccepted Hkey) as H.
  split; [exact (proj1 (proj2 H)) | exact (proj1 (proj2 (proj2 H)))].
Defined.

Lemma normalize_detail_url_drops_fragment_witness :
  key_A <> [] /\ contains "#" key_A = false /\ valid key_A
  /\ urlsplit_raises (U := latin1_db) key_A = false
  /\ urlsplit_raises (U := latin1_db) (key_A ++ py "#" ++ py "photo") = false
  /\ normalize_detail_url (Some (key_A ++ py "#" ++ py "photo"))
     = normalize_detail_url (Some key_A).
Proof.
  assert (Hne : key_A <> []) by discriminate.
  assert (Hhash : contains "#" key_A = false) by reflexivity.
  assert (Haccepted : urlsplit_raises (U := latin1_db) key_A = false)
    by reflexivity.
  split; [exact Hne|]. split; [exact Hhash|]. split; [exact key_A_valid|].
  split; [exact Haccepted|].
  pose proof (normalize_detail_url_drops_fragment (U := latin1_db) key_A
                (py "photo") Hne Hhash key_A_valid Haccepted) as H.
  split; [exact (proj1 H) | exact (proj1 (proj2 (proj2 (proj2 H))))].
Defined.

(** A candidate without identifier, and one with neither identifier nor
    detail URL. *)
Definition item_without_id : item :=
  {| item_id := None; title := Some (py "Qux"); price_jpy := None;
     buyout_jpy := None; detail_url := Some (py "https://shop.example/item#x");
     image_url := None; source_page := scenario_url |}.

Definition item_without_key : item :=
  {| item_id := None; title := Some (py "Qux"); price_jpy := None;
     buyout_jpy := None; detail_url := None; image_url := None;
     source_page := scenario_url |}.

Lemma url_dedup_idempotence_witness :
  dedupe_id (U := latin1_db) item_without_id = None
  /\ dedupe_url item_without_id = Some (py "https://shop.example/item")
  /\ py "https://shop.example/item" <> []
  /\ forall st,
       process_row (U := latin1_db)
         (process_row (U := latin1_db) st item_without_id) item_without_id
       = process_row (U := latin1_db) st item_without_id.
Proof.
  assert (Hid : dedupe_id (U := latin1_db) item_without_id = None) by reflexivity.
  assert (Hurl : dedupe_url item_without_id = Some (py "https://shop.example/item"))
    by (vm_compute; reflexivity).
  assert (Hne : py "https://shop.example/item" <> []) by discriminate.
  split; [exact Hid|]. split; [exact Hurl|]. split; [exact Hne|].
  exact (proj1 (url_dedup_idempotence (U := latin1_db) item_without_id
                  (py "https://shop.example/item") Hid Hurl Hne)).
Defined.

Lemma keyless_rows_always_written_witness :
  dedupe_id (U := latin1_db) item_without_key = None
  /\ truthy_str (dedupe_url item_without_key) = false
  /\ forall st, duplicate (U := latin1_db) st item_without_key = false.
Proof.
  assert (Hid : dedupe_id (U := latin1_db) item_without_key = None) by reflexivity.
  assert (Hurl : truthy_str (dedupe_url item_without_key) = false) by reflexivity.
  split; [exact Hid|]. split; [exact Hurl|].
  intros st.
  exact (proj1 (keyless_rows_always_written (U := latin1_db) item_without_key
                  Hid Hurl st)).
Defined.

(** A site that serves item A on every page. *)
Definition always_A (page_url : str) : outcome (list item) := Returned [item_A].

(** The state after the one page of a run with a budget of one page. *)
Definition after_one_page : state :=
  fold_left (process_row (U := latin1_db)) [item_A]
    (log_fetch (initial (U := latin1_db) scenario_url false)
       (set_page_param scenario_url 1)).

Lemma one_page_run :
  main (U := latin1_db) always_A scenario_url (Some 1%Z) false false 1
  = Some after_one_page.
Proof. vm_compute. reflexivity. Qed.

Lemma run_is_one_pass_witness :
  main (U := latin1_db) always_A scenario_url (Some 1%Z) false false 1
  = Some after_one_page
  /\ csv after_one_page
     = csv (fold_left (process_row (U := latin1_db))
              (candidates always_A (fetched after_one_page))
              (initial (U := latin1_db) scenario_url false)).
Proof.
  split; [exact one_page_run|].
  exact (proj1 (run_is_one_pass (U := latin1_db) always_A scenario_url (Some 1%Z)
                  false false 1 after_one_page one_page_run)).
Defined.

Lemma requests_are_consecutive_witness :
  main (U := latin1_db) always_A scenario_url (Some 1%Z) false false 1
  = Some after_one_page
  /\ exists n : nat,
       (1 <= n <= 1)%nat
       /\ map fst (fetched after_one_page)
          = seqZ (start_page (U := latin1_db) scenario_url) (Z.of_nat n)
       /\ Forall (fun e => snd e = set_page_param scenario_url (fst e))
            (fetched after_one_page)
       /\ NoDup (map fst (fetched after_one_page))
       /\ page after_one_page
          = (start_page (U := latin1_db) scenario_url + Z.of_nat n - 1)%Z.
Proof.
  split; [exact one_page_run|].
  exact (requests_are_consecutive (U := latin1_db) always_A scenario_url (Some 1%Z)
           false false 1 after_one_page one_page_run).
Defined.





Lemma item_A_is_candidate :
  In item_A (candidates always_A (fetched after_one_page)).
Proof. left. reflexivity. Qed.

Lemma every_candidate_is_written_witness :
  main (U := latin1_db) always_A scenario_url (Some 1%Z) false false 1
  = Some after_one_page
  /\ In item_A (candidates always_A (fetched after_one_page))
  /\ forall i, dedupe_id (U := latin1_db) item_A = Some i ->
       exists w, In w (csv after_one_page)
                 /\ dedupe_id (U := latin1_db) (row w) = Some i.
Proof.
  split; [exact one_page_run|]. split; [exact item_A_is_candidate|].
  exact (proj1 (every_candidate_is_written (U := latin1_db) always_A scenario_url
                  (Some 1%Z) false false 1 after_one_page one_page_run item_A
                  item_A_is_candidate)).
Defined.

Lemma total_written_counts_rows_witness :
  main (U := latin1_db) always_A scenario_url (Some 1%Z) false false 1
  = Some after_one_page
  /\ total_written after_one_page = Z.of_nat (length (csv after_one_page)).
Proof.
  split; [exact one_page_run|].
  exact (proj1 (total_written_counts_rows (U := latin1_db) always_A scenario_url
                  (Some 1%Z) false false 1 after_one_page one_page_run)).
Defined.

Lemma dedupe_id_trimmed_witness :
  dedupe_id (U := latin1_db) item_A = Some (py "A")
  /\ strip (U := latin1_db) (py "A") = py "A".
Proof.
  split; [reflexivity|].
  exact (proj1 (proj2 (dedupe_id_trimmed (U := latin1_db) item_A (py "A") eq_refl))).
Defined.

Lemma clean_price_of_numeral_witness :
  str_of_int_raises (-1200) = false
  /\ clean_price (U := latin1_db) (Some (str_of_int (-1200)))
     = Returned (Some 1200%Z).
Proof.
  assert (Hdigits : str_of_int_raises (-1200) = false) by reflexivity.
  split; [exact Hdigits|].
  exact (proj1 (clean_price_of_numeral (U := latin1_db) (-1200) Hdigits)).
Defined.

Lemma normalize_detail_url_same_key_witness :
  split_netloc (urlsplit detail_A) <> [] /\ split_netloc (urlsplit key_A) <> []
  /\ valid detail_A /\ valid key_A
  /\ urlsplit_raises (U := latin1_db) detail_A = false
  /\ urlsplit_raises (U := latin1_db) key_A = false
  /\ (normalize_detail_url (Some detail_A) = normalize_detail_url (Some key_A)
      <-> split_scheme (urlsplit detail_A) = split_scheme (urlsplit key_A)
          /\ split_netloc (urlsplit detail_A) = split_netloc (urlsplit key_A)
          /\ split_path (urlsplit detail_A) = split_path (urlsplit key_A)
          /\ parse_qs (split_query (urlsplit detail_A))
             = parse_qs (split_query (urlsplit key_A))).
Proof.
  assert (Hu : split_netloc (urlsplit detail_A) <> [])
    by (vm_compute; discriminate).
  assert (Hv : split_netloc (urlsplit key_A) <> [])
    by (vm_compute; discriminate).
  assert (Hau : urlsplit_raises (U := latin1_db) detail_A = false) by reflexivity.
  assert (Hav : urlsplit_raises (U := latin1_db) key_A = false) by reflexivity.
  split; [exact Hu|]. split; [exact Hv|]. split; [exact detail_A_valid|].
  split; [exact key_A_valid|]. split; [exact Hau|]. split; [exact Hav|].
  exact (proj2 (proj2 (normalize_detail_url_same_key (U := latin1_db) detail_A
                         key_A Hu Hv detail_A_valid key_A_valid Hau Hav))).
Defined.

(** The run of the scenario with a budget of one page. *)
Definition after_first_page : state :=
  fold_left (process_row (U := latin1_db))
    (items_of (scrape_page (U := latin1_db) (fun _ href => Returned href) scenario_fetch
                 (set_page_param scenario_url 1)))
    (log_fetch (initial (U := latin1_db) scenario_url false)
       (set_page_param scenario_url 1)).

Lemma first_page_run :
  main (U := latin1_db)
    (scrape_page (U := latin1_db) (fun _ href => Returned href) scenario_fetch)
    scenario_url (Some 1%Z) false false 1
  = Some after_first_page.
Proof. vm_compute. reflexivity. Qed.

Lemma rows_come_from_requested_pages_witness :
  main (U := latin1_db)
    (scrape_page (U := latin1_db) (fun _ href => Returned href) scenario_fetch)
    scenario_url (Some 1%Z) false false 1
  = Some after_first_page
  /\ length (csv after_first_page) = 2%nat
  /\ Forall (fun w => item_ok (source_page (row w)) (row w)) (csv after_first_page).
Proof.
  split; [exact first_page_run|]. split; [vm_compute; reflexivity|].
  eapply Forall_impl;
    [exact (rows_come_from_requested_pages (U := latin1_db) (fun _ href => Returned href)
              scenario_fetch scenario_url (Some 1%Z) false false 1
              after_first_page first_page_run)|].
  intros w [Hok _]. exact Hok.
Defined.
